(* ===== verification/_CoqProject ===== *)
-Q . S2P
Prelude.v
ScoreManager.v
Character.v
Obstacles.v
ObstaclesManager.v
GameManager.v
GameInvariant.v
GameSpec.v
Rendering.v
GameApp.v
