(* ===== verification/Prelude.v ===== *)
(** * Chicken Jump: a verification development

    The program is a small real-time arcade game written in Python on top of
    Kivy.  A chicken flies horizontally between two vertical walls, gravity
    pulls it down, the player makes it jump, spikes are mounted on both
    walls, a point is scored at each wall bounce, and the spikes of one wall
    are regenerated (denser as the difficulty grows) at each bounce.  The
    game ends when the chicken touches a spike, the floor or the ceiling.

    ** Parts of the program and the files that model them

    The files are listed in the order in which they depend on each other.
    Each Python class is a module with a record [t] of its attributes; a
    method that mutates the object is a function from the state before the
    call to the state after it, together with the value the method returns
    when it returns one.  Definitions keep the names of the source.

    - [Prelude] (this file): the numeric interface [Num] (the operations
      Python applies to its numbers: [+ - * /], unary minus, [abs], [<=],
      [<], and [int(a // b)]), its exact instance [NumQ] on the rationals,
      the notations of scope [num_scope], the state monad [State] used for
      code that draws random numbers, the reflection lemmas and tactics
      that turn the boolean tests of the code into facts [lra] can use
      ([q_cases], [q_solve]), the interface [Machine] of a component that
      keeps an invariant along its operations (the score manager, the
      widget and the widget with its screen are instances), and the
      generic lemmas on lists and relations the components share.
    - [ScoreManager]: [src/widgets/score_manager.py], class [ScoreManager]:
      [add_point] and [reset_current_score].  Theorems: the invariant
      [0 <= current_score <= high_score] with
      [difficulty_level = 1 + current_score // 5] and its preservation, the
      high score as the running maximum of the score, the state after [n]
      points.
    - [Character]: [src/widgets/character.py], class [Chicken]: [jump],
      [update] (as the sequence of assignments of the code, with the state
      it leaves as the single expression [step], proved equal) and
      [get_rect].  Theorems: the horizontal clamp, the wall-hit flag, the
      bounce, the death test, [alive] as a one-way flag, the constant
      horizontal speed, the closed form of a fall and the death of a
      chicken that does not jump, the closed form of a flight between the
      walls and the tick on which the wall is reported, and [Proper]
      instances showing that the methods respect the equality of rational
      numbers.
    - [Obstacles]: [src/widgets/obstacles.py], class [Spike].  Theorems:
      [check_collision] is the overlap of open rectangles, touching is not
      a collision, the drawn triangle lies in the collision rectangle.
    - [ObstaclesManager]: [src/widgets/obstacles_manager.py], class
      [SpikeGenerator], with [random.random] as [Random.random].
      Theorems: what a generated column is in terms of the random numbers
      drawn, which column [regenerate_spikes] replaces, the invariant of
      the two columns, the gap probability and its bounds, the collision
      search as an exhaustive test, where the spikes are.
    - [GameManager]: the game logic of [src/widgets/game_manager.py], class
      [GameManager]: [__init__], the callbacks [initialize_game],
      [on_size_change], [on_key_down], [on_touch_down] and [update], and
      the methods they call, with the score label and the two overlays
      (canvas instructions and labels) as the code builds them.  [step]
      delivers one event of Kivy to the widget and [run] a sequence of
      events.  The file holds definitions only, with the invariant [inv]
      of the widget.
    - [GameInvariant]: the theorems on [GameManager] that hold for any
      numbers: each handler as one equation, [inv] in every reachable
      state, the pause overlay that is never built, the high score along a
      game, what a tick, a jump key and a restart do, and ticks without
      input.
    - [GameSpec]: the state machine of the specification (sections 4.4, 6
      and 7), [SimulationLoop], written from the specification, and the
      proof that [GameManager] refines it: a simulation for every event
      and every sequence of events, and the transitions between running,
      paused and over.
    - [Rendering]: the rendering of [src/widgets/game_manager.py]:
      [draw_game], [draw_walls], [draw_chicken], [draw_center_orb] and
      [draw_spikes] as the lists of graphics instructions they issue, and
      the children of the widget as [add_widget] and [remove_widget] leave
      them.  Theorems: the children in every reachable state, the
      triangles of a frame, the frame of the tick on which the chicken
      dies, the range of the colours, and pause followed by resume as the
      identity on the widget and its screen.
    - [GameApp]: [src/main.py], class [GameApp], and the sequence of events
      that starts the application.  Theorem: a game left alone is over
      within fifty frames.

    ** Numbers

    Python integers are [Z].  Python floats are modelled by a type [R] with
    a [Num R] instance.  The theorems that only follow the control flow of
    the code are proved for every instance, hence also for machine floats;
    the theorems that need arithmetic are proved for the instance [NumQ],
    that is for exact rational arithmetic: rounding, infinities and NaN are
    not modelled.  An integer used where the code mixes it with floats is
    injected with [of_Z], as Python does implicitly, and a decimal literal
    such as [0.8] is the quotient [dec 8 10].

    ** Randomness, events and time

    [random.random()] is a draw from a tape [Random.t] that the methods
    thread through the state monad.  Nothing is assumed about the tape:
    every theorem holds for every sequence of random numbers, and the
    examples use the tape [Random.sample].

    Kivy calls the widget back; the model turns each callback into an
    [event] and quantifies over all sequences of events, with any elapsed
    time for a tick.  The value of [math.sin(Clock.get_time() * 2)], which
    only the decorative orb reads, is an input of the tick in [Rendering].

    ** Bounds and fuel

    No definition needs fuel: the loops of the program run over
    [range(num_spikes)] and over the lists of spikes, and are structural
    recursions; a run of the game is a fold over a finite list of events.
    The only numeric bound is the fifty frames of [GameApp.idle_game_ends]:
    with gravity [-981], the step [1 / 60] and a start at height [350] in a
    field of height [700], the closed form of the fall is below the radius
    [15] after fifty ticks, and not before.

    ** What is not modelled

    - Kivy itself: the event loop, the clock, the window, the layout of
      widgets and the drawing of text and graphics.  The model keeps what
      the program gives to Kivy (instructions, children, label texts) and
      what Kivy gives to the program (events, sizes, elapsed times).
    - The attributes of a label or a layout that the code leaves to Kivy:
      a label is the record of the attributes the code sets.
    - Floating-point rounding. *)

From stdpp Require Import base tactics option list relations sorting strings pretty.
From Stdlib Require Import ZArith QArith Qround Qabs Lqa Lia.

(** ** The numeric interface *)

Declare Scope num_scope.
Delimit Scope num_scope with num.

Class Num (R : Type) : Type := {
  of_Z : Z -> R;
  nadd : R -> R -> R;
  nsub : R -> R -> R;
  nmul : R -> R -> R;
  ndiv : R -> R -> R;
  nopp : R -> R;
  nabs : R -> R;
  nleb : R -> R -> bool;
  nltb : R -> R -> bool;
  nfloordiv : R -> R -> Z
}.

Notation "x + y" := (nadd x y) : num_scope.
Notation "x - y" := (nsub x y) : num_scope.
Notation "x * y" := (nmul x y) : num_scope.
Notation "x / y" := (ndiv x y) : num_scope.
Notation "- x" := (nopp x) : num_scope.
Notation "x <=? y" := (nleb x y) : num_scope.
Notation "x <? y" := (nltb x y) : num_scope.
Notation "x >=? y" := (nleb y x) (only parsing) : num_scope.
Notation "x >? y" := (nltb y x) (only parsing) : num_scope.

(** [max(a, b)] of Python: [b] when [b > a], else [a]. *)
Definition nmax {R} `{Num R} (a b : R) : R :=
  if nltb a b then b else a.

(** The decimal literal [n / d] of the source, [d] a power of ten: [0.8] is
    [dec 8 10].  Both integers are exact in the numbers, and the quotient
    of two exact numbers is the number the literal denotes. *)
Definition dec {R} `{Num R} (n d : Z) : R := ndiv (of_Z n) (of_Z d).

(** ** The exact instance *)

Definition Qltb (x y : Q) : bool := negb (Qle_bool y x).

Definition Qfloordiv (x y : Q) : Z := Qfloor (x / y).

#[export] Instance NumQ : Num Q := {|
  of_Z := inject_Z;
  nadd := Qplus;
  nsub := Qminus;
  nmul := Qmult;
  ndiv := Qdiv;
  nopp := Qopp;
  nabs := Qabs;
  nleb := Qle_bool;
  nltb := Qltb;
  nfloordiv := Qfloordiv
|}.

(** ** A state monad, for code that reads and advances a hidden state *)

Definition State (S A : Type) : Type := S -> A * S.

#[export] Instance state_ret {S} : MRet (State S) :=
  fun A (a : A) s => (a, s).

#[export] Instance state_bind {S} : MBind (State S) :=
  fun A B (f : A -> State S B) (m : State S A) s =>
    let '(a, s') := m s in f a s'.

Definition run_state {S A} (m : State S A) (s : S) : A * S := m s.

Ltac state_unfold := unfold mbind, mret, state_bind, state_ret in *.

(** ** [str] on integers: the decimal digits, with a minus sign *)

Definition str (z : Z) : string := pretty z.

(** ** Hint databases *)

Create HintDb game discriminated.
Create HintDb qnum discriminated.

(** ** Reflection of the comparisons of [NumQ] *)

Lemma Qle_bool_reflect (x y : Q) : reflect (x <= y)%Q (Qle_bool x y).
Proof. apply iff_reflect. symmetry. apply Qle_bool_iff. Qed.

Lemma Qltb_reflect (x y : Q) : reflect (x < y)%Q (Qltb x y).
Proof.
  apply iff_reflect. unfold Qltb.
  rewrite negb_true_iff, <- not_true_iff_false, Qle_bool_iff. split.
  - apply Qlt_not_le.
  - apply Qnot_le_lt.
Qed.

Lemma Qle_bool_true (x y : Q) : (x <= y)%Q -> Qle_bool x y = true.
Proof. apply Qle_bool_iff. Qed.

Lemma Qle_bool_false (x y : Q) : (y < x)%Q -> Qle_bool x y = false.
Proof. intros H. destruct (Qle_bool_reflect x y); [lra | reflexivity]. Qed.

Lemma Qltb_true (x y : Q) : (x < y)%Q -> Qltb x y = true.
Proof. intros H. destruct (Qltb_reflect x y); [reflexivity | lra]. Qed.

Lemma Qltb_false (x y : Q) : (y <= x)%Q -> Qltb x y = false.
Proof. intros H. destruct (Qltb_reflect x y); [lra | reflexivity]. Qed.

#[export] Hint Resolve Qle_bool_true Qle_bool_false Qltb_true Qltb_false : qnum.

(** [q_unfold] exposes the operations of [Q] under the interface;
    [q_cases] splits on every comparison of the goal, leaving the
    corresponding order facts in the context; [q_solve] does both and
    closes the branches by linear arithmetic. *)

Ltac q_literals :=
  repeat match goal with
    | |- context [@dec Q NumQ ?n ?d] =>
        let v := eval vm_compute in (@dec Q NumQ n d) in
        change (@dec Q NumQ n d) with v in *
    | H : context [@dec Q NumQ ?n ?d] |- _ =>
        let v := eval vm_compute in (@dec Q NumQ n d) in
        change (@dec Q NumQ n d) with v in *
    end.

Ltac q_consts :=
  repeat match goal with
    | |- context [inject_Z (Zpos ?p)] =>
        change (inject_Z (Zpos p)) with (Zpos p # 1)%Q in *
    | H : context [inject_Z (Zpos ?p)] |- _ =>
        change (inject_Z (Zpos p)) with (Zpos p # 1)%Q in *
    | |- context [inject_Z (Zneg ?p)] =>
        change (inject_Z (Zneg p)) with (Zneg p # 1)%Q in *
    | H : context [inject_Z (Zneg ?p)] |- _ =>
        change (inject_Z (Zneg p)) with (Zneg p # 1)%Q in *
    | |- context [inject_Z Z0] => change (inject_Z Z0) with 0%Q in *
    | H : context [inject_Z Z0] |- _ => change (inject_Z Z0) with 0%Q in *
    end.

Ltac q_unfold :=
  unfold nmax in *; q_literals;
  cbn [of_Z nadd nsub nmul ndiv nopp nabs nleb nltb nfloordiv NumQ] in *;
  q_consts.

Ltac q_case_goal :=
  match goal with
  | |- context [Qle_bool ?a ?b] => destruct (Qle_bool_reflect a b)
  | |- context [Qltb ?a ?b] => destruct (Qltb_reflect a b)
  end.

Ltac q_case_hyp :=
  match goal with
  | H : context [Qle_bool ?a ?b] |- _ => destruct (Qle_bool_reflect a b)
  | H : context [Qltb ?a ?b] |- _ => destruct (Qltb_reflect a b)
  end.

Ltac q_cases := q_unfold; repeat (first [q_case_goal | q_case_hyp]; cbn [fst snd negb andb orb] in * ).

Ltac q_solve := q_cases; simplify_eq/=; try done; try lra.

(** ** Shared lemmas *)

(** Different integers print differently.  [str] is opaque from here on:
    proofs compare printed integers through this lemma and the examples
    through evaluation. *)
Lemma str_inj (a b : Z) : str a = str b -> a = b.
Proof. apply pretty_Z_inj. Qed.

Lemma str_0 : str 0 = "0".
Proof. by vm_compute. Qed.

#[global] Opaque str.

Lemma nmax_Q_spec (a b : Q) :
  (a <= nmax a b)%Q /\ (b <= nmax a b)%Q /\ (nmax a b = a \/ nmax a b = b).
Proof. unfold nmax. q_cases; repeat split; auto; lra. Qed.

Lemma Qabs_cases (x : Q) :
  (0 <= x /\ Qabs x == x)%Q \/ (x < 0 /\ Qabs x == - x)%Q.
Proof.
  destruct (Qlt_le_dec x 0) as [H | H].
  - right. split; [done |]. apply Qabs_neg. lra.
  - left. split; [done |]. by apply Qabs_pos.
Qed.

(** Half of a non-negative number, as Python's [h / 2] computes it. *)
Lemma Qhalf_bounds (h : Q) : (0 <= h -> 0 <= h / inject_Z 2 <= h)%Q.
Proof. intros Hh. unfold Qdiv. change (/ inject_Z 2)%Q with (1 # 2)%Q. lra. Qed.

Lemma inject_Z_le (a b : Z) : (a <= b)%Z -> (inject_Z a <= inject_Z b)%Q.
Proof. intros Hab. by rewrite <- Zle_Qle. Qed.

Lemma inject_Z_lt (a b : Z) : (a < b)%Z -> (inject_Z a < inject_Z b)%Q.
Proof. intros Hab. by rewrite <- Zlt_Qlt. Qed.

(** [int(x // d)] for a positive integer [d]: the number of whole [d] in
    [x]. *)
Lemma Qfloordiv_bounds (x : Q) (d : Z) :
  (0 < d)%Z ->
  (inject_Z (Qfloordiv x (inject_Z d)) * inject_Z d <= x <
   inject_Z (Qfloordiv x (inject_Z d) + 1) * inject_Z d)%Q.
Proof.
  intros Hd%inject_Z_lt. change (inject_Z 0) with 0%Q in Hd.
  unfold Qfloordiv. set (q := (x / inject_Z d)%Q).
  assert (Hx : (x == q * inject_Z d)%Q) by (unfold q; field; lra).
  pose proof (Qfloor_le q) as Hlo. pose proof (Qlt_floor q) as Hhi.
  split; nra.
Qed.

Lemma existsb_false {A} (f : A -> bool) (l : list A) :
  (forall a, a ∈ l -> f a = false) -> existsb f l = false.
Proof.
  intros Hf. apply not_true_is_false.
  intros (a & Ha%list_elem_of_In & Hfa)%existsb_exists. by rewrite Hf in Hfa.
Qed.

Lemma existsb_true {A} (f : A -> bool) (l : list A) :
  existsb f l = true <-> exists a, a ∈ l /\ f a = true.
Proof. rewrite existsb_exists. by setoid_rewrite list_elem_of_In. Qed.

Lemma elem_of_concat {A} (x : A) (ls : list (list A)) :
  x ∈ concat ls <-> exists l, l ∈ ls /\ x ∈ l.
Proof. rewrite list_elem_of_In, in_concat. by setoid_rewrite list_elem_of_In. Qed.

(** Sublists inherit what holds of every element and the order of the
    elements. *)
Lemma sublist_Forall {A} (P : A -> Prop) (l1 l2 : list A) :
  sublist l1 l2 -> Forall P l2 -> Forall P l1.
Proof.
  induction 1 as [| a l1 l2 _ IH | a l1 l2 _ IH]; intros Hall;
    [done | |]; inversion_clear Hall; auto.
Qed.

Lemma sublist_StronglySorted {A} (R : relation A) (l1 l2 : list A) :
  sublist l1 l2 -> StronglySorted R l2 -> StronglySorted R l1.
Proof.
  induction 1 as [| a l1 l2 Hsub IH | a l1 l2 _ IH]; intros Hsorted;
    [done | |]; inversion_clear Hsorted; auto.
  constructor; [auto | by apply (sublist_Forall _ l1 l2)].
Qed.

Lemma seqZ_StronglySorted (m n : Z) : StronglySorted Z.lt (seqZ m n).
Proof.
  unfold seqZ. generalize (Z.to_nat n) as k. intros k. revert m.
  induction k as [| k IH]; intros m; [constructor |].
  cbn [seq fmap list_fmap]. constructor.
  - rewrite <- seq_shift, <- list_fmap_compose.
    replace (fmap _ (seq 0 k)) with ((fun i : nat => (Z.of_nat i + (m + 1))%Z) <$> seq 0 k);
      [apply IH |].
    apply list_fmap_ext. intros i j _. cbn. lia.
  - apply Forall_fmap, Forall_forall. intros i Hi%elem_of_seq. cbn. lia.
Qed.

(** An invariant of a relation holds along its reflexive-transitive
    closure. *)
Lemma rtc_invariant {A} (R : relation A) (P : A -> Prop) :
  (forall x y, P x -> R x y -> P y) ->
  forall x y, rtc R x y -> P x -> P y.
Proof. intros Hstep x y Hrtc. induction Hrtc; eauto. Qed.

(** A property preserved by every step of a left fold holds at its end. *)
Lemma foldl_invariant {A B} (f : A -> B -> A) (P : A -> Prop) :
  (forall a b, P a -> P (f a b)) ->
  forall l a, P a -> P (foldl f a l).
Proof. intros Hf l. induction l as [| b l IH]; simpl; auto. Qed.

(** ** Components as machines

    What a component promises its clients: an invariant that each of its
    operations preserves.  A client that only applies the operations keeps
    the invariant along every sequence of them; the components discharge
    the interface with their own lemmas. *)
Class Machine (S E : Type) : Type := {
  step_of : S -> E -> S;
  inv_of : S -> Prop;
  step_of_inv : forall s e, inv_of s -> inv_of (step_of s e)
}.

Definition run_of {S E} `{Machine S E} (es : list E) (s : S) : S := foldl step_of s es.

Lemma run_of_inv {S E} `{Machine S E} (es : list E) (s : S) :
  inv_of s -> inv_of (run_of es s).
Proof. apply (foldl_invariant step_of inv_of), step_of_inv. Qed.

(** A preorder that every step of a left fold respects relates the start
    of the fold to its end. *)
Lemma foldl_monotone {A B} (f : A -> B -> A) (le : relation A) `{!PreOrder le} :
  (forall a b, le a (f a b)) ->
  forall l a, le a (foldl f a l).
Proof.
  intros Hf l. induction l as [| b l IH]; intros a; simpl.
  - reflexivity.
  - transitivity (f a b); auto.
Qed.
