(* ===== verification/ScoreManager.v ===== *)
(** * ScoreManager: the score, the high score and the difficulty level

    Models [src/widgets/score_manager.py].  The three attributes are Python
    integers, hence [Z]; [//] on integers is floor division, which is
    [Z.div] for the positive divisor 5.  The object is mutated in place by
    its two methods; here each method is a function from the state before
    the call to the state after it. *)

From stdpp Require Import base tactics list.
From Stdlib Require Import ZArith Lia.
From S2P Require Import Prelude.

#[local] Open Scope Z_scope.

Module ScoreManager.

(** ** State and operations *)

Record t : Type := mk {
  current_score : Z;
  high_score : Z;
  difficulty_level : Z
}.

(** [ScoreManager.__init__] *)
Definition init : t :=
  {| current_score := 0; high_score := 0; difficulty_level := 1 |}.

(** [ScoreManager.add_point] *)
Definition add_point (s : t) : t :=
  let current := current_score s + 1 in
  let high := if high_score s <? current then current else high_score s in
  {| current_score := current;
     high_score := high;
     difficulty_level := 1 + current / 5 |}.

(** [ScoreManager.reset_current_score] *)
Definition reset_current_score (s : t) : t :=
  {| current_score := 0;
     high_score := high_score s;
     difficulty_level := 1 |}.

(** ** Sequences of calls *)

Inductive call : Type :=
| AddPoint
| ResetCurrentScore.

Definition exec (s : t) (c : call) : t :=
  match c with
  | AddPoint => add_point s
  | ResetCurrentScore => reset_current_score s
  end.

Definition run (cs : list call) (s : t) : t := foldl exec s cs.

(** The current score after each prefix of a sequence of calls, the empty
    prefix included. *)
Fixpoint history (cs : list call) (s : t) : list Z :=
  current_score s ::
  match cs with
  | [] => []
  | c :: cs' => history cs' (exec s c)
  end.

(** The largest element of a list of integers that are not below [d]. *)
Definition maximum (d : Z) (l : list Z) : Z := foldr Z.max d l.

(** ** The invariant *)

Definition wf (s : t) : Prop :=
  0 <= current_score s <= high_score s /\
  difficulty_level s = 1 + current_score s / 5.

Definition wfb (s : t) : bool :=
  (0 <=? current_score s) && (current_score s <=? high_score s) &&
  (difficulty_level s =? 1 + current_score s / 5).

#[global] Instance t_eq_dec : EqDecision t.
Proof. solve_decision. Defined.

#[global] Instance call_eq_dec : EqDecision call.
Proof. solve_decision. Defined.

(** The order in which a later state of the same object stands to an
    earlier one: the high score never goes down. *)
Definition high_le (s s' : t) : Prop := high_score s <= high_score s'.

#[global] Instance high_le_preorder : PreOrder high_le.
Proof. split; unfold high_le; [intros s | intros s1 s2 s3]; lia. Qed.

(** ** The invariant and its preservation *)

Lemma wfb_spec (s : t) : wfb s = true <-> wf s.
Proof. unfold wfb, wf. rewrite !andb_true_iff. lia. Qed.

#[global] Instance wf_dec (s : t) : Decision (wf s).
Proof.
  refine (cast_if (decide (wfb s = true))); abstract (by rewrite <- wfb_spec).
Defined.

Lemma init_wf : wf init.
Proof. by apply wfb_spec. Qed.

Lemma add_point_wf (s : t) : wf s -> wf (add_point s).
Proof.
  unfold wf, add_point. simpl. intros [Hs _].
  destruct (Z.ltb_spec (high_score s) (current_score s + 1)); lia.
Qed.

Lemma reset_current_score_wf (s : t) : wf s -> wf (reset_current_score s).
Proof. unfold wf, reset_current_score. simpl. intros [Hs _]. split; [lia | done]. Qed.

Lemma exec_wf (s : t) (c : call) : wf s -> wf (exec s c).
Proof. destruct c; [apply add_point_wf | apply reset_current_score_wf]. Qed.

#[global] Hint Resolve init_wf add_point_wf reset_current_score_wf exec_wf : game.

(** The score manager as a machine: its calls preserve [wf]. *)
#[global] Instance machine : Machine t call :=
  {| step_of := exec; inv_of := wf; step_of_inv := exec_wf |}.

Lemma run_preserves_wf (cs : list call) (s : t) : wf s -> wf (run cs s).
Proof. exact (run_of_inv cs s). Qed.

(** C5. The invariant of the score manager, [0 <= current_score <=
    high_score] and [difficulty_level = 1 + current_score // 5], holds after
    any sequence of [add_point] and [reset_current_score] calls on an object
    that satisfied it, in particular on a new one. *)
Theorem run_wf (cs : list call) (s : t) : wf s -> wf (run cs s).
Proof. apply run_preserves_wf. Qed.

Lemma run_wf_witness : wf (run [AddPoint; AddPoint; ResetCurrentScore; AddPoint] init).
Proof. apply (run_wf _ init). exact init_wf. Defined.

(** ** The high score *)

Lemma add_point_high_score (s : t) :
  high_score (add_point s) = Z.max (high_score s) (current_score s + 1).
Proof.
  unfold add_point. simpl.
  destruct (Z.ltb_spec (high_score s) (current_score s + 1)); lia.
Qed.

Lemma exec_high_le (s : t) (c : call) : high_le s (exec s c).
Proof.
  unfold high_le. destruct c; cbn [exec]; [rewrite add_point_high_score | simpl]; lia.
Qed.

(** C10. The high score never decreases, whatever sequence of [add_point]
    and [reset_current_score] calls is made and whatever the state it
    starts from; in particular a reset never lowers it. *)
Theorem high_score_monotone (cs : list call) (s : t) :
  high_score s <= high_score (run cs s).
Proof. apply (foldl_monotone exec high_le), exec_high_le. Qed.

Lemma exec_high_score_max (s : t) (c : call) :
  wf s -> high_score (exec s c) = Z.max (high_score s) (current_score (exec s c)).
Proof.
  intros [Hs _]. destruct c; cbn [exec]; [rewrite add_point_high_score |]; simpl; lia.
Qed.

Lemma maximum_ge_default (d : Z) (l : list Z) : d <= maximum d l.
Proof. unfold maximum. induction l as [| z l IH]; simpl; lia. Qed.

Lemma maximum_swap (a b : Z) (l : list Z) :
  Z.max a (maximum b l) = Z.max b (maximum a l).
Proof. unfold maximum. induction l as [| z l IH]; simpl; lia. Qed.

Lemma history_cons (c : call) (cs : list call) (s : t) :
  history (c :: cs) s = current_score s :: history cs (exec s c).
Proof. done. Qed.

Lemma maximum_history_head (d : Z) (cs : list call) (s : t) :
  Z.max (current_score s) (maximum d (history cs s)) = maximum d (history cs s).
Proof. unfold maximum. destruct cs; simpl; lia. Qed.

Lemma run_high_score_history (cs : list call) (s : t) :
  wf s -> high_score (run cs s) = maximum (high_score s) (history cs s).
Proof.
  revert s. induction cs as [| c cs IH]; intros s Hs.
  - destruct Hs as [Hs _]. unfold maximum. simpl. lia.
  - rewrite history_cons. change (run (c :: cs) s) with (run cs (exec s c)).
    rewrite (IH (exec s c)), (exec_high_score_max s c Hs) by auto with game.
    pose proof (maximum_history_head (high_score s) cs (exec s c)) as Hhead.
    pose proof (maximum_swap (high_score s) (current_score (exec s c)) (history cs (exec s c))) as Hswap.
    pose proof (maximum_ge_default (high_score s) (history cs (exec s c))) as Hge.
    pose proof (maximum_ge_default (Z.max (high_score s) (current_score (exec s c)))
                  (history cs (exec s c))) as Hge'.
    pose proof (maximum_swap (Z.max (high_score s) (current_score (exec s c))) (high_score s)
                  (history cs (exec s c))) as Hswap'.
    destruct Hs as [Hs _]. change (maximum ?d (?z :: ?l)) with (Z.max z (maximum d l)). lia.
Qed.

(** C38. On a new score manager, the high score after any sequence of calls
    is the largest value the current score has taken along that sequence. *)
Theorem high_score_is_best (cs : list call) :
  high_score (run cs init) = maximum 0 (history cs init).
Proof. apply (run_high_score_history cs init), init_wf. Qed.

(** ** The score and the difficulty level *)

Lemma run_app (cs1 cs2 : list call) (s : t) :
  run (cs1 ++ cs2) s = run cs2 (run cs1 s).
Proof. apply foldl_app. Qed.

Lemma run_add_points (n : nat) (s : t) :
  current_score (run (replicate n AddPoint) s) = current_score s + Z.of_nat n.
Proof.
  revert s. induction n as [| n IH]; intros s; simpl; [lia |].
  change (foldl exec (add_point s) (replicate n AddPoint))
    with (run (replicate n AddPoint) (add_point s)).
  rewrite IH. simpl. lia.
Qed.

Lemma run_add_points_high_score (n : nat) (s : t) :
  wf s ->
  high_score (run (replicate n AddPoint) s) =
    Z.max (high_score s) (current_score s + Z.of_nat n).
Proof.
  intros [Hs _]. induction n as [| n IH].
  - simpl. lia.
  - rewrite replicate_S_end, run_app. cbn [run foldl exec].
    rewrite add_point_high_score, run_add_points, IH. lia.
Qed.

(** C39. After a reset followed by [n] calls of [add_point], the current
    score is [n], the difficulty level is [1 + n // 5], and the high score
    is the larger of [n] and the high score before the reset. *)
Theorem score_after_n_points (n : nat) (s : t) :
  wf s ->
  let s' := run (ResetCurrentScore :: replicate n AddPoint) s in
  current_score s' = Z.of_nat n /\
  difficulty_level s' = 1 + Z.of_nat n / 5 /\
  high_score s' = Z.max (high_score s) (Z.of_nat n).
Proof.
  intros Hs s'.
  assert (Hr : wf (reset_current_score s)) by auto with game.
  assert (Hc : current_score s' = Z.of_nat n) by apply run_add_points.
  split; [done |]. split.
  - destruct (run_preserves_wf (ResetCurrentScore :: replicate n AddPoint) s Hs)
      as [_ Hd].
    fold (run (ResetCurrentScore :: replicate n AddPoint) s) in Hd. fold s' in Hd.
    by rewrite Hd, Hc.
  - apply (run_add_points_high_score n _ Hr).
Qed.

Lemma score_after_n_points_witness :
  let s' := run (ResetCurrentScore :: replicate 12 AddPoint) (run (replicate 7 AddPoint) init) in
  current_score s' = 12 /\ difficulty_level s' = 3 /\ high_score s' = 12.
Proof.
  apply (score_after_n_points 12 (run (replicate 7 AddPoint) init)).
  by apply wfb_spec.
Defined.

Lemma add_point_difficulty_step (s : t) :
  wf s ->
  difficulty_level (add_point s) =
    difficulty_level s + (if (current_score s + 1) mod 5 =? 0 then 1 else 0).
Proof.
  intros [Hs ->]. unfold add_point. simpl.
  destruct (Z.eqb_spec ((current_score s + 1) mod 5) 0) as [E | E];
    Z.to_euclidean_division_equations; lia.
Qed.

Lemma difficulty_level_pos (s : t) : wf s -> 1 <= difficulty_level s.
Proof. intros [Hs ->]. Z.to_euclidean_division_equations; lia. Qed.

End ScoreManager.
