(* ===== verification/Character.v ===== *)
(** * Character: the chicken

    Models [src/widgets/character.py], class [Chicken]: position, horizontal
    velocity, the separate velocity gravity acts on, the collision extent,
    and the flag [alive].  The methods mutate the object; here [jump] maps
    the state before the call to the state after it and [update] returns
    the value the method returns together with the state after it.  The
    body of [update] is written as the same sequence of assignments as the
    source, each through the setter of the attribute it assigns.

    [size] and [radius] are Python integers ([radius = size // 2]); they are
    injected into the numbers wherever the code mixes them with floats.

    The theorems are about the exact instance [NumQ]: the horizontal clamp,
    the wall-hit flag, the bounce, the death test, the one-way flag [alive],
    the independence of the results from the representation of the
    rationals ([Proper] instances for the equivalence [equiv]), the fall
    of a chicken that does not jump (its closed form, and its death once
    the closed form reaches the floor), and the flight between the walls
    (its closed form, and the tick on which the wall is reported). *)

From stdpp Require Import base tactics list.
From Stdlib Require Import ZArith QArith Qabs Lqa Lia.
From S2P Require Import Prelude.

(** ** [kivy.vector.Vector], as far as the game uses it: two coordinates *)

Module Vector.

Record t (R : Type) : Type := mk { x : R; y : R }.

Arguments mk {R}.
Arguments x {R}.
Arguments y {R}.

Definition set_x {R} (v : t R) (a : R) : t R := {| x := a; y := y v |}.
Definition set_y {R} (v : t R) (a : R) : t R := {| x := x v; y := a |}.

End Vector.

Module Chicken.

#[local] Open Scope num_scope.

(** ** State *)

Record t (R : Type) : Type := mk {
  pos : Vector.t R;
  velocity : Vector.t R;
  gravity_velocity : Vector.t R;
  size : Z;
  radius : Z;
  gravity : R;
  jump_force : R;
  alive : bool
}.

Arguments mk {R}.
Arguments pos {R}.
Arguments velocity {R}.
Arguments gravity_velocity {R}.
Arguments size {R}.
Arguments radius {R}.
Arguments gravity {R}.
Arguments jump_force {R}.
Arguments alive {R}.

Section Operations.

Context {R : Type} `{Num R}.

(** The assignments [self.<attribute> = v] of the methods. *)

Definition set_pos (c : t R) (v : Vector.t R) : t R :=
  mk v (velocity c) (gravity_velocity c) (size c) (radius c) (gravity c) (jump_force c) (alive c).

Definition set_velocity (c : t R) (v : Vector.t R) : t R :=
  mk (pos c) v (gravity_velocity c) (size c) (radius c) (gravity c) (jump_force c) (alive c).

Definition set_gravity_velocity (c : t R) (v : Vector.t R) : t R :=
  mk (pos c) (velocity c) v (size c) (radius c) (gravity c) (jump_force c) (alive c).

Definition set_alive (c : t R) (b : bool) : t R :=
  mk (pos c) (velocity c) (gravity_velocity c) (size c) (radius c) (gravity c) (jump_force c) b.

(** The default of the parameter [size] of [Chicken.__init__]. *)
Definition default_size : Z := 30.

(** [Chicken.__init__(x, y, size)] *)
Definition init (x y : R) (size : Z) : t R :=
  {| pos := Vector.mk x y;
     velocity := Vector.mk (of_Z 180) (of_Z 0);
     gravity_velocity := Vector.mk (of_Z 0) (of_Z 0);
     size := size;
     radius := (size / 2)%Z;
     gravity := of_Z (-981);
     jump_force := of_Z 400;
     alive := true |}.

(** [Chicken.jump] *)
Definition jump (c : t R) : t R :=
  if alive c
  then set_gravity_velocity c (Vector.set_y (gravity_velocity c) (jump_force c))
  else c.

(** The wall test of [Chicken.update]: the [if]/[elif] on [self.pos.x],
    returning the state after the branch taken and [wall_hit]. *)
Definition bounce (c : t R) (width : R) : t R * bool :=
  if Vector.x (pos c) <=? of_Z (radius c) then
    let c := set_pos c (Vector.set_x (pos c) (of_Z (radius c))) in
    let c := set_velocity c (Vector.set_x (velocity c) (nabs (Vector.x (velocity c)))) in
    (c, true)
  else if Vector.x (pos c) >=? width - of_Z (radius c) then
    let c := set_pos c (Vector.set_x (pos c) (width - of_Z (radius c))) in
    let c := set_velocity c (Vector.set_x (velocity c) (- nabs (Vector.x (velocity c)))) in
    (c, true)
  else (c, false).

(** The test of the vertical bounds of [Chicken.update]. *)
Definition out_of_bounds (c : t R) (height : R) : bool :=
  (Vector.y (pos c) <=? of_Z (radius c)) || (Vector.y (pos c) >=? height - of_Z (radius c)).

(** [Chicken.update(dt, game_bounds)]: the returned pair
    [(wall_hit, (x, y))] and the state after the call. *)
Definition update (c : t R) (dt : R) (game_bounds : R * R) : (bool * (R * R)) * t R :=
  if negb (alive c) then ((false, (of_Z 0, of_Z 0)), c)
  else
    let c := set_gravity_velocity c
               (Vector.set_y (gravity_velocity c)
                  (Vector.y (gravity_velocity c) + gravity c * dt)) in
    let c := set_pos c (Vector.set_x (pos c)
                          (Vector.x (pos c) + Vector.x (velocity c) * dt)) in
    let c := set_pos c (Vector.set_y (pos c)
                          (Vector.y (pos c) + Vector.y (gravity_velocity c) * dt)) in
    let '(c, wall_hit) := bounce c (fst game_bounds) in
    let c := if out_of_bounds c (snd game_bounds) then set_alive c false else c in
    ((wall_hit, (Vector.x (pos c), Vector.y (pos c))), c).

(** [Chicken.get_rect]: [(left, bottom, width, height)]. *)
Definition get_rect (c : t R) : R * R * R * R :=
  (Vector.x (pos c) - of_Z (radius c),
   Vector.y (pos c) - of_Z (radius c),
   of_Z (size c),
   of_Z (size c)).

(** The position [update] computes before it tests the walls. *)
Definition moved_x (c : t R) (dt : R) : R :=
  Vector.x (pos c) + Vector.x (velocity c) * dt.

Definition moved_vy (c : t R) (dt : R) : R :=
  Vector.y (gravity_velocity c) + gravity c * dt.

Definition moved_y (c : t R) (dt : R) : R :=
  Vector.y (pos c) + moved_vy c dt * dt.

(** The state [update] leaves a live chicken in, as one expression of the
    state before the call; [update_alive] shows that the sequence of
    assignments computes it. *)
Definition hit_left (c : t R) (dt : R) : bool :=
  moved_x c dt <=? of_Z (radius c).

Definition hit_right (c : t R) (dt width : R) : bool :=
  moved_x c dt >=? width - of_Z (radius c).

Definition step (c : t R) (dt : R) (game_bounds : R * R) : t R :=
  let r := of_Z (radius c) in
  let vx := Vector.x (velocity c) in
  {| pos :=
       Vector.mk
         (if hit_left c dt then r
          else if hit_right c dt (fst game_bounds) then fst game_bounds - r
          else moved_x c dt)
         (moved_y c dt);
     velocity :=
       Vector.mk
         (if hit_left c dt then nabs vx
          else if hit_right c dt (fst game_bounds) then - nabs vx
          else vx)
         (Vector.y (velocity c));
     gravity_velocity := Vector.mk (Vector.x (gravity_velocity c)) (moved_vy c dt);
     size := size c;
     radius := radius c;
     gravity := gravity c;
     jump_force := jump_force c;
     alive := negb ((moved_y c dt <=? r) || (moved_y c dt >=? snd game_bounds - r)) |}.

(** The calls a client can make on a chicken, and their effect in order. *)
Inductive call : Type :=
| Jump
| Update (dt : R) (game_bounds : R * R).

Definition exec (c : t R) (k : call) : t R :=
  match k with
  | Jump => jump c
  | Update dt game_bounds => snd (update c dt game_bounds)
  end.

Definition run (ks : list call) (c : t R) : t R := foldl exec c ks.

End Operations.

Arguments call : clear implicits.

(** ** Predicates on chickens over the exact numbers *)

(** The chicken is between the walls of a field of the given width. *)
Definition in_field (c : t Q) (width : Q) : Prop :=
  (of_Z (radius c) <= Vector.x (pos c) <= width - of_Z (radius c))%Q.

(** Equality of vectors and chickens up to the representation of the
    rationals. *)
Definition vec_equiv (u v : Vector.t Q) : Prop :=
  (Vector.x u == Vector.x v /\ Vector.y u == Vector.y v)%Q.

Definition equiv (c1 c2 : t Q) : Prop :=
  vec_equiv (pos c1) (pos c2) /\
  vec_equiv (velocity c1) (velocity c2) /\
  vec_equiv (gravity_velocity c1) (gravity_velocity c2) /\
  size c1 = size c2 /\
  radius c1 = radius c2 /\
  (gravity c1 == gravity c2)%Q /\
  (jump_force c1 == jump_force c2)%Q /\
  alive c1 = alive c2.

(** Equality of the values [update] returns, up to the same. *)
Definition result_equiv (r1 r2 : bool * (Q * Q)) : Prop :=
  r1.1 = r2.1 /\ (r1.2.1 == r2.2.1)%Q /\ (r1.2.2 == r2.2.2)%Q.

(** Equality of calls, up to the same. *)
Definition call_equiv (k1 k2 : call Q) : Prop :=
  match k1, k2 with
  | Jump, Jump => True
  | Update dt1 b1, Update dt2 b2 => (dt1 == dt2)%Q /\ prod_relation Qeq Qeq b1 b2
  | _, _ => False
  end.

(** The calls of [n] ticks during which the player does not jump. *)
Definition fall (n : nat) (dt : Q) (b : Q * Q) : list (call Q) :=
  replicate n (Update dt b).

(** The vertical velocity and the height after [n] such ticks, in closed
    form: [update] adds [gravity * dt] to the velocity before it moves the
    chicken, so the height has gained [n (n + 1) / 2] times
    [gravity * dt * dt]. *)
Definition fall_vy (c : t Q) (dt : Q) (n : nat) : Q :=
  (Vector.y (gravity_velocity c) + inject_Z (Z.of_nat n) * (gravity c * dt))%Q.

Definition fall_y (c : t Q) (dt : Q) (n : nat) : Q :=
  (Vector.y (pos c) + inject_Z (Z.of_nat n) * (Vector.y (gravity_velocity c) * dt)
   + inject_Z (Z.of_nat n * (Z.of_nat n + 1)) * (1 # 2) * (gravity c * dt * dt))%Q.

(** The abscissa after [n] ticks between the walls, in closed form. *)
Definition flight_x (c : t Q) (dt : Q) (n : nat) : Q :=
  (Vector.x (pos c) + inject_Z (Z.of_nat n) * (Vector.x (velocity c) * dt))%Q.

(** A chicken that no gravity pulls, flying to the right at a height
    within the field. *)
Definition level_flight (c : t Q) (h : Q) : Prop :=
  alive c = true /\ (gravity c == 0)%Q /\ (Vector.y (gravity_velocity c) == 0)%Q /\
  (of_Z (radius c) < Vector.y (pos c) < h - of_Z (radius c))%Q /\
  (0 < Vector.x (velocity c))%Q /\ (of_Z (radius c) < Vector.x (pos c))%Q.

(** ** Unfolding *)

Ltac chicken_unfold :=
  unfold update, step, bounce, out_of_bounds, jump, get_rect, hit_left, hit_right,
    moved_y, moved_vy, moved_x,
    set_pos, set_velocity, set_gravity_velocity, set_alive,
    Vector.set_x, Vector.set_y in *;
  cbn [pos velocity gravity_velocity size radius gravity jump_force alive
       Vector.x Vector.y fst snd negb] in *.

Ltac chicken_solve := chicken_unfold; q_solve.

(** ** Behaviour of [update] and [jump], for any numbers *)

Section Generic.

Context {R : Type} `{Num R}.
Implicit Types (c : t R) (dt : R) (b : R * R).

Lemma update_not_alive c dt b :
  alive c = false -> update c dt b = ((false, (of_Z 0, of_Z 0)), c).
Proof. intros Ha. unfold update. by rewrite Ha. Qed.

Lemma update_alive c dt b :
  alive c = true ->
  update c dt b =
    ((hit_left c dt || hit_right c dt (fst b),
      (Vector.x (pos (step c dt b)), Vector.y (pos (step c dt b)))),
     step c dt b).
Proof.
  destruct c as [[px py] [vx vy] [gx gy] sz r gr jf a]. cbn [alive]. intros ->.
  chicken_unfold. by repeat (case_match; simplify_eq/=).
Qed.

Lemma jump_not_alive c : alive c = false -> jump c = c.
Proof. intros Ha. unfold jump. by rewrite Ha. Qed.

Lemma jump_alive c :
  alive c = true ->
  jump c = set_gravity_velocity c (Vector.mk (Vector.x (gravity_velocity c)) (jump_force c)).
Proof. intros Ha. unfold jump. by rewrite Ha. Qed.

(** A jump changes the vertical velocity only. *)
Lemma jump_frame c :
  alive (jump c) = alive c /\ pos (jump c) = pos c /\ velocity (jump c) = velocity c /\
  size (jump c) = size c /\ radius (jump c) = radius c /\
  gravity (jump c) = gravity c /\ jump_force (jump c) = jump_force c.
Proof. unfold jump. by destruct c as [? ? ? ? ? ? ? []]. Qed.

Lemma exec_not_alive c (k : call R) : alive c = false -> exec c k = c.
Proof.
  intros Ha. destruct k; cbn [exec]; [by apply jump_not_alive |].
  by rewrite update_not_alive.
Qed.

Lemma exec_alive_inv c (k : call R) : alive (exec c k) = true -> alive c = true.
Proof.
  destruct (alive c) eqn:Ha; [done |]. by rewrite exec_not_alive, Ha.
Qed.

Lemma exec_size_radius c (k : call R) :
  size (exec c k) = size c /\ radius (exec c k) = radius c.
Proof.
  destruct (alive c) eqn:Ha; [| by rewrite exec_not_alive].
  destruct k; cbn [exec]; [by rewrite jump_alive | by rewrite update_alive].
Qed.

Lemma run_alive_inv (ks : list (call R)) c : alive (run ks c) = true -> alive c = true.
Proof.
  revert c. induction ks as [| k ks IH]; intros c; [done |].
  intros Hc. apply exec_alive_inv with k, IH, Hc.
Qed.

(** C18. A chicken that is not alive is frozen: [update] returns
    [(False, (0, 0))] whatever the time step and the bounds, and neither it
    nor [jump] changes any attribute, so that no sequence of calls brings
    a dead chicken back to life or moves it. *)
Theorem dead_is_final (ks : list (call R)) c :
  alive c = false ->
  run ks c = c /\
  forall dt b, update (run ks c) dt b = ((false, (of_Z 0, of_Z 0)), c).
Proof.
  intros Ha.
  assert (Hrun : run ks c = c).
  { induction ks as [| k ks IH]; [done |].
    change (run (k :: ks) c) with (run ks (exec c k)). by rewrite exec_not_alive. }
  split; [done |]. intros dt b. rewrite Hrun. by apply update_not_alive.
Qed.

(** C36. [alive] only ever goes from true to false: if the chicken is alive
    after a sequence of [jump] and [update] calls, it was alive before it
    and after each of its prefixes. *)
Theorem alive_is_one_way (ks1 ks2 : list (call R)) c :
  alive (run (ks1 ++ ks2) c) = true -> alive (run ks1 c) = true.
Proof. unfold run. rewrite foldl_app. apply run_alive_inv. Qed.

End Generic.

(** ** Behaviour of [update] over the exact numbers *)

Section Exact.

#[local] Open Scope Q_scope.
Implicit Types (c : t Q) (dt w h : Q) (k : call Q).

Lemma dead_is_final_witness :
  let c := set_alive (init 500 350 default_size) false in
  let ks := [Jump; Update (1 # 60) (1000, 700); Jump] in
  run ks c = c /\
  forall dt b, update (run ks c) dt b = ((false, (of_Z 0, of_Z 0)), c).
Proof. apply (dead_is_final (R := Q)). reflexivity. Defined.

Lemma alive_is_one_way_witness :
  alive (run [Jump; Update (1 # 60) (1000, 700)] (init 500 350 default_size)) = true.
Proof.
  apply (alive_is_one_way (R := Q) [Jump; Update (1 # 60) (1000, 700)]
           [Update (1 # 60) (1000, 700); Jump]).
  by vm_compute.
Defined.

Lemma update_x_cases c dt w h :
  alive c = true ->
  let c' := (update c dt (w, h)).2 in
  (moved_x c dt <= of_Z (radius c) /\
     Vector.x (pos c') = of_Z (radius c) /\
     Vector.x (velocity c') = Qabs (Vector.x (velocity c)) /\
     (update c dt (w, h)).1.1 = true) \/
  (of_Z (radius c) < moved_x c dt /\ w - of_Z (radius c) <= moved_x c dt /\
     Vector.x (pos c') = w - of_Z (radius c) /\
     Vector.x (velocity c') = - Qabs (Vector.x (velocity c)) /\
     (update c dt (w, h)).1.1 = true) \/
  (of_Z (radius c) < moved_x c dt < w - of_Z (radius c) /\
     Vector.x (pos c') = moved_x c dt /\
     Vector.x (velocity c') = Vector.x (velocity c) /\
     (update c dt (w, h)).1.1 = false).
Proof.
  intros Ha. rewrite update_alive by done. chicken_unfold. q_cases; intuition lra.
Qed.

(** C3. After [update] on a live chicken in a field at least as wide as the
    chicken ([2 * radius <= width]), the horizontal position is within
    [[radius, width - radius]], whatever the position before the call and
    whatever the time step. *)
Theorem update_clamps_x c dt w h :
  alive c = true -> 2 * of_Z (radius c) <= w ->
  in_field (update c dt (w, h)).2 w.
Proof.
  intros Ha Hw. unfold in_field.
  destruct (update_x_cases c dt w h Ha) as [H | [H | H]];
    destruct (exec_size_radius c (Update dt (w, h))) as [_ Hr];
    cbn [exec] in Hr; rewrite Hr; destruct_and!;
    repeat match goal with E : Vector.x _ = _ |- _ => rewrite E; clear E end; lra.
Qed.

Lemma update_clamps_x_witness :
  in_field (update (init 984 350 default_size) (1 # 60) (1000, 700)).2 1000.
Proof. apply update_clamps_x; [reflexivity | by vm_compute]. Defined.

(** In a field narrower than the chicken the left wall wins and the
    position ends beyond the right bound. *)
Lemma update_narrow_field_escapes :
  let c' := (update (init 10 350 default_size) (1 # 60) (20, 700)).2 in
  ~ in_field c' 20 /\ Vector.x (pos c') == 15.
Proof. unfold in_field. vm_compute. split; [intros [_ Hx]; by apply Hx | done]. Qed.

(** C4. The flag [update] returns is true exactly when the position it
    computed was at or beyond a wall, [x + vx * dt <= radius] or
    [x + vx * dt >= width - radius]; when it is false the new position is
    the computed one and the velocity is unchanged, and when it is true the
    new position is [radius] or [width - radius]. *)
Theorem wall_hit_iff_clamped c dt w h :
  alive c = true ->
  let '((wall_hit, (x', _)), c') := update c dt (w, h) in
  x' = Vector.x (pos c') /\
  (wall_hit = true <->
     moved_x c dt <= of_Z (radius c) \/ w - of_Z (radius c) <= moved_x c dt) /\
  (wall_hit = false ->
     x' = moved_x c dt /\ Vector.x (velocity c') = Vector.x (velocity c)) /\
  (wall_hit = true -> x' = of_Z (radius c) \/ x' = w - of_Z (radius c)).
Proof.
  intros Ha. pose proof (update_x_cases c dt w h Ha) as Hx.
  rewrite update_alive in * by done. cbn [fst snd] in *.
  split; [done |].
  destruct Hx as [H | [H | H]]; destruct_and!;
    repeat match goal with E : _ = _ |- _ => rewrite E; clear E end;
    intuition (try done; try lra).
Qed.

Lemma wall_hit_iff_clamped_witness :
  let '((wall_hit, (x', _)), c') := update (init 984 350 default_size) (1 # 60) (1000, 700) in
  x' = Vector.x (pos c') /\
  (wall_hit = true <-> 984 + 180 * (1 # 60) <= 15 \/ 1000 - 15 <= 984 + 180 * (1 # 60)) /\
  (wall_hit = false -> x' = 984 + 180 * (1 # 60) /\ Vector.x (velocity c') = 180) /\
  (wall_hit = true -> x' = 15 \/ x' = 1000 - 15).
Proof. exact (wall_hit_iff_clamped (init 984 350 default_size) (1 # 60) 1000 700 eq_refl). Defined.

Lemma Qmult_sign (v dt : Q) :
  0 < dt -> (0 < v -> 0 < v * dt) /\ (v < 0 -> v * dt < 0).
Proof. intros Hdt. split; intros Hv; nra. Qed.

(** C21. A tick on which a chicken that was between the walls hits a wall
    reverses its horizontal velocity and keeps its magnitude: moving right
    it is put at [width - radius] and leaves moving left, moving left it is
    put at [radius] and leaves moving right (for a positive time step and a
    non-zero velocity). *)
Theorem bounce_flips_velocity c dt w h :
  alive c = true -> in_field c w -> 0 < dt ->
  (update c dt (w, h)).1.1 = true ->
  let vx := Vector.x (velocity c) in
  let c' := (update c dt (w, h)).2 in
  (0 < vx -> Vector.x (velocity c') == - vx /\ Vector.x (pos c') = w - of_Z (radius c)) /\
  (vx < 0 -> Vector.x (velocity c') == - vx /\ Vector.x (pos c') = of_Z (radius c)).
Proof.
  intros Ha [Hl Hr] Hdt Hhit. cbv zeta.
  destruct (Qmult_sign (Vector.x (velocity c)) dt Hdt) as [Hpos Hneg].
  destruct (Qabs_cases (Vector.x (velocity c))) as [[? Habs] | [? Habs]];
    destruct (update_x_cases c dt w h Ha) as [Hx | [Hx | Hx]];
    unfold moved_x in Hx; destruct_and!; try congruence;
    repeat match goal with E : Vector.x _ = _ |- _ => rewrite E; clear E end;
    rewrite ?Habs; q_unfold; split; intros Hv; split; try done; lra.
Qed.

Lemma bounce_flips_velocity_witness :
  let c := init 984 350 default_size in
  let c' := (update c (1 # 60) (1000, 700)).2 in
  Vector.x (velocity c') == - Vector.x (velocity c) /\
  Vector.x (pos c') = 1000 - of_Z (radius c).
Proof.
  apply (bounce_flips_velocity (init 984 350 default_size) (1 # 60) 1000 700);
    [reflexivity | by vm_compute | reflexivity | reflexivity | reflexivity].
Defined.

(** With a zero time step a chicken resting on a wall is reported as
    hitting it again and keeps its direction. *)
Lemma bounce_without_flip_at_zero_dt :
  let c := (update (init 984 350 default_size) (1 # 60) (1000, 700)).2 in
  (update c 0 (1000, 700)).1.1 = true /\
  Vector.x (velocity (update c 0 (1000, 700)).2) == Vector.x (velocity c).
Proof. by vm_compute. Qed.

Lemma exec_speed c k :
  Qabs (Vector.x (velocity (exec c k))) == Qabs (Vector.x (velocity c)).
Proof.
  destruct (alive c) eqn:Ha; [| by rewrite exec_not_alive].
  destruct k as [| dt [w h]]; cbn [exec]; [by rewrite jump_alive |].
  destruct (update_x_cases c dt w h Ha) as [Hx | [Hx | Hx]]; destruct_and!;
    repeat match goal with E : Vector.x (velocity _) = _ |- _ => rewrite E; clear E end;
    rewrite ?Qabs_opp; try reflexivity; apply Qabs_pos, Qabs_nonneg.
Qed.

(** C37. The horizontal speed is constant: whatever sequence of [jump] and
    [update] calls is made, the horizontal velocity keeps its magnitude
    (180 for a chicken built by [__init__]); only its sign changes. *)
Theorem speed_is_constant (ks : list (call Q)) c :
  Qabs (Vector.x (velocity (run ks c))) == Qabs (Vector.x (velocity c)).
Proof.
  revert c. induction ks as [| k ks IH]; intros c; [reflexivity |].
  change (run (k :: ks) c) with (run ks (exec c k)). by rewrite IH, exec_speed.
Qed.

(** C22. The death test of [update]: a live chicken stays alive exactly when
    the height it has moved to is strictly between [radius] and
    [height - radius]; the height is never clamped, and the velocity
    gravity acts on has gained [gravity * dt]. *)
Theorem update_alive_iff c dt w h :
  alive c = true ->
  let c' := (update c dt (w, h)).2 in
  (alive c' = true <-> of_Z (radius c) < moved_y c dt < h - of_Z (radius c)) /\
  Vector.y (pos c') = moved_y c dt /\
  Vector.y (gravity_velocity c') = Vector.y (gravity_velocity c) + gravity c * dt.
Proof.
  intros Ha. rewrite update_alive by done.
  split; [| done]. unfold step. cbn [alive snd].
  rewrite negb_true_iff, orb_false_iff. q_cases; intuition (try done; lra).
Qed.

Lemma update_alive_iff_witness :
  let c := init 500 350 default_size in
  let c' := (update c (1 # 60) (1000, 700)).2 in
  (alive c' = true <-> 15 < moved_y c (1 # 60) < 700 - 15) /\
  Vector.y (pos c') = moved_y c (1 # 60) /\
  Vector.y (gravity_velocity c') = 0 + (-981) * (1 # 60).
Proof. exact (update_alive_iff (init 500 350 default_size) (1 # 60) 1000 700 eq_refl). Defined.

(** ** Independence of the representation of the rationals

    [1 # 2] and [2 # 4] are different terms and the same number.  The
    methods respect the equality of numbers: on equivalent chickens, with
    equal steps and bounds, they return equal values and leave equivalent
    chickens. *)

#[global] Instance Qltb_proper : Proper (Qeq ==> Qeq ==> eq) Qltb.
Proof. intros x1 x2 Hx y1 y2 Hy. unfold Qltb. by rewrite Hx, Hy. Qed.

#[global] Instance vec_equiv_equivalence : Equivalence vec_equiv.
Proof.
  split.
  - by intros u.
  - by intros u v [? ?].
  - intros u v w [? ?] [? ?]. split; etrans; eauto.
Qed.

#[global] Instance equiv_equivalence : Equivalence equiv.
Proof.
  split.
  - by intros c.
  - intros c1 c2 (? & ? & ? & ? & ? & ? & ? & ?). by split_and!.
  - intros c1 c2 c3 (? & ? & ? & ? & ? & ? & ? & ?) (? & ? & ? & ? & ? & ? & ? & ?).
    split_and!; etrans; eauto.
Qed.

(** Replaces the attributes of the first of two equivalent chickens by
    those of the second. *)
Ltac equiv_rewrite H :=
  destruct H as ([Hpx Hpy] & [Hvx Hvy] & [Hgx Hgy] & Hsz & Hr & Hg & Hj & Ha);
  rewrite ?Hpx, ?Hpy, ?Hvx, ?Hvy, ?Hgx, ?Hgy, ?Hsz, ?Hr, ?Hg, ?Hj, ?Ha.

#[global] Instance moved_x_proper : Proper (equiv ==> Qeq ==> Qeq) moved_x.
Proof. intros c1 c2 Hc dt1 dt2 Hdt. unfold moved_x. q_unfold. by equiv_rewrite Hc; rewrite Hdt. Qed.

#[global] Instance moved_vy_proper : Proper (equiv ==> Qeq ==> Qeq) moved_vy.
Proof. intros c1 c2 Hc dt1 dt2 Hdt. unfold moved_vy. q_unfold. by equiv_rewrite Hc; rewrite Hdt. Qed.

#[global] Instance moved_y_proper : Proper (equiv ==> Qeq ==> Qeq) moved_y.
Proof.
  intros c1 c2 Hc dt1 dt2 Hdt. unfold moved_y. q_unfold.
  rewrite (moved_vy_proper _ _ Hc _ _ Hdt), Hdt. by equiv_rewrite Hc.
Qed.

#[global] Instance hit_left_proper : Proper (equiv ==> Qeq ==> eq) hit_left.
Proof.
  intros c1 c2 Hc dt1 dt2 Hdt. unfold hit_left. q_unfold.
  rewrite (moved_x_proper _ _ Hc _ _ Hdt). by equiv_rewrite Hc.
Qed.

#[global] Instance hit_right_proper : Proper (equiv ==> Qeq ==> Qeq ==> eq) hit_right.
Proof.
  intros c1 c2 Hc dt1 dt2 Hdt w1 w2 Hw. unfold hit_right. q_unfold.
  rewrite (moved_x_proper _ _ Hc _ _ Hdt), Hw. by equiv_rewrite Hc.
Qed.

#[global] Instance step_proper :
  Proper (equiv ==> Qeq ==> prod_relation Qeq Qeq ==> equiv) step.
Proof.
  intros c1 c2 Hc dt1 dt2 Hdt [w1 h1] [w2 h2] [Hw Hh]. cbn [fst snd] in Hw, Hh.
  pose proof (hit_left_proper _ _ Hc _ _ Hdt) as Hl.
  pose proof (hit_right_proper _ _ Hc _ _ Hdt _ _ Hw) as Hr'.
  pose proof (moved_x_proper _ _ Hc _ _ Hdt) as Hmx.
  pose proof (moved_y_proper _ _ Hc _ _ Hdt) as Hmy.
  pose proof (moved_vy_proper _ _ Hc _ _ Hdt) as Hmvy.
  destruct Hc as ([Hpx Hpy] & [Hvx Hvy] & [Hgx Hgy] & Hsz & Hr & Hg & Hj & Ha).
  pose proof (Qabs_wd _ _ Hvx) as Habs.
  unfold step, equiv, vec_equiv. cbn [pos velocity gravity_velocity size radius gravity
    jump_force alive Vector.x Vector.y fst snd]. rewrite Hl, Hr', Hr. q_unfold.
  split_and!; try done; try (repeat case_match; lra). by rewrite Hmy, Hh.
Qed.

#[global] Instance update_proper :
  Proper (equiv ==> Qeq ==> prod_relation Qeq Qeq ==> prod_relation result_equiv equiv) update.
Proof.
  intros c1 c2 Hc dt1 dt2 Hdt b1 b2 Hb.
  assert (Ha : alive c1 = alive c2) by apply Hc.
  destruct (alive c2) eqn:Ha2.
  - rewrite !update_alive by done. pose proof (step_proper _ _ Hc _ _ Hdt _ _ Hb) as Hs.
    split; [| done]. split_and!; cbn [fst snd]; [| apply Hs..].
    by rewrite (hit_left_proper _ _ Hc _ _ Hdt), (hit_right_proper _ _ Hc _ _ Hdt _ _ (proj1 Hb)).
  - rewrite !update_not_alive by done. by split.
Qed.

#[global] Instance jump_proper : Proper (equiv ==> equiv) jump.
Proof.
  intros c1 c2 Hc. unfold jump. replace (alive c1) with (alive c2) by (symmetry; apply Hc).
  destruct (alive c2); [| done]. unfold equiv, vec_equiv in *.
  cbn [set_gravity_velocity Vector.set_y pos velocity gravity_velocity size radius gravity
    jump_force alive Vector.x Vector.y]. by destruct_and!.
Qed.

#[global] Instance exec_proper : Proper (equiv ==> call_equiv ==> equiv) exec.
Proof.
  intros c1 c2 Hc [| dt1 b1] [| dt2 b2] Hk; try done; cbn [exec].
  - by apply jump_proper.
  - destruct Hk as [Hdt Hb]. apply (update_proper _ _ Hc _ _ Hdt _ _ Hb).
Qed.

(** Equivalent sequences of calls take equivalent chickens to equivalent
    chickens. *)
#[global] Instance run_proper : Proper (Forall2 call_equiv ==> equiv ==> equiv) run.
Proof.
  intros ks1 ks2 Hks. induction Hks as [| k1 k2 ks1 ks2 Hk _ IH]; intros c1 c2 Hc; [done |].
  apply IH, exec_proper; done.
Qed.

(** ** Free fall *)

(** One tick of a live chicken, vertically. *)
Lemma update_vertical c dt b :
  alive c = true ->
  let c' := exec c (Update dt b) in
  Vector.y (gravity_velocity c') = moved_vy c dt /\
  Vector.y (pos c') = moved_y c dt /\
  gravity c' = gravity c /\ radius c' = radius c /\
  (alive c' = true -> of_Z (radius c) < Vector.y (pos c')).
Proof.
  intros Ha. cbn [exec]. rewrite update_alive by done. split_and!; try done.
  unfold step. cbn [alive snd pos Vector.y]. rewrite negb_true_iff, orb_false_iff.
  q_cases; intuition (try done; lra).
Qed.

Lemma fall_S n dt b c : run (fall (S n) dt b) c = run (fall n dt b) (exec c (Update dt b)).
Proof. done. Qed.

(** The closed form of the fall, as long as the chicken is alive. *)
Lemma fall_closed_form n dt b c :
  alive (run (fall n dt b) c) = true ->
  let c' := run (fall n dt b) c in
  Vector.y (gravity_velocity c') == fall_vy c dt n /\
  Vector.y (pos c') == fall_y c dt n /\
  gravity c' = gravity c /\ radius c' = radius c.
Proof.
  revert c. induction n as [| n IH]; intros c Hn.
  { unfold fall_vy, fall_y. change (run (fall 0 dt b) c) with c.
    change (inject_Z (Z.of_nat 0 * _)) with 0. change (inject_Z (Z.of_nat 0)) with 0.
    split_and!; try done; ring. }
  rewrite fall_S in *. pose proof (run_alive_inv _ _ Hn) as Ha%exec_alive_inv.
  destruct (update_vertical c dt b Ha) as (Hvy & Hy & Hg & Hr & _).
  destruct (IH _ Hn) as (IHvy & IHy & IHg & IHr). cbv zeta.
  rewrite IHvy, IHy, IHg, IHr. unfold fall_vy, fall_y. rewrite Hvy, Hy, Hg.
  unfold moved_y, moved_vy. rewrite Nat2Z.inj_succ. unfold Z.succ.
  rewrite !inject_Z_mult, !inject_Z_plus. change (inject_Z 1) with 1.
  cbn [nadd nmul NumQ]. split_and!; [ring | ring | congruence..].
Qed.

(** A chicken that is alive after a tick is above the floor. *)
Lemma fall_above_floor n dt b c :
  alive (run (fall (S n) dt b) c) = true ->
  of_Z (radius c) < Vector.y (pos (run (fall (S n) dt b) c)).
Proof.
  intros Hn. destruct (fall_closed_form n dt b c) as (_ & _ & _ & <-).
  { apply (run_alive_inv [Update dt b]). unfold run, fall in *.
    by rewrite <- foldl_app, <- replicate_S_end. }
  revert Hn. unfold fall, run. rewrite replicate_S_end, foldl_snoc. intros Hn.
  by apply update_vertical; [apply exec_alive_inv in Hn |].
Qed.

(** A chicken that is alive after [n] ticks without a jump has its closed
    form above the floor. *)
Lemma fall_alive_above n dt b c :
  (0 < n)%nat -> alive (run (fall n dt b) c) = true -> of_Z (radius c) < fall_y c dt n.
Proof.
  intros Hpos Hn. destruct n as [| n]; [lia |].
  pose proof (fall_above_floor n dt b c Hn) as Habove.
  destruct (fall_closed_form (S n) dt b c Hn) as (_ & Hy & _).
  by rewrite Hy in Habove.
Qed.

(** C13. A chicken that does not jump dies: once the closed form of the
    fall is at or below the radius, after [n] ticks of any step and in any
    field, the chicken is not alive, whether it reached the floor or left
    the field before.  A chicken built by [__init__] in the middle of a
    field of height 700 is dead after 50 ticks of a sixtieth of a second. *)
Theorem falls_to_death n dt b c :
  (0 < n)%nat -> fall_y c dt n <= of_Z (radius c) ->
  alive (run (fall n dt b) c) = false.
Proof.
  intros Hpos Hfloor. destruct (alive (run (fall n dt b) c)) eqn:Hn; [| done].
  pose proof (fall_alive_above n dt b c Hpos Hn). lra.
Qed.

Lemma falls_to_death_witness :
  alive (run (fall 50 (1 # 60) (1000, 700)) (init 500 350 default_size)) = false.
Proof. apply falls_to_death; [lia | by vm_compute]. Defined.

(** ** Flight between the walls *)

Lemma flight_x_S c dt n :
  flight_x c dt (S n) == flight_x c dt n + Vector.x (velocity c) * dt.
Proof.
  unfold flight_x. rewrite Nat2Z.inj_succ. unfold Z.succ.
  rewrite inject_Z_plus. change (inject_Z 1) with 1. ring.
Qed.

Lemma flight_x_mono c dt (i n : nat) :
  0 < dt -> 0 < Vector.x (velocity c) -> (i <= n)%nat ->
  flight_x c dt i <= flight_x c dt n.
Proof.
  intros Hdt Hv Hkn. unfold flight_x. apply Qplus_le_r, Qmult_le_compat_r.
  - apply inject_Z_le. lia.
  - apply Qlt_le_weak, Qmult_lt_0_compat; done.
Qed.

(** A tick of a level flight changes neither the height nor [alive]. *)
Lemma level_flight_vertical c dt w h :
  level_flight c h ->
  moved_y c dt == Vector.y (pos c) /\ moved_vy c dt == 0 /\
  alive (update c dt (w, h)).2 = true.
Proof.
  intros (Ha & Hg & Hgv & Hy & _).
  assert (Hvy : moved_vy c dt == 0) by (unfold moved_vy; q_unfold; rewrite Hg, Hgv; ring).
  assert (Hy0 : moved_y c dt == Vector.y (pos c)) by (unfold moved_y; q_unfold; rewrite Hvy; ring).
  split_and!; [done.. |]. rewrite update_alive by done. unfold step. cbn [snd alive].
  rewrite negb_true_iff, orb_false_iff. q_cases; intuition (try done; lra).
Qed.

(** One tick of a level flight that stays left of the right wall: no wall
    is hit, the chicken has advanced by [velocity.x * dt] and still flies
    level. *)
Lemma level_flight_step c dt w h :
  level_flight c h -> 0 < dt -> flight_x c dt 1 < w - of_Z (radius c) ->
  let c' := exec c (Update dt (w, h)) in
  (update c dt (w, h)).1.1 = false /\ level_flight c' h /\
  Vector.x (pos c') == flight_x c dt 1 /\
  Vector.x (velocity c') = Vector.x (velocity c) /\ radius c' = radius c.
Proof.
  intros Hc Hdt Hw. destruct (level_flight_vertical c dt w h Hc) as (Hy0 & Hvy0 & Ha').
  destruct Hc as (Ha & Hg & Hgv & Hy & Hv & Hx).
  pose proof (Qmult_lt_0_compat _ _ Hv Hdt) as Hs.
  assert (Hm : moved_x c dt == flight_x c dt 1).
  { unfold moved_x, flight_x. q_unfold. change (inject_Z (Z.of_nat 1)) with 1. ring. }
  destruct (update_vertical c dt (w, h) Ha) as (Hvy' & Hy' & Hg' & Hr' & _).
  assert (Hmx : moved_x c dt == Vector.x (pos c) + Vector.x (velocity c) * dt)
    by (unfold moved_x; by q_unfold).
  cbn [exec] in *.
  destruct (update_x_cases c dt w h Ha) as [H | [H | H]]; destruct_and!; try lra.
  split_and!; try done; [| congruence].
  unfold level_flight. split_and!; try congruence; rewrite Hy', Hr'; lra.
Qed.

(** The closed form of a level flight, as long as it stays left of the
    right wall: no tick reports a wall. *)
Lemma level_flight_closed_form n dt w h c :
  level_flight c h -> 0 < dt -> flight_x c dt n < w - of_Z (radius c) ->
  let c' := run (fall n dt (w, h)) c in
  level_flight c' h /\ Vector.x (pos c') == flight_x c dt n /\
  Vector.x (velocity c') = Vector.x (velocity c) /\ radius c' = radius c.
Proof.
  revert c. induction n as [| n IH]; intros c Hc Hdt Hw.
  { change (run (fall 0 dt (w, h)) c) with c. unfold flight_x.
    change (inject_Z (Z.of_nat 0)) with 0. split_and!; [done | ring | done..]. }
  assert (Hv : 0 < Vector.x (velocity c)) by apply Hc.
  pose proof (flight_x_mono c dt 1 (S n) Hdt Hv ltac:(lia)) as H1.
  destruct (level_flight_step c dt w h Hc Hdt ltac:(lra)) as (_ & Hc' & Hx' & Hv' & Hr').
  rewrite fall_S. set (c1 := exec c (Update dt (w, h))) in *.
  assert (Hn : flight_x c1 dt n == flight_x c dt (S n)).
  { rewrite flight_x_S. unfold flight_x in *. rewrite Hx', Hv'.
    change (inject_Z (Z.of_nat 1)) with 1. ring. }
  destruct (IH c1 Hc' Hdt ltac:(rewrite Hn, Hr'; done)) as (? & Hx & ? & ?).
  split_and!; [done | by rewrite Hx | congruence..].
Qed.

(** C14. The time to the wall: a live chicken without gravity that flies
    to the right, with a positive time step, reports no wall as long as
    its closed form [x + n * velocity.x * dt] is left of
    [width - radius], and on the first tick that takes the closed form to
    [width - radius] or beyond it reports the wall, stands at
    [width - radius], has its velocity reversed and is still alive.  In a
    field of 1000 by 700 a chicken of radius 15 started at 500 with velocity
    180 bounces when it reaches 985. *)
Theorem time_to_wall n dt w h c :
  level_flight c h -> 0 < dt ->
  flight_x c dt n < w - of_Z (radius c) <= flight_x c dt (S n) ->
  (forall i, (i <= n)%nat ->
     Vector.x (pos (run (fall i dt (w, h)) c)) == flight_x c dt i /\
     ((i < n)%nat -> (update (run (fall i dt (w, h)) c) dt (w, h)).1.1 = false)) /\
  let '((wall_hit, _), c') := update (run (fall n dt (w, h)) c) dt (w, h) in
  wall_hit = true /\ Vector.x (pos c') = w - of_Z (radius c) /\
  Vector.x (velocity c') == - Vector.x (velocity c) /\ alive c' = true.
Proof.
  intros Hc Hdt [Hn HSn]. assert (Hv : 0 < Vector.x (velocity c)) by apply Hc. split.
  - intros i Hk. pose proof (flight_x_mono c dt i n Hdt Hv Hk) as Hkn.
    destruct (level_flight_closed_form i dt w h c Hc Hdt ltac:(lra)) as (Hck & Hx & Hvk & Hr).
    split; [done |]. intros Hlt.
    pose proof (flight_x_mono c dt (S i) n Hdt Hv Hlt) as HSk.
    apply (level_flight_step _ dt w h Hck Hdt).
    rewrite flight_x_S in HSk. rewrite Hr. unfold flight_x in *. rewrite Hx, Hvk.
    change (inject_Z (Z.of_nat 1)) with 1. lra.
  - destruct (level_flight_closed_form n dt w h c Hc Hdt Hn) as (Hcn & Hx & Hvn & Hr).
    set (cn := run (fall n dt (w, h)) c) in *.
    destruct (level_flight_vertical cn dt w h Hcn) as (_ & _ & Ha').
    destruct Hcn as (Ha & _ & _ & _ & _ & Hxr).
    assert (Hm : moved_x cn dt == flight_x c dt (S n)).
    { rewrite flight_x_S. unfold moved_x. q_unfold. by rewrite Hx, Hvn. }
    pose proof (Qmult_lt_0_compat _ _ Hv Hdt) as Hs.
    pose proof (flight_x_S c dt n) as HS.
    destruct (update_x_cases cn dt w h Ha)
      as [(Hl & _) | [(_ & _ & Hpx & Hvx & Hhit) | ((_ & Hlt) & _)]];
      rewrite Hr in *; [lra | | lra].
    destruct (update cn dt (w, h)) as [[hit xy] c']. cbn [fst snd] in *.
    split_and!; [done.. | | done].
    rewrite Hvx, Hvn. by rewrite Qabs_pos by lra.
Qed.

(** The example of the specification: fifty pixels a tick from 500, the
    chicken is at 950 after nine ticks and bounces at 985 on the tenth. *)
Lemma time_to_wall_witness :
  let c := mk (Vector.mk 500 350) (Vector.mk 180 0) (Vector.mk 0 0) 30 15 0 400 true in
  let dt := 50 / 180 in
  (forall i, (i <= 9)%nat ->
     Vector.x (pos (run (fall i dt (1000, 700)) c)) == flight_x c dt i /\
     ((i < 9)%nat -> (update (run (fall i dt (1000, 700)) c) dt (1000, 700)).1.1 = false)) /\
  let '((wall_hit, _), c') := update (run (fall 9 dt (1000, 700)) c) dt (1000, 700) in
  wall_hit = true /\ Vector.x (pos c') = 1000 - of_Z 15 /\
  Vector.x (velocity c') == - 180 /\ alive c' = true.
Proof.
  apply (time_to_wall 9 (50 / 180) 1000 700
           (mk (Vector.mk 500 350) (Vector.mk 180 0) (Vector.mk 0 0) 30 15 0 400 true)).
  - unfold level_flight. cbn. split_and!; try done; by vm_compute.
  - by vm_compute.
  - split; by vm_compute.
Defined.

End Exact.

End Chicken.
