(* ===== verification/Obstacles.v ===== *)
(** * Obstacles: the spike

    Models [src/widgets/obstacles.py], class [Spike]: a rectangle
    [(x, y, width, height)] fixed at creation and the side it points to.
    A rectangle is the 4-tuple [(left, bottom, width, height)] the methods
    exchange.  [get_triangle_points] returns the flat list of the six
    coordinates of the drawn triangle; [check_collision] is the overlap
    test of two axis-aligned rectangles with strict inequalities.

    The theorems are about the exact instance [NumQ]: the overlap test
    holds exactly when the interiors of the two rectangles share a point,
    rectangles that only touch do not collide, the test is symmetric, and
    the collision rectangle is the bounding box of the drawn triangle. *)

From stdpp Require Import base tactics list.
From Stdlib Require Import ZArith QArith Qabs Lqa Lia.
From S2P Require Import Prelude.

Module Spike.

#[local] Open Scope num_scope.

(** ** State and operations *)

Record t (R : Type) : Type := mk {
  x : R;
  y : R;
  width : R;
  height : R;
  pointing_right : bool
}.

Arguments mk {R}.
Arguments x {R}.
Arguments y {R}.
Arguments width {R}.
Arguments height {R}.
Arguments pointing_right {R}.

(** A rectangle [(left, bottom, width, height)]. *)
Definition rect (R : Type) : Type := (R * R * R * R)%type.

Section Operations.

Context {R : Type} `{Num R}.

(** [Spike.__init__(x, y, width, height, pointing_right)] *)
Definition init (x y width height : R) (pointing_right : bool) : t R :=
  {| x := x; y := y; width := width; height := height;
     pointing_right := pointing_right |}.

(** [Spike.get_collision_rect] *)
Definition get_collision_rect (s : t R) : rect R :=
  (x s, y s, width s, height s).

(** [Spike.get_triangle_points] *)
Definition get_triangle_points (s : t R) : list R :=
  if pointing_right s then
    [ x s; y s;
      x s; y s + height s;
      x s + width s; y s + height s / of_Z 2 ]
  else
    [ x s + width s; y s;
      x s + width s; y s + height s;
      x s; y s + height s / of_Z 2 ].

(** [Spike.check_collision(chicken_rect)] *)
Definition check_collision (s : t R) (chicken_rect : rect R) : bool :=
  let '(cx, cy, cw, ch) := chicken_rect in
  let '(sx, sy, sw, sh) := get_collision_rect s in
  (cx <? sx + sw) && (cx + cw >? sx) && (cy <? sy + sh) && (cy + ch >? sy).

(** The vertices of the triangle, as points. *)
Definition vertices (s : t R) : list (R * R) :=
  match get_triangle_points s with
  | [x1; y1; x2; y2; x3; y3] => [(x1, y1); (x2, y2); (x3, y3)]
  | _ => []
  end.

End Operations.

(** ** Predicates over the exact numbers *)

(** The point [(px, py)] is strictly inside the rectangle. *)
Definition inside (p : Q * Q) (r : rect Q) : Prop :=
  let '(rx, ry, rw, rh) := r in
  (rx < p.1 < rx + rw /\ ry < p.2 < ry + rh)%Q.

(** The point is in the rectangle, border included. *)
Definition within (p : Q * Q) (r : rect Q) : Prop :=
  let '(rx, ry, rw, rh) := r in
  (rx <= p.1 <= rx + rw /\ ry <= p.2 <= ry + rh)%Q.

(** The two rectangles share an interior point. *)
Definition overlap (r1 r2 : rect Q) : Prop :=
  exists p : Q * Q, inside p r1 /\ inside p r2.

(** The rectangle has a positive width and a positive height. *)
Definition proper_rect (r : rect Q) : Prop :=
  let '(_, _, rw, rh) := r in (0 < rw /\ 0 < rh)%Q.

(** ** Unfolding *)

Ltac spike_unfold :=
  unfold vertices, check_collision, get_collision_rect, get_triangle_points, init,
    inside, within, overlap, proper_rect in *;
  cbn [x y width height pointing_right fst snd] in *.

(** ** The overlap test *)

Section Exact.

#[local] Open Scope Q_scope.
Implicit Types (s : t Q) (r : rect Q).

Lemma check_collision_true s (cx cy cw ch : Q) :
  check_collision s (cx, cy, cw, ch) = true <->
  cx < x s + width s /\ x s < cx + cw /\ cy < y s + height s /\ y s < cy + ch.
Proof.
  spike_unfold. rewrite !andb_true_iff. q_unfold.
  repeat match goal with |- context [Qltb ?a ?b] => destruct (Qltb_reflect a b) end;
    intuition (try done; lra).
Qed.

(** The midpoint of the common part of two intervals that overlap. *)
Lemma interval_overlap (a la b lb : Q) :
  a < b + lb -> b < a + la -> 0 < la -> 0 < lb ->
  exists p, a < p < a + la /\ b < p < b + lb.
Proof.
  intros H1 H2 H3 H4.
  destruct (Qlt_le_dec a b) as [Hab | Hab], (Qlt_le_dec (a + la) (b + lb)) as [Hend | Hend].
  - exists ((b + (a + la)) * (1 # 2)). lra.
  - exists ((b + (b + lb)) * (1 # 2)). lra.
  - exists ((a + (a + la)) * (1 # 2)). lra.
  - exists ((a + (b + lb)) * (1 # 2)). lra.
Qed.

(** C7. [check_collision] is the overlap test of two open rectangles: for
    rectangles of positive width and height it returns true exactly when
    some point lies strictly inside both the chicken's rectangle and the
    spike's. *)
Theorem check_collision_overlap s r :
  proper_rect r -> proper_rect (get_collision_rect s) ->
  (check_collision s r = true <-> overlap r (get_collision_rect s)).
Proof.
  destruct r as [[[cx cy] cw] ch]. intros [Hcw Hch] [Hsw Hsh].
  rewrite check_collision_true. cbn [get_collision_rect x y width height] in *.
  split.
  - intros (H1 & H2 & H3 & H4).
    destruct (interval_overlap cx cw (x s) (width s)) as (px & Hpx); try done.
    destruct (interval_overlap cy ch (y s) (height s)) as (py & Hpy); try done.
    exists (px, py). spike_unfold. lra.
  - intros ([px py] & Hc & Hs). spike_unfold. lra.
Qed.

Lemma check_collision_overlap_witness :
  check_collision (init 0 70 40 33 true) (30, 60, 30, 30) = true <->
  overlap (30, 60, 30, 30) (get_collision_rect (init 0 70 40 33 true)).
Proof.
  apply (check_collision_overlap (init 0 70 40 33 true) (30, 60, 30, 30));
    split; reflexivity.
Defined.

(** Rectangles that are apart on an axis do not collide. *)
Lemma check_collision_separated s (cx cy cw ch : Q) :
  x s + width s <= cx \/ cx + cw <= x s \/
  y s + height s <= cy \/ cy + ch <= y s ->
  check_collision s (cx, cy, cw, ch) = false.
Proof.
  intros Hsep. apply not_true_is_false. rewrite check_collision_true. lra.
Qed.

(** C32. Rectangles that only touch do not collide, and nothing else
    prevents a collision: [check_collision] returns false exactly when, on
    one of the two axes, an edge of the chicken's rectangle lies on the
    line of the facing edge of the spike's rectangle or beyond it. *)
Theorem touching_is_not_collision s (cx cy cw ch : Q) :
  check_collision s (cx, cy, cw, ch) = false <->
  x s + width s <= cx \/ cx + cw <= x s \/
  y s + height s <= cy \/ cy + ch <= y s.
Proof.
  split; [| apply check_collision_separated].
  intros Hfalse%not_true_iff_false. rewrite check_collision_true in Hfalse.
  destruct (Qlt_le_dec cx (x s + width s)), (Qlt_le_dec (x s) (cx + cw)),
    (Qlt_le_dec cy (y s + height s)), (Qlt_le_dec (y s) (cy + ch)); tauto.
Qed.

Lemma touching_is_not_collision_witness :
  check_collision (init 0 70 40 33 true) (40, 60, 30, 30) = false.
Proof.
  apply (touching_is_not_collision (init 0 70 40 33 true) 40 60 30 30).
  left. by vm_compute.
Defined.

(** The test does not depend on which of the two rectangles is the
    spike's. *)
Lemma check_collision_sym s s' :
  check_collision s (get_collision_rect s') = check_collision s' (get_collision_rect s).
Proof.
  apply eq_true_iff_eq. unfold get_collision_rect.
  rewrite !check_collision_true. lra.
Qed.

(** ** The drawn triangle *)

(** C40. The collision rectangle of a spike is the bounding box of the
    triangle that is drawn for it: the three vertices lie in the rectangle,
    two of them are the corners of the side on the wall and the third is
    the middle of the opposite side (the right side for a spike pointing
    right, the left side otherwise). *)
Theorem triangle_in_collision_rect s :
  0 <= width s -> 0 <= height s ->
  Forall (fun p => within p (get_collision_rect s)) (vertices s) /\
  exists base tip,
    (base = if pointing_right s then x s else x s + width s) /\
    (tip = if pointing_right s then x s + width s else x s) /\
    vertices s = [(base, y s); (base, y s + height s); (tip, y s + height s / 2)].
Proof.
  intros Hw Hh. pose proof (Qhalf_bounds (height s) Hh) as Hhalf. split.
  - spike_unfold. destruct (pointing_right s); repeat constructor; q_unfold;
      cbn [fst snd]; lra.
  - eexists _, _. split; [done |]. split; [done |].
    spike_unfold. by destruct (pointing_right s).
Qed.

Lemma triangle_in_collision_rect_witness :
  Forall (fun p => within p (get_collision_rect (init 960 70 40 33 false)))
    (vertices (init 960 70 40 33 false)) /\
  exists base tip,
    (base = 960 + 40) /\ (tip = 960) /\
    vertices (init 960 70 40 33 false) = [(base, 70); (base, 70 + 33); (tip, 70 + 33 / 2)].
Proof.
  apply (triangle_in_collision_rect (init 960 70 40 33 false)); by vm_compute.
Defined.

End Exact.

End Spike.
