(* ===== verification/ObstaclesManager.v ===== *)
(** * ObstaclesManager: the two columns of spikes

    Models [src/widgets/obstacles_manager.py], class [SpikeGenerator].

    [random.random()] reads a global generator.  It is modelled by
    [Random.t]: an infinite tape of numbers and a cursor; a call returns the
    number under the cursor and advances it.  The methods that draw random
    numbers are computations of the state monad over [Random.t].  Nothing
    is assumed about the tape except where a statement says so.

    [self.spikes] is a list of two lists of spikes, the column of the left
    wall first.  [self.spikes[i] = column] is stdpp's list insertion; it is
    a no-op out of range where Python raises [IndexError], and the invariant
    [wf] (two columns) shows the index is always in range.

    The loop of [_generate_spike_column] runs over [range(num_spikes)], the
    list [seqZ 0 num_spikes]; the nested loops of [check_collisions], which
    return at the first hit, are the two recursive searches [any_spike] and
    [any_column]. *)

From stdpp Require Import base tactics list sorting.
From Stdlib Require Import ZArith QArith Qround Qabs Qminmax Lqa Lia.
From S2P Require Import Prelude Character Obstacles.

(** ** The random generator *)

Module Random.

Record t (R : Type) : Type := mk {
  tape : nat -> R;
  cursor : nat
}.

Arguments mk {R}.
Arguments tape {R}.
Arguments cursor {R}.

(** [random.random()] *)
Definition random {R} : State (t R) R :=
  fun g => (tape g (cursor g), mk (tape g) (S (cursor g))).

(** The generator after [n] further draws. *)
Definition advance {R} (n : nat) (g : t R) : t R :=
  mk (tape g) (n + cursor g).

(** The next [n] numbers the generator will return. *)
Definition upcoming {R} (n : nat) (g : t R) : list R :=
  map (fun i => tape g (i + cursor g)%nat) (seq 0 n).

(** A tape for the examples: the numbers [0.37 * i mod 1]. *)
Definition sample_tape (i : nat) : Q := (Z.of_nat (i * 37 mod 100) # 100)%Q.

(** The generator the examples start from. *)
Definition sample : t Q := mk sample_tape 0.

End Random.

Module SpikeGenerator.

#[local] Open Scope num_scope.

(** ** State *)

Record t (R : Type) : Type := mk {
  screen_width : R;
  screen_height : R;
  spikes : list (list (Spike.t R));
  spike_width : Z;
  wall_thickness : Z
}.

Arguments mk {R}.
Arguments screen_width {R}.
Arguments screen_height {R}.
Arguments spikes {R}.
Arguments spike_width {R}.
Arguments wall_thickness {R}.

Section Operations.

Context {R : Type} `{Num R}.

Definition set_spikes (sg : t R) (l : list (list (Spike.t R))) : t R :=
  mk (screen_width sg) (screen_height sg) l (spike_width sg) (wall_thickness sg).

(** The local [spike_height] of [_generate_spike_column]. *)
Definition spike_height : Z := 35.

(** [num_spikes = int(self.screen_height // spike_height)] *)
Definition num_spikes (sg : t R) : Z :=
  nfloordiv (screen_height sg) (of_Z spike_height).

(** The spike the loop body builds for row [i]. *)
Definition spike_at (sg : t R) (x : R) (pointing_right : bool) (i : Z) : Spike.t R :=
  Spike.init x (of_Z (i * spike_height))
    (of_Z (wall_thickness sg)) (of_Z (spike_height - 2)) pointing_right.

(** The loop of [_generate_spike_column] over the rows that remain. *)
Fixpoint column_loop (sg : t R) (x : R) (pointing_right : bool) (gap_probability : R)
    (rows : list Z) : State (Random.t R) (list (Spike.t R)) :=
  match rows with
  | [] => mret []
  | i :: rows' =>
      r ← Random.random;
      rest ← column_loop sg x pointing_right gap_probability rows';
      mret (if r >? gap_probability
            then spike_at sg x pointing_right i :: rest
            else rest)
  end.

(** [SpikeGenerator._generate_spike_column(x, pointing_right, gap_probability)] *)
Definition _generate_spike_column (sg : t R) (x : R) (pointing_right : bool)
    (gap_probability : R) : State (Random.t R) (list (Spike.t R)) :=
  column_loop sg x pointing_right gap_probability (seqZ 0 (num_spikes sg)).

(** The default of the parameter [gap_probability]. *)
Definition default_gap_probability : R := dec 8 10.

(** The abscissa of the spikes of the right wall. *)
Definition right_x (sg : t R) : R := screen_width sg - of_Z (wall_thickness sg).

(** [SpikeGenerator.generate_initial_spikes] *)
Definition generate_initial_spikes (sg : t R) : State (Random.t R) (t R) :=
  let sg := set_spikes sg [] in
  left_column ← _generate_spike_column sg (of_Z 0) true default_gap_probability;
  let sg := set_spikes sg (spikes sg ++ [left_column]) in
  right_column ← _generate_spike_column sg (right_x sg) false default_gap_probability;
  mret (set_spikes sg (spikes sg ++ [right_column])).

(** [SpikeGenerator.__init__(screen_width, screen_height)] *)
Definition init (screen_width screen_height : R) : State (Random.t R) (t R) :=
  generate_initial_spikes
    {| screen_width := screen_width;
       screen_height := screen_height;
       spikes := [[]; []];
       spike_width := 40;
       wall_thickness := 40 |}.

(** [gap_probability = max(0.5, 0.8 - (difficulty_level * 0.05))] *)
Definition gap_probability (difficulty_level : Z) : R :=
  nmax (dec 5 10) (dec 8 10 - of_Z difficulty_level * dec 5 100).

(** [SpikeGenerator.regenerate_spikes(coords, difficulty_level)] *)
Definition regenerate_spikes (sg : t R) (coords : R * R) (difficulty_level : Z) :
    State (Random.t R) (t R) :=
  let gap := gap_probability difficulty_level in
  let '(x, _) := coords in
  if x >? screen_width sg / of_Z 2 then
    column ← _generate_spike_column sg (of_Z 0) true gap;
    mret (set_spikes sg (<[0%nat := column]> (spikes sg)))
  else
    column ← _generate_spike_column sg (right_x sg) false gap;
    mret (set_spikes sg (<[1%nat := column]> (spikes sg))).

(** The inner loop of [check_collisions]. *)
Fixpoint any_spike (chicken_rect : Spike.rect R) (column : list (Spike.t R)) : bool :=
  match column with
  | [] => false
  | spike :: column' =>
      if Spike.check_collision spike chicken_rect then true
      else any_spike chicken_rect column'
  end.

(** The outer loop of [check_collisions]. *)
Fixpoint any_column (chicken_rect : Spike.rect R) (columns : list (list (Spike.t R))) : bool :=
  match columns with
  | [] => false
  | column :: columns' =>
      if any_spike chicken_rect column then true
      else any_column chicken_rect columns'
  end.

(** [SpikeGenerator.check_collisions(chicken)] *)
Definition check_collisions (sg : t R) (chicken : Chicken.t R) : bool :=
  let chicken_rect := Chicken.get_rect chicken in
  any_column chicken_rect (spikes sg).

(** The rows of a column that get a spike, as a function of the draws: the
    reference [_generate_spike_column] is compared with. *)
Definition spiked_rows (gap_probability : R) (draws : list R) (rows : list Z) : list Z :=
  map snd (filter (fun p => nltb gap_probability p.1) (zip draws rows)).

(** A column as [_generate_spike_column] may build it for the wall at [x]:
    its spikes are those of some rows of the screen, in increasing order
    of the rows. *)
Definition column_of (sg : t R) (x : R) (pointing_right : bool)
    (column : list (Spike.t R)) : Prop :=
  exists rows : list Z,
    column = map (spike_at sg x pointing_right) rows /\
    Forall (fun i => 0 <= i < num_spikes sg)%Z rows /\
    StronglySorted Z.lt rows.

(** The invariant of the generator: exactly two columns, the left one at
    [x = 0] pointing right and the right one at
    [x = screen_width - wall_thickness] pointing left. *)
Definition wf (sg : t R) : Prop :=
  exists left_column right_column,
    spikes sg = [left_column; right_column] /\
    column_of sg (of_Z 0) true left_column /\
    column_of sg (right_x sg) false right_column.

End Operations.

(** ** Unfolding *)

Ltac rng_unfold := state_unfold; unfold Random.random in *.

(** ** The generator, for any numbers *)

Section Generic.

Context {R : Type} `{Num R}.
Implicit Types (sg : t R) (g : Random.t R) (x gap : R) (rows : list Z).

Lemma upcoming_S (n : nat) g :
  Random.upcoming (S n) g =
    Random.tape g (Random.cursor g) :: Random.upcoming n (Random.advance 1 g).
Proof.
  unfold Random.upcoming. cbn [seq map]. f_equal.
  rewrite <- seq_shift, map_map. apply map_ext. intros i. cbn. f_equal. lia.
Qed.

Lemma advance_S (n : nat) g :
  Random.advance (S n) g = Random.advance n (Random.advance 1 g).
Proof. unfold Random.advance. cbn. f_equal. lia. Qed.

Lemma spiked_rows_cons gap (r : R) (draws : list R) (i : Z) rows :
  spiked_rows gap (r :: draws) (i :: rows) =
    if nltb gap r then i :: spiked_rows gap draws rows else spiked_rows gap draws rows.
Proof.
  unfold spiked_rows. cbn [zip zip_with]. rewrite filter_cons. cbn [fst].
  destruct (nltb gap r); by repeat case_decide.
Qed.

Lemma column_loop_spec sg x (pr : bool) gap rows g :
  column_loop sg x pr gap rows g =
    (map (spike_at sg x pr) (spiked_rows gap (Random.upcoming (length rows) g) rows),
     Random.advance (length rows) g).
Proof.
  revert g. induction rows as [| i rows IH]; intros g.
  - destruct g; reflexivity.
  - cbn [column_loop length]. rng_unfold.
    rewrite upcoming_S, (advance_S (length rows)), spiked_rows_cons.
    change (Random.mk (Random.tape g) (S (Random.cursor g))) with (Random.advance 1 g).
    rewrite IH. by destruct (nltb gap _).
Qed.

Lemma generate_spike_column_eq sg x (pr : bool) gap g :
  _generate_spike_column sg x pr gap g =
    (map (spike_at sg x pr)
       (spiked_rows gap (Random.upcoming (Z.to_nat (num_spikes sg)) g)
          (seqZ 0 (num_spikes sg))),
     Random.advance (Z.to_nat (num_spikes sg)) g).
Proof.
  unfold _generate_spike_column. rewrite column_loop_spec. by rewrite length_seqZ.
Qed.

Lemma spiked_rows_sublist gap (draws : list R) rows :
  sublist (spiked_rows gap draws rows) rows.
Proof.
  revert rows. induction draws as [| r draws IH]; intros [| i rows];
    try (by apply sublist_nil_l).
  rewrite spiked_rows_cons. destruct (nltb gap r); by constructor.
Qed.

Lemma generate_spike_column_of sg x (pr : bool) gap g :
  column_of sg x pr (_generate_spike_column sg x pr gap g).1.
Proof.
  rewrite generate_spike_column_eq. cbn [fst]. eexists. split; [done |].
  split.
  - eapply sublist_Forall; [apply spiked_rows_sublist |].
    apply Forall_seqZ. lia.
  - eapply sublist_StronglySorted; [apply spiked_rows_sublist |].
    apply seqZ_StronglySorted.
Qed.

(** C23. [_generate_spike_column] draws exactly one random number per row
    of the screen, [num_spikes] in all, and returns the spikes of the rows
    whose draw is greater than [gap_probability], in the order of the rows;
    row [i] is the spike at height [i * 35], [33] high and as wide as the
    wall is thick.  The column therefore holds at most one spike per row,
    in increasing order of the rows, and only rows of the screen. *)
Theorem generate_spike_column_spec sg x (pr : bool) gap g :
  let n := Z.to_nat (num_spikes sg) in
  let '(column, g') := _generate_spike_column sg x pr gap g in
  column = map (spike_at sg x pr)
             (spiked_rows gap (Random.upcoming n g) (seqZ 0 (num_spikes sg))) /\
  g' = Random.advance n g /\
  column_of sg x pr column.
Proof.
  pose proof (generate_spike_column_of sg x pr gap g) as Hof.
  rewrite generate_spike_column_eq in *. done.
Qed.

Lemma column_of_set_spikes sg l x (pr : bool) column :
  column_of (set_spikes sg l) x pr column <-> column_of sg x pr column.
Proof. done. Qed.

Lemma wf_intro sg left_column right_column :
  spikes sg = [left_column; right_column] ->
  column_of sg (of_Z 0) true left_column ->
  column_of sg (right_x sg) false right_column ->
  wf sg.
Proof. intros. by exists left_column, right_column. Qed.

Lemma init_props (w h : R) g :
  wf (init w h g).1 /\
  screen_width (init w h g).1 = w /\ screen_height (init w h g).1 = h /\
  wall_thickness (init w h g).1 = 40%Z /\
  (init w h g).2 = Random.advance (2 * Z.to_nat (num_spikes (init w h g).1)) g.
Proof.
  unfold init, generate_initial_spikes. state_unfold.
  set (sg0 := set_spikes _ []).
  pose proof (generate_spike_column_of sg0 (of_Z 0) true default_gap_probability g) as Hl.
  rewrite (generate_spike_column_eq sg0) in *. cbn [fst] in Hl.
  set (g1 := Random.advance _ g) in *.
  set (sg1 := set_spikes sg0 _).
  pose proof (generate_spike_column_of sg1 (right_x sg1) false default_gap_probability g1) as Hr.
  rewrite (generate_spike_column_eq sg1) in *. cbn [fst snd] in *.
  split; [by eapply wf_intro |]. repeat split.
  unfold g1, Random.advance, num_spikes. cbn. f_equal. lia.
Qed.

Lemma generator_init_wf (w h : R) g : wf (init w h g).1.
Proof. apply init_props. Qed.

(** C24. A new generator has exactly two columns, the left one at [x = 0]
    with spikes pointing right and the right one at
    [x = screen_width - wall_thickness] with spikes pointing left, each
    made of spikes of distinct rows of the screen in increasing order;
    the walls are [40] thick and building the generator draws
    [2 * num_spikes] random numbers. *)
Theorem init_spec (w h : R) g :
  let '(sg, g') := init w h g in
  wf sg /\
  screen_width sg = w /\ screen_height sg = h /\ wall_thickness sg = 40%Z /\
  g' = Random.advance (2 * Z.to_nat (num_spikes sg)) g.
Proof.
  pose proof (init_props w h g) as Hinit. by destruct (init w h g).
Qed.

(** C6. [regenerate_spikes] replaces exactly one column and leaves the
    other as it was: the left column when the given abscissa is greater
    than half the screen width, the right column otherwise.  The new
    column is generated with [gap_probability(difficulty_level)] from the
    next [num_spikes] random numbers. *)
Theorem regenerate_spikes_spec sg (x y : R) (d : Z) g left_column right_column :
  spikes sg = [left_column; right_column] ->
  let n := Z.to_nat (num_spikes sg) in
  let rows := spiked_rows (gap_probability d) (Random.upcoming n g) (seqZ 0 (num_spikes sg)) in
  regenerate_spikes sg (x, y) d g =
    (set_spikes sg
       (if nltb (screen_width sg / of_Z 2) x
        then [map (spike_at sg (of_Z 0) true) rows; right_column]
        else [left_column; map (spike_at sg (right_x sg) false) rows]),
     Random.advance n g).
Proof.
  intros Hs. unfold regenerate_spikes. state_unfold.
  destruct (nltb _ x); rewrite generate_spike_column_eq, Hs; reflexivity.
Qed.

Lemma regenerate_spikes_wf sg (coords : R * R) (d : Z) g :
  wf sg -> wf (regenerate_spikes sg coords d g).1.
Proof.
  intros (l & r & Hs & Hl & Hr). destruct coords as [x y].
  unfold regenerate_spikes. state_unfold. rewrite Hs.
  destruct (nltb _ x);
    [pose proof (generate_spike_column_of sg (of_Z 0) true (gap_probability d) g) as Hc
    |pose proof (generate_spike_column_of sg (right_x sg) false (gap_probability d) g) as Hc];
    destruct (_generate_spike_column _ _ _ _ g) as [column g'];
    (eapply wf_intro; [reflexivity | done..]).
Qed.

Lemma regenerate_spikes_screen sg (coords : R * R) (d : Z) g :
  let sg' := (regenerate_spikes sg coords d g).1 in
  screen_width sg' = screen_width sg /\ screen_height sg' = screen_height sg /\
  wall_thickness sg' = wall_thickness sg.
Proof.
  unfold regenerate_spikes. state_unfold. destruct coords as [x y].
  destruct (nltb _ x); by destruct (_generate_spike_column _ _ _ _ g).
Qed.

(** ** The search for a collision *)

Lemma any_spike_existsb (rect : Spike.rect R) (column : list (Spike.t R)) :
  any_spike rect column = existsb (fun s => Spike.check_collision s rect) column.
Proof. induction column as [| s column IH]; [done |]. cbn. by rewrite IH. Qed.

Lemma any_column_existsb (rect : Spike.rect R) (columns : list (list (Spike.t R))) :
  any_column rect columns = existsb (fun s => Spike.check_collision s rect) (concat columns).
Proof.
  induction columns as [| column columns IH]; [done |].
  cbn [any_column concat]. by rewrite existsb_app, any_spike_existsb, IH.
Qed.

(** C9. [check_collisions] returns true exactly when some spike of some
    column collides with the rectangle of the chicken; leaving the loops
    at the first hit changes nothing of the result, which is that of
    testing every spike of every column. *)
Theorem check_collisions_spec sg (chicken : Chicken.t R) :
  check_collisions sg chicken =
    existsb (fun s => Spike.check_collision s (Chicken.get_rect chicken))
      (concat (spikes sg)) /\
  (check_collisions sg chicken = true <->
   exists column s, column ∈ spikes sg /\ s ∈ column /\
     Spike.check_collision s (Chicken.get_rect chicken) = true).
Proof.
  unfold check_collisions. rewrite any_column_existsb. split; [done |].
  rewrite existsb_true. setoid_rewrite elem_of_concat.
  split; [intros (s & (l & ? & ?) & ?) | intros (l & s & ? & ? & ?)]; eauto 6.
Qed.

Lemma column_of_elem sg x (pr : bool) column (s : Spike.t R) :
  column_of sg x pr column -> s ∈ column ->
  exists i, (0 <= i < num_spikes sg)%Z /\ s = spike_at sg x pr i.
Proof.
  intros (rows & -> & Hrange & _) (i & -> & Hi)%list_elem_of_fmap.
  exists i. split; [| done]. by eapply Forall_forall in Hrange.
Qed.

Lemma wf_elem sg (s : Spike.t R) :
  wf sg -> s ∈ concat (spikes sg) ->
  exists i, (0 <= i < num_spikes sg)%Z /\
    (s = spike_at sg (of_Z 0) true i \/ s = spike_at sg (right_x sg) false i).
Proof.
  intros (l & r & -> & Hl & Hr). cbn [concat]. rewrite app_nil_r, elem_of_app.
  intros [Hs | Hs]; [apply (column_of_elem _ _ _ _ _ Hl) in Hs
                    | apply (column_of_elem _ _ _ _ _ Hr) in Hs];
    destruct Hs as (i & Hi & ->); eauto.
Qed.

End Generic.

(** ** The generator over the exact numbers *)

Section Exact.

#[local] Open Scope Q_scope.
Implicit Types (sg : t Q) (g : Random.t Q) (c : Chicken.t Q) (d : Z).

Lemma regenerate_spikes_spec_witness :
  let g := Random.sample in
  let sg := (init 1000 700 g).1 in
  exists column,
    spikes (regenerate_spikes sg (985, 350) 1 (init 1000 700 g).2 ).1 =
      [column; nth 1 (spikes sg) []].
Proof.
  intros g sg. eexists.
  rewrite (regenerate_spikes_spec sg 985 350 1 _ (nth 0 (spikes sg) []) (nth 1 (spikes sg) []));
    [| by vm_compute].
  reflexivity.
Defined.

Lemma gap_probability_eq d :
  gap_probability d == Qmax (1 # 2) ((4 # 5) - inject_Z d * (1 # 20)).
Proof.
  unfold gap_probability. q_unfold.
  destruct (Qltb_reflect (5 # 10) ((8 # 10) - inject_Z d * (5 # 100)));
    [rewrite Q.max_r | rewrite Q.max_l]; lra.
Qed.

(** C25. The gap probability [regenerate_spikes] uses is
    [max(0.5, 0.8 - 0.05 * difficulty_level)]: it is [0.75] at level 1,
    decreases by [0.05] per level down to [0.5] at level 6, and stays at
    [0.5] for every higher level; it is never below [0.5]. *)
Theorem gap_probability_spec d :
  (1 <= d)%Z ->
  1 # 2 <= gap_probability d <= 3 # 4 /\
  ((d <= 6)%Z -> gap_probability d == (4 # 5) - inject_Z d * (1 # 20)) /\
  ((6 <= d)%Z -> gap_probability d == 1 # 2).
Proof.
  intros Hd%inject_Z_le. rewrite gap_probability_eq.
  repeat split.
  - apply Q.le_max_l.
  - q_consts. apply Q.max_lub; lra.
  - intros Hd6%inject_Z_le. q_consts. apply Q.max_r. lra.
  - intros Hd6%inject_Z_le. q_consts. apply Q.max_l. lra.
Qed.

Lemma gap_probability_spec_witness :
  1 # 2 <= gap_probability 1 <= 3 # 4 /\
  ((1 <= 6)%Z -> gap_probability 1 == (4 # 5) - inject_Z 1 * (1 # 20)) /\
  ((6 <= 1)%Z -> gap_probability 1 == 1 # 2).
Proof. apply (gap_probability_spec 1). lia. Defined.




(** ** The geometry of the columns *)

Lemma spike_at_rect sg (x : Q) (pr : bool) (i : Z) :
  Spike.get_collision_rect (spike_at sg x pr i) =
    (x, inject_Z (i * 35), inject_Z (wall_thickness sg), 33).
Proof. done. Qed.

Lemma row_in_screen sg (i : Z) :
  (0 <= i < num_spikes sg)%Z ->
  0 <= inject_Z (i * 35) /\ inject_Z (i * 35) + 33 <= screen_height sg - 2.
Proof.
  intros [Hlo Hhi]. unfold num_spikes in Hhi. q_unfold.
  destruct (Qfloordiv_bounds (screen_height sg) spike_height) as [Hn _]; [done |].
  set (n := Qfloordiv _ _) in *.
  assert (Hi : (i * 35 + 35 <= n * 35)%Z) by lia.
  apply inject_Z_le in Hi, Hlo. rewrite inject_Z_plus, !inject_Z_mult in Hi.
  rewrite inject_Z_mult. unfold spike_height in Hn. q_consts. lra.
Qed.

(** C34. Every spike of a generator that satisfies its invariant lies on
    the screen and on a wall: it occupies the rows [[35 i, 35 i + 33]] of
    some row [i] below [screen_height], and the strip of the left wall,
    [[0, wall_thickness]], or of the right wall,
    [[screen_width - wall_thickness, screen_width]]. *)
Theorem spikes_on_walls sg (s : Spike.t Q) :
  wf sg -> s ∈ concat (spikes sg) ->
  0 <= Spike.y s /\ Spike.y s + Spike.height s <= screen_height sg - 2 /\
  Spike.height s = 33 /\ Spike.width s = inject_Z (wall_thickness sg) /\
  ((Spike.x s = 0 /\ Spike.pointing_right s = true) \/
   (Spike.x s = screen_width sg - inject_Z (wall_thickness sg) /\
    Spike.pointing_right s = false)).
Proof.
  intros Hwf Hs. destruct (wf_elem sg s Hwf Hs) as (i & Hi & Hsi).
  destruct (row_in_screen sg i Hi) as [Hy1 Hy2].
  destruct Hsi as [-> | ->]; cbn; repeat split; auto.
Qed.

Lemma spikes_on_walls_witness :
  let sg := (init 1000 700 Random.sample).1 in
  let s := nth 0 (concat (spikes sg)) (Spike.init 0 0 0 0 true) in
  0 <= Spike.y s /\ Spike.y s + Spike.height s <= screen_height sg - 2 /\
  Spike.height s = 33 /\ Spike.width s = inject_Z (wall_thickness sg) /\
  ((Spike.x s = 0 /\ Spike.pointing_right s = true) \/
   (Spike.x s = screen_width sg - inject_Z (wall_thickness sg) /\
    Spike.pointing_right s = false)).
Proof.
  intros sg s. apply (spikes_on_walls sg s).
  - apply generator_init_wf.
  - apply list_elem_of_In. by vm_compute; left.
Defined.

(** C33. Away from the walls there is nothing to collide with: when the
    rectangle of the chicken lies between the two wall strips,
    [wall_thickness <= left] and [right <= screen_width - wall_thickness],
    [check_collisions] returns false whatever the columns hold. *)
Theorem no_collision_between_walls sg c :
  wf sg ->
  inject_Z (wall_thickness sg) <= Vector.x (Chicken.pos c) - inject_Z (Chicken.radius c) ->
  Vector.x (Chicken.pos c) - inject_Z (Chicken.radius c) + inject_Z (Chicken.size c)
    <= screen_width sg - inject_Z (wall_thickness sg) ->
  check_collisions sg c = false.
Proof.
  intros Hwf Hleft Hright. unfold check_collisions.
  rewrite any_column_existsb. apply existsb_false.
  intros s Hs. destruct (wf_elem sg s Hwf Hs) as (i & _ & Hsi).
  apply Spike.check_collision_separated.
  destruct Hsi as [-> | ->]; cbn [spike_at Spike.init Spike.x Spike.width];
    unfold right_x; q_unfold; lra.
Qed.

Lemma no_collision_between_walls_witness :
  check_collisions (init 1000 700 Random.sample).1
    (Chicken.init 500 350 Chicken.default_size) = false.
Proof.
  apply no_collision_between_walls; [apply generator_init_wf | by vm_compute..].
Defined.

(** Two different spikes of a column do not overlap. *)
Lemma column_spikes_disjoint sg (x : Q) (pr : bool) column (s1 s2 : Spike.t Q) :
  column_of sg x pr column -> s1 ∈ column -> s2 ∈ column -> s1 <> s2 ->
  Spike.check_collision s1 (Spike.get_collision_rect s2) = false.
Proof.
  intros Hcol (i & _ & ->)%(column_of_elem _ _ _ _ _ Hcol)
    (j & _ & ->)%(column_of_elem _ _ _ _ _ Hcol) Hne.
  rewrite spike_at_rect. apply Spike.check_collision_separated. cbn.
  assert (Hij : (i * 35 + 35 <= j * 35 \/ j * 35 + 35 <= i * 35)%Z).
  { destruct (decide (i = j)) as [-> | Hij]; [done | lia]. }
  change (inject_Z (spike_height - 2)) with 33. unfold spike_height.
  destruct Hij as [Hij%inject_Z_le | Hij%inject_Z_le];
    rewrite inject_Z_plus in Hij; q_consts; lra.
Qed.


End Exact.

End SpikeGenerator.
