(* ===== verification/GameManager.v ===== *)
(** * GameManager: the game loop and the input handlers

    Models the game logic of [src/widgets/game_manager.py], class
    [GameManager]: the attributes [__init__] creates, the callbacks Kivy
    invokes ([initialize_game], [on_size_change], [on_key_down],
    [on_touch_down], [update]) and the methods they call ([reset_game],
    [update_score_display], [clear_overlays], [update_pause_menu],
    [show_pause_menu], [show_game_over]).

    State.  The record [t] holds the attributes of the widget the logic
    reads or writes: its size ([width], [height], set by Kivy), the chicken
    and the spike generator ([None] until the first successful
    [reset_game]), the score manager, the flags [game_over] and [paused],
    the two integers [current_score] and [best_score] that [__init__] sets
    and nothing ever reads, the score label and the two overlays.  A label
    is the record of the attributes the code gives it; [center_x] and
    [top], which the code assigns, are Kivy's properties over the position
    and the size.  An overlay is a layout with its size, the instructions
    of its canvas and its labels.  The canvas and the children of the
    widget itself, which [draw_game], [add_widget] and [remove_widget]
    change and nothing reads, are the subject of [Rendering].

    Effects.  [reset_game] and [update] draw random numbers through the
    spike generator, so the handlers that reach them are computations of
    the state monad over [Random.t].  A [world] is a widget together with
    the random generator; [step] applies one event to it, and [run] a
    sequence of events.  The handlers return what the callbacks return
    ([True] for the two input callbacks) with the state after the call.

    Python's truth test of an attribute that holds an object or [None]
    ([if self.chicken], [if self.pause_layout]) is [truthy]. *)

From stdpp Require Import base tactics option list strings.
From Stdlib Require Import ZArith QArith Qabs Lqa Lia.
From S2P Require Import Prelude ScoreManager Character Obstacles ObstaclesManager.

(** ** The Kivy objects the widget creates *)

(** [kivy.graphics]: the instructions the code adds to a canvas, with the
    arguments it gives; [Line] is given either [points] or [rectangle]. *)
Module Canvas.

Inductive instruction (R : Type) : Type :=
| Color (rgba : list R)
| Rectangle (pos size : R * R)
| Ellipse (pos size : R * R)
| Triangle (points : list R)
| Line (points : list R) (width : R)
| LineRectangle (rectangle : R * R * R * R) (width : R).

Arguments Color {R}.
Arguments Rectangle {R}.
Arguments Ellipse {R}.
Arguments Triangle {R}.
Arguments Line {R}.
Arguments LineRectangle {R}.

Definition is_triangle {R} (i : instruction R) : bool :=
  match i with Triangle _ => true | _ => false end.

End Canvas.

(** [kivy.uix.label.Label]: the attributes the code gives to the
    constructor or assigns; an attribute the code leaves to Kivy is
    [None]. *)
Module Label.

Record t (R : Type) : Type := mk {
  text : string;
  font_size : string;
  color : list R;
  pos : R * R;
  size : R * R;
  size_hint : option (option R * option R);
  halign : option string;
  valign : option string;
  text_size : option (R * R)
}.

Arguments mk {R}.
Arguments text {R}.
Arguments font_size {R}.
Arguments color {R}.
Arguments pos {R}.
Arguments size {R}.
Arguments size_hint {R}.
Arguments halign {R}.
Arguments valign {R}.
Arguments text_size {R}.

Section Operations.

Context {R : Type} `{Num R}.

#[local] Open Scope num_scope.

(** [label.text = s] *)
Definition set_text (l : t R) (s : string) : t R :=
  mk s (font_size l) (color l) (pos l) (size l) (size_hint l) (halign l) (valign l)
     (text_size l).

Definition set_pos (l : t R) (p : R * R) : t R :=
  mk (text l) (font_size l) (color l) p (size l) (size_hint l) (halign l) (valign l)
     (text_size l).

(** [label.text_size = v] *)
Definition set_text_size (l : t R) (v : R * R) : t R :=
  mk (text l) (font_size l) (color l) (pos l) (size l) (size_hint l) (halign l) (valign l)
     (Some v).

(** The properties [center_x] and [top] of a widget: [x + width / 2] and
    [y + height]; assigning one moves the widget. *)
Definition center_x (l : t R) : R := (pos l).1 + (size l).1 / of_Z 2.

Definition top (l : t R) : R := (pos l).2 + (size l).2.

Definition set_center_x (l : t R) (v : R) : t R :=
  set_pos l (v - (size l).1 / of_Z 2, (pos l).2).

Definition set_top (l : t R) (v : R) : t R :=
  set_pos l ((pos l).1, v - (size l).2).

End Operations.

End Label.

(** [kivy.uix.floatlayout.FloatLayout], as the overlays use it: the size
    it is created with, the instructions added to its canvas and the
    labels added to it, the last one first. *)
Module Layout.

Record t (R : Type) : Type := mk {
  size : R * R;
  canvas : list (Canvas.instruction R);
  children : list (Label.t R)
}.

Arguments mk {R}.
Arguments size {R}.
Arguments canvas {R}.
Arguments children {R}.

(** [layout.add_widget(label)] *)
Definition add_widget {R} (l : t R) (w : Label.t R) : t R :=
  mk (size l) (canvas l) (w :: children l).

(** The texts of the labels, in the order in which they were added. *)
Definition texts {R} (l : t R) : list string := reverse (Label.text <$> children l).

End Layout.

Module GameManager.

#[local] Open Scope num_scope.

(** ** State *)

Record t (R : Type) : Type := mk {
  width : R;
  height : R;
  chicken : option (Chicken.t R);
  spike_generator : option (SpikeGenerator.t R);
  score_manager : ScoreManager.t;
  game_over : bool;
  paused : bool;
  current_score : Z;
  best_score : Z;
  score_label_widget : Label.t R;
  pause_layout : option (Layout.t R);
  game_over_layout : option (Layout.t R)
}.

Arguments mk {R}.
Arguments width {R}.
Arguments height {R}.
Arguments chicken {R}.
Arguments spike_generator {R}.
Arguments score_manager {R}.
Arguments game_over {R}.
Arguments paused {R}.
Arguments current_score {R}.
Arguments best_score {R}.
Arguments score_label_widget {R}.
Arguments pause_layout {R}.
Arguments game_over_layout {R}.

(** The events Kivy delivers to the widget. *)
Inductive event (R : Type) : Type :=
| InitializeGame
| SizeChange (size : R * R)
| KeyDown (key : Z)
| TouchDown
| Tick (dt : R).

Arguments InitializeGame {R}.
Arguments SizeChange {R}.
Arguments KeyDown {R}.
Arguments TouchDown {R}.
Arguments Tick {R}.

(** The line break of the text of the game-over label. *)
Definition nl : string := String (Ascii.ascii_of_nat 10) EmptyString.

Section Operations.

Context {R : Type} `{Num R}.

(** The truth value of an attribute that holds an object or [None]. *)
Definition truthy {A} (o : option A) : bool :=
  match o with Some _ => true | None => false end.

(** The assignments [self.<attribute> = v] of the methods. *)

Definition set_size (gm : t R) (size : R * R) : t R :=
  mk size.1 size.2 (chicken gm) (spike_generator gm) (score_manager gm)
    (game_over gm) (paused gm) (current_score gm) (best_score gm)
    (score_label_widget gm) (pause_layout gm) (game_over_layout gm).

Definition set_chicken (gm : t R) (c : option (Chicken.t R)) : t R :=
  mk (width gm) (height gm) c (spike_generator gm) (score_manager gm)
    (game_over gm) (paused gm) (current_score gm) (best_score gm)
    (score_label_widget gm) (pause_layout gm) (game_over_layout gm).

Definition set_spike_generator (gm : t R) (sg : option (SpikeGenerator.t R)) : t R :=
  mk (width gm) (height gm) (chicken gm) sg (score_manager gm)
    (game_over gm) (paused gm) (current_score gm) (best_score gm)
    (score_label_widget gm) (pause_layout gm) (game_over_layout gm).

Definition set_score_manager (gm : t R) (s : ScoreManager.t) : t R :=
  mk (width gm) (height gm) (chicken gm) (spike_generator gm) s
    (game_over gm) (paused gm) (current_score gm) (best_score gm)
    (score_label_widget gm) (pause_layout gm) (game_over_layout gm).

Definition set_game_over (gm : t R) (b : bool) : t R :=
  mk (width gm) (height gm) (chicken gm) (spike_generator gm) (score_manager gm)
    b (paused gm) (current_score gm) (best_score gm)
    (score_label_widget gm) (pause_layout gm) (game_over_layout gm).

Definition set_paused (gm : t R) (b : bool) : t R :=
  mk (width gm) (height gm) (chicken gm) (spike_generator gm) (score_manager gm)
    (game_over gm) b (current_score gm) (best_score gm)
    (score_label_widget gm) (pause_layout gm) (game_over_layout gm).

Definition set_score_label_widget (gm : t R) (l : Label.t R) : t R :=
  mk (width gm) (height gm) (chicken gm) (spike_generator gm) (score_manager gm)
    (game_over gm) (paused gm) (current_score gm) (best_score gm)
    l (pause_layout gm) (game_over_layout gm).

Definition set_pause_layout (gm : t R) (l : option (Layout.t R)) : t R :=
  mk (width gm) (height gm) (chicken gm) (spike_generator gm) (score_manager gm)
    (game_over gm) (paused gm) (current_score gm) (best_score gm)
    (score_label_widget gm) l (game_over_layout gm).

Definition set_game_over_layout (gm : t R) (l : option (Layout.t R)) : t R :=
  mk (width gm) (height gm) (chicken gm) (spike_generator gm) (score_manager gm)
    (game_over gm) (paused gm) (current_score gm) (best_score gm)
    (score_label_widget gm) (pause_layout gm) l.

(** The assignments to [center_x] and [top] of the score label that
    [on_size_change] and [reset_game] share. *)
Definition place_score_label (gm : t R) (w h : R) : t R :=
  let l := score_label_widget gm in
  let l := Label.set_center_x l (w / of_Z 2) in
  let l := Label.set_top l (h - of_Z 20) in
  set_score_label_widget gm l.

(** The score label [__init__] creates, with its [text_size] set to its
    size. *)
Definition new_score_label (width height : R) : Label.t R :=
  let l := Label.mk "0" "48sp" [of_Z 1; of_Z 1; of_Z 1; of_Z 1]
             (width / of_Z 2, height) (of_Z 160, of_Z 60) None
             (Some "center") (Some "middle") None in
  Label.set_text_size l (Label.size l).

(** [GameManager.__init__], for a widget Kivy created with the given
    size. *)
Definition init (width height : R) : t R :=
  {| width := width;
     height := height;
     chicken := None;
     spike_generator := None;
     score_manager := ScoreManager.init;
     game_over := false;
     paused := false;
     current_score := 0;
     best_score := 0;
     score_label_widget := new_score_label width height;
     pause_layout := None;
     game_over_layout := None |}.

(** [GameManager.update_score_display] *)
Definition update_score_display (gm : t R) : t R :=
  set_score_label_widget gm
    (Label.set_text (score_label_widget gm)
       (str (ScoreManager.current_score (score_manager gm)))).

(** [GameManager.clear_overlays] *)
Definition clear_overlays (gm : t R) : t R :=
  let gm := if truthy (pause_layout gm) then set_pause_layout gm None else gm in
  if truthy (game_over_layout gm) then set_game_over_layout gm None else gm.

(** A label of an overlay: [size_hint = (None, None)], and the alignment
    and the text size left to Kivy. *)
Definition overlay_label (text font_size : string) (color : list R) (size pos : R * R) :
    Label.t R :=
  Label.mk text font_size color pos size (Some (None, None)) None None None.

(** The layout [show_pause_menu] builds after its guard: the dark
    overlay, the menu box with its outline, and the three labels. *)
Definition pause_overlay (gm : t R) : Layout.t R :=
  let box_width := 400%Z in
  let box_height := 200%Z in
  let box_x := width gm / of_Z 2 - of_Z box_width / of_Z 2 in
  let box_y := height gm / of_Z 2 - of_Z box_height / of_Z 2 in
  let l :=
    Layout.mk (width gm, height gm)
      [ Canvas.Color [of_Z 0; of_Z 0; of_Z 0; dec 7 10];
        Canvas.Rectangle (of_Z 0, of_Z 0) (width gm, height gm);
        Canvas.Color [dec 15 100; dec 2 10; dec 3 10; dec 95 100];
        Canvas.Rectangle (box_x, box_y) (of_Z box_width, of_Z box_height);
        Canvas.Color [of_Z 1; of_Z 1; of_Z 1; of_Z 1];
        Canvas.LineRectangle (box_x, box_y, of_Z box_width, of_Z box_height) (of_Z 2) ]
      [] in
  let pause_title :=
    overlay_label "PAUSA" "40sp" [of_Z 1; of_Z 1; of_Z 1; of_Z 1]
      (of_Z 300, of_Z 50) (width gm / of_Z 2 - of_Z 150, height gm / of_Z 2 + of_Z 60) in
  let l := Layout.add_widget l pause_title in
  let pause_instructions :=
    overlay_label "Pulsa [P] o [ESC] para continuar" "20sp"
      [dec 8 10; dec 8 10; dec 9 10; of_Z 1]
      (of_Z 300, of_Z 40) (width gm / of_Z 2 - of_Z 150, height gm / of_Z 2 + of_Z 10) in
  let l := Layout.add_widget l pause_instructions in
  let pause_touch :=
    overlay_label "Toca la pantalla para seguir o R para reiniciar" "18sp"
      [dec 7 10; dec 7 10; dec 9 10; of_Z 1]
      (of_Z 400, of_Z 30) (width gm / of_Z 2 - of_Z 200, height gm / of_Z 2 - of_Z 30) in
  Layout.add_widget l pause_touch.

(** [GameManager.show_pause_menu]: [hasattr(x, 'canvas')] holds of a
    layout and not of [None]. *)
Definition show_pause_menu (gm : t R) : t R :=
  if truthy (pause_layout gm) || negb (truthy (pause_layout gm)) then gm
  else set_pause_layout gm (Some (pause_overlay gm)).

(** [GameManager.update_pause_menu] *)
Definition update_pause_menu (gm : t R) : t R :=
  if paused gm then show_pause_menu gm
  else if truthy (pause_layout gm) then set_pause_layout gm None
  else gm.

(** The text of the label of the game-over overlay. *)
Definition game_over_text (s : ScoreManager.t) : string :=
  "GAME OVER" +:+ nl +:+
  "Score: " +:+ str (ScoreManager.current_score s) +:+ nl +:+
  "Best: " +:+ str (ScoreManager.high_score s) +:+ nl +:+ nl +:+
  "Tap to restart or press R".

(** The layout [show_game_over] builds: the red overlay and the label
    with the scores, its [text_size] set after its creation. *)
Definition game_over_overlay (gm : t R) : Layout.t R :=
  let l :=
    Layout.mk (width gm, height gm)
      [ Canvas.Color [dec 9 10; dec 2 10; dec 2 10; dec 7 10];
        Canvas.Rectangle (of_Z 0, of_Z 0) (width gm, height gm) ]
      [] in
  let game_over_label :=
    Label.mk (game_over_text (score_manager gm)) "24sp" [of_Z 1; of_Z 1; of_Z 1; of_Z 1]
      (width gm / of_Z 2 - of_Z 200, height gm / of_Z 2 - of_Z 100) (of_Z 400, of_Z 200)
      (Some (None, None)) (Some "center") (Some "middle") None in
  let game_over_label := Label.set_text_size game_over_label (of_Z 400, of_Z 200) in
  Layout.add_widget l game_over_label.

(** [GameManager.show_game_over] *)
Definition show_game_over (gm : t R) : t R :=
  if truthy (game_over_layout gm) then gm
  else set_game_over_layout gm (Some (game_over_overlay gm)).

(** [GameManager.reset_game] *)
Definition reset_game (gm : t R) : State (Random.t R) (t R) :=
  let gm := clear_overlays gm in
  if (width gm >? of_Z 0) && (height gm >? of_Z 0) then
    let center_x := width gm / of_Z 2 in
    let center_y := height gm / of_Z 2 in
    let gm := set_chicken gm (Some (Chicken.init center_x center_y Chicken.default_size)) in
    sg ← SpikeGenerator.init (width gm) (height gm);
    let gm := set_spike_generator gm (Some sg) in
    let gm := set_score_manager gm (ScoreManager.reset_current_score (score_manager gm)) in
    let gm := set_game_over gm false in
    let gm := set_paused gm false in
    let gm := update_score_display gm in
    mret (place_score_label gm (width gm) (height gm))
  else mret gm.

(** [GameManager.initialize_game] *)
Definition initialize_game (gm : t R) : State (Random.t R) (t R) :=
  if (width gm >? of_Z 0) && (height gm >? of_Z 0) then reset_game gm
  else mret gm.

(** [GameManager.on_size_change(_, size)] *)
Definition on_size_change (gm : t R) (size : R * R) : State (Random.t R) (t R) :=
  if (size.1 >? of_Z 0) && (size.2 >? of_Z 0) then
    reset_game (place_score_label gm size.1 size.2)
  else mret gm.

(** The key tests of [on_key_down]. *)
Definition is_jump_key (key : Z) : bool := ((key =? 32) || (key =? 273))%Z.
Definition is_restart_key (key : Z) : bool := (key =? 114)%Z.
Definition is_pause_key (key : Z) : bool := ((key =? 112) || (key =? 27))%Z.

(** [GameManager.on_key_down(_, key, ...)] *)
Definition on_key_down (gm : t R) (key : Z) : State (Random.t R) (bool * t R) :=
  if is_jump_key key && truthy (chicken gm) && negb (game_over gm) && negb (paused gm) then
    mret (true, set_chicken gm (Chicken.jump <$> chicken gm))
  else if is_restart_key key && game_over gm then
    gm ← reset_game gm;
    mret (true, gm)
  else if is_pause_key key && negb (game_over gm) then
    let gm := set_paused gm (negb (paused gm)) in
    mret (true, update_pause_menu gm)
  else mret (true, gm).

(** [GameManager.on_touch_down(touch)] *)
Definition on_touch_down (gm : t R) : State (Random.t R) (bool * t R) :=
  if game_over gm then
    gm ← reset_game gm;
    mret (true, gm)
  else if paused gm then
    let gm := set_paused gm false in
    mret (true, update_pause_menu gm)
  else if truthy (chicken gm) then
    mret (true, set_chicken gm (Chicken.jump <$> chicken gm))
  else mret (true, gm).

(** The part of [update] that follows a wall hit: the point, the score
    display and the new spikes. *)
Definition on_wall_hit (gm : t R) (sg : SpikeGenerator.t R) (coords : R * R) :
    State (Random.t R) (t R) :=
  let gm := set_score_manager gm (ScoreManager.add_point (score_manager gm)) in
  let gm := update_score_display gm in
  sg ← SpikeGenerator.regenerate_spikes sg coords
         (ScoreManager.difficulty_level (score_manager gm));
  mret (set_spike_generator gm (Some sg)).

(** The part of [update] that follows the wall test: the collision with
    the spikes and the end of the game. *)
Definition check_death (gm : t R) : t R :=
  match chicken gm, spike_generator gm with
  | Some c, Some sg =>
      let c := if SpikeGenerator.check_collisions sg c then Chicken.set_alive c false else c in
      let gm := set_chicken gm (Some c) in
      if negb (Chicken.alive c) then set_game_over gm true else gm
  | _, _ => gm
  end.

(** [GameManager.update(dt)]; the final call of [draw_game] changes none of
    the attributes of the state. *)
Definition update (gm : t R) (dt : R) : State (Random.t R) (t R) :=
  if game_over gm then
    mret (if negb (truthy (game_over_layout gm)) then show_game_over gm else gm)
  else if paused gm || negb (truthy (chicken gm)) || negb (truthy (spike_generator gm)) then
    mret gm
  else
    match chicken gm, spike_generator gm with
    | Some c, Some sg =>
        let '((wall_hit, coords), c) := Chicken.update c dt (width gm, height gm) in
        let gm := set_chicken gm (Some c) in
        gm ← (if wall_hit then on_wall_hit gm sg coords else mret gm);
        mret (check_death gm)
    | _, _ => mret gm
    end.

(** ** The widget in its environment *)

(** A widget and the random generator of the process. *)
Definition world : Type := (t R * Random.t R)%type.

(** Kivy delivers one event: a change of size first assigns the new size
    to the widget and then calls [on_size_change]. *)
Definition step (w : world) (e : event R) : world :=
  let '(gm, g) := w in
  match e with
  | InitializeGame => initialize_game gm g
  | SizeChange size => on_size_change (set_size gm size) size g
  | KeyDown key => let '((_, gm'), g') := on_key_down gm key g in (gm', g')
  | TouchDown => let '((_, gm'), g') := on_touch_down gm g in (gm', g')
  | Tick dt => update gm dt g
  end.

Definition run (es : list (event R)) (w : world) : world := foldl step w es.

(** ** The invariant of the widget *)

(** What holds of the attributes in every state the widget can reach:
    - the score manager satisfies its invariant;
    - the chicken and the spike generator exist together;
    - the game is never both over and paused;
    - the game is over exactly when the chicken is dead;
    - a finished game has a chicken;
    - the spike generator satisfies its invariant;
    - the score label shows the current score;
    - the pause overlay is never present;
    - the game-over overlay is only present while the game is over, and
      shows the scores of the score manager;
    - the attributes [current_score] and [best_score] are still 0. *)
Record inv (gm : t R) : Prop := {
  inv_score : ScoreManager.wf (score_manager gm);
  inv_together : truthy (chicken gm) = truthy (spike_generator gm);
  inv_not_both : game_over gm = true -> paused gm = false;
  inv_alive : forall c, chicken gm = Some c -> Chicken.alive c = negb (game_over gm);
  inv_over_chicken : game_over gm = true -> truthy (chicken gm) = true;
  inv_spikes : forall sg, spike_generator gm = Some sg -> SpikeGenerator.wf sg;
  inv_label : Label.text (score_label_widget gm) =
              str (ScoreManager.current_score (score_manager gm));
  inv_pause_layout : pause_layout gm = None;
  inv_over_layout : forall l, game_over_layout gm = Some l ->
                    game_over gm = true /\
                    Layout.texts l = [game_over_text (score_manager gm)];
  inv_unused : current_score gm = 0%Z /\ best_score gm = 0%Z
}.

End Operations.

(** ** Sample states, over the exact numbers *)

(** A new widget of 1000 by 700 with the sample random generator. *)
Definition sample_world : world (R := Q) := (init 1000 700, Random.sample).

(** The game after Kivy's first call of [initialize_game]. *)
Definition sample_running : world (R := Q) := run [InitializeGame] sample_world.

(** The same game after the key [p]. *)
Definition sample_paused : world (R := Q) := run [KeyDown 112] sample_running.

(** The same game after a tick of one second, in which the chicken falls
    through the floor. *)
Definition sample_over : world (R := Q) := run [Tick 1] sample_running.

End GameManager.
