(* ===== verification/GameInvariant.v ===== *)
(** * GameInvariant: what the handlers compute and what they preserve

    Theorems about the handlers of [GameManager], for any numbers: none of
    them depends on a law of arithmetic, so they hold of the program
    whatever the precision of its floats.

    - The overlays: [show_pause_menu] never builds the pause overlay.
    - [reset_game] and a tick of a running game, each as one equation that
      gives the state after the call.
    - The invariant [GameManager.inv]: [__init__] establishes it and every
      event preserves it, hence it holds in every reachable state.
    - Consequences for the reachable states: the pause overlay is never
      present, the game is over exactly when the chicken is dead, the
      label shows the score, the high score never decreases.
    - Ticks without input: a finished game stays finished, and as long as
      the game runs the chicken of the widget is the chicken the ticks
      alone have moved. *)

From stdpp Require Import base tactics option list strings.
From Stdlib Require Import ZArith Lia.
From S2P Require Import Prelude ScoreManager Character Obstacles ObstaclesManager GameManager.

Import GameManager.

#[local] Open Scope num_scope.

(** ** Unfolding *)

(** The setters copy eleven attributes each, so a chain of assignments is
    evaluated by value, on a state that is an explicit record: every
    intermediate state is reduced once, before the next assignment reads
    it. *)
Ltac gm_compute :=
  cbv beta iota zeta delta
    [update_score_display place_score_label clear_overlays show_pause_menu
     update_pause_menu show_game_over check_death truthy
     set_size set_chicken set_spike_generator set_score_manager
     set_game_over set_paused set_score_label_widget set_pause_layout
     set_game_over_layout
     width height chicken spike_generator score_manager game_over paused
     current_score best_score score_label_widget pause_layout game_over_layout] in *;
  cbn [Label.text Label.set_text Label.set_center_x Label.set_top Label.set_pos
       fst snd negb andb orb] in *.

Ltac gm_destruct gm :=
  destruct gm as [? ? ? ? ? ? ? ? ? ? ? ?]; gm_compute.

(** Projections of an explicit record. *)
Ltac gm_proj :=
  cbn [width height chicken spike_generator score_manager game_over paused
       current_score best_score score_label_widget pause_layout game_over_layout
       Label.text Label.set_text Label.set_center_x Label.set_top Label.set_pos
       fst snd negb andb orb] in *.

(** Splits the invariant to prove into its fields, on an explicit state,
    and closes the fields that are immediate. *)
Ltac inv_split :=
  split; gm_proj; intros; simplify_eq/=; rewrite ?negb_involutive;
  try done; auto with game.

Section Generic.

Context {R : Type} `{Num R}.
Implicit Types (gm : t R) (g : Random.t R) (w : world (R := R)) (e : event R).

(** ** The overlays *)

Lemma show_pause_menu_id gm : show_pause_menu gm = gm.
Proof. unfold show_pause_menu. by destruct (truthy (pause_layout gm)). Qed.

Lemma update_pause_menu_spec gm :
  update_pause_menu gm = if paused gm then gm else set_pause_layout gm None.
Proof. by destruct gm as [? ? ? ? ? ? [] ? ? ? [?|] ?]. Qed.

Lemma clear_overlays_spec gm :
  clear_overlays gm = set_game_over_layout (set_pause_layout gm None) None.
Proof. by destruct gm as [? ? ? ? ? ? ? ? ? ? [?|] [?|]]. Qed.

(** ** [reset_game] *)

Lemma reset_game_spec gm g :
  reset_game gm g =
    if (width gm >? of_Z 0) && (height gm >? of_Z 0) then
      let '(sg, g') := SpikeGenerator.init (width gm) (height gm) g in
      (mk (width gm) (height gm)
          (Some (Chicken.init (width gm / of_Z 2) (height gm / of_Z 2) Chicken.default_size))
          (Some sg)
          (ScoreManager.reset_current_score (score_manager gm))
          false false (current_score gm) (best_score gm)
          (Label.set_top
             (Label.set_center_x (Label.set_text (score_label_widget gm) (str 0))
                (width gm / of_Z 2))
             (height gm - of_Z 20))
          None None,
       g')
    else (clear_overlays gm, g).
Proof.
  unfold reset_game. rewrite clear_overlays_spec. state_unfold. gm_destruct gm.
  destruct (_ && _); [| reflexivity].
  destruct (SpikeGenerator.init _ _ g). reflexivity.
Qed.

(** ** A tick of a running game *)

Lemma update_running gm dt g c sg :
  game_over gm = false -> paused gm = false ->
  chicken gm = Some c -> spike_generator gm = Some sg ->
  update gm dt g =
    let '((wall_hit, coords), c1) := Chicken.update c dt (width gm, height gm) in
    let s1 := if wall_hit then ScoreManager.add_point (score_manager gm)
              else score_manager gm in
    let '(sg1, g1) :=
      if wall_hit
      then SpikeGenerator.regenerate_spikes sg coords (ScoreManager.difficulty_level s1) g
      else (sg, g) in
    let c2 := if SpikeGenerator.check_collisions sg1 c1
              then Chicken.set_alive c1 false else c1 in
    (mk (width gm) (height gm) (Some c2) (Some sg1) s1
        (negb (Chicken.alive c2)) false (current_score gm) (best_score gm)
        (if wall_hit
         then Label.set_text (score_label_widget gm) (str (ScoreManager.current_score s1))
         else score_label_widget gm)
        (pause_layout gm) (game_over_layout gm),
     g1).
Proof.
  unfold update, on_wall_hit. state_unfold. gm_destruct gm. intros -> -> -> ->. gm_compute.
  destruct (Chicken.update c dt _) as [[[] coords] c1]; gm_compute.
  - destruct (SpikeGenerator.regenerate_spikes _ _ _ g) as [sg1 g1]. gm_compute.
    destruct (SpikeGenerator.check_collisions sg1 c1); cbn [Chicken.alive Chicken.set_alive];
      [done | by destruct (Chicken.alive c1)].
  - destruct (SpikeGenerator.check_collisions sg c1); cbn [Chicken.alive Chicken.set_alive];
      [done | by destruct (Chicken.alive c1)].
Qed.

Lemma update_not_running gm dt g :
  game_over gm = true \/ paused gm = true \/ chicken gm = None \/ spike_generator gm = None ->
  update gm dt g =
    (if game_over gm then show_game_over gm else gm, g).
Proof.
  unfold update. state_unfold. gm_destruct gm.
  intros [-> | [-> | [-> | ->]]]; repeat case_match; simplify_eq/=; done.
Qed.

(** ** The invariant *)

Lemma init_inv (width height : R) : inv (init width height).
Proof. inv_split. Qed.

Lemma clear_overlays_inv gm : inv gm -> inv (clear_overlays gm).
Proof.
  rewrite clear_overlays_spec. destruct gm. intros [? ? ? ? ? ? ? ? ? ?]. inv_split.
Qed.

Lemma show_game_over_inv gm : inv gm -> game_over gm = true -> inv (show_game_over gm).
Proof.
  destruct gm as [? ? ? ? ? ? ? ? ? ? ? [l |]]; intros [? ? ? ? ? ? ? ? ? ?] Hover;
    inv_split.
Qed.

Lemma reset_game_inv gm g : inv gm -> inv (reset_game gm g).1.
Proof.
  intros Hinv. rewrite reset_game_spec.
  destruct (_ && _); [| by apply clear_overlays_inv].
  pose proof (SpikeGenerator.generator_init_wf (width gm) (height gm) g) as Hsg.
  destruct (SpikeGenerator.init _ _ g) as [sg g'].
  destruct Hinv as [? ? ? ? ? ? ? ? ? ?]. inv_split.
Qed.

Lemma set_size_inv gm (size : R * R) : inv gm -> inv (set_size gm size).
Proof. destruct gm. intros [? ? ? ? ? ? ? ? ? ?]. inv_split. Qed.

Lemma place_score_label_inv gm (w h : R) : inv gm -> inv (place_score_label gm w h).
Proof. destruct gm. intros [? ? ? ? ? ? ? ? ? ?]. inv_split. Qed.

Lemma jump_inv gm :
  inv gm -> game_over gm = false -> inv (set_chicken gm (Chicken.jump <$> chicken gm)).
Proof.
  destruct gm as [? ? [c |] ? ? ? ? ? ? ? ? ?]; intros [? ? ? Ha ? ? ? ? ? ?] Hover;
    inv_split.
  destruct (Chicken.jump_frame c) as [-> _]. auto.
Qed.

Lemma toggle_pause_inv gm (b : bool) :
  inv gm -> game_over gm = false -> inv (update_pause_menu (set_paused gm b)).
Proof.
  rewrite update_pause_menu_spec.
  destruct gm, b; intros [? ? ? ? ? ? ? ? ? ?] Hover; inv_split.
Qed.

Lemma update_inv gm dt g : inv gm -> inv (update gm dt g).1.
Proof.
  intros Hinv.
  destruct (game_over gm) eqn:Hover.
  { rewrite update_not_running, Hover by auto. by apply show_game_over_inv. }
  destruct (paused gm) eqn:Hpaused;
    [by rewrite update_not_running, Hover by auto |].
  destruct (chicken gm) as [c |] eqn:Hc;
    [| by rewrite update_not_running, Hover by auto].
  destruct (spike_generator gm) as [sg |] eqn:Hsg;
    [| by rewrite update_not_running, Hover by auto].
  rewrite (update_running gm dt g c sg) by done.
  destruct Hinv as [? ? ? ? ? Hspikes ? ? Hlayout ?].
  assert (Hno : game_over_layout gm = None).
  { destruct (game_over_layout gm) as [l |] eqn:Hl; [| done].
    destruct (Hlayout l eq_refl) as [Hcontra _]. congruence. }
  destruct (Chicken.update c dt _) as [[[] coords] c1]; cbv beta iota zeta.
  - pose proof (SpikeGenerator.regenerate_spikes_wf sg coords
      (ScoreManager.difficulty_level (ScoreManager.add_point (score_manager gm))) g
      (Hspikes sg Hsg)) as Hwf.
    destruct (SpikeGenerator.regenerate_spikes _ _ _ g) as [sg1 g1].
    inv_split; congruence.
  - inv_split; congruence.
Qed.

Lemma initialize_game_inv gm g : inv gm -> inv (initialize_game gm g).1.
Proof.
  intros Hinv. unfold initialize_game.
  destruct (_ && _); [by apply reset_game_inv | done].
Qed.

Lemma on_size_change_inv gm size g : inv gm -> inv (on_size_change gm size g).1.
Proof.
  intros Hinv. unfold on_size_change.
  destruct (_ && _); [by apply reset_game_inv, place_score_label_inv | done].
Qed.

(** The guard of the jump branch of [on_key_down]. *)
Lemma jump_guard (b1 b2 : bool) gm :
  b1 && b2 && negb (game_over gm) && negb (paused gm) = true ->
  b1 = true /\ b2 = true /\ game_over gm = false /\ paused gm = false.
Proof. rewrite !andb_true_iff, !negb_true_iff. tauto. Qed.

Lemma on_key_down_inv gm key g : inv gm -> inv (on_key_down gm key g).1.2.
Proof.
  intros Hinv. unfold on_key_down. state_unfold.
  destruct (_ && _ && _ && _) eqn:Hjump.
  { apply jump_guard in Hjump as (_ & _ & Hover & _). by apply jump_inv. }
  destruct (is_restart_key key && _).
  { pose proof (reset_game_inv gm g Hinv). by destruct (reset_game gm g). }
  destruct (is_pause_key key && _) eqn:Hpause; [| done].
  apply andb_true_iff in Hpause as [_ Hover%negb_true_iff]. by apply toggle_pause_inv.
Qed.

Lemma on_touch_down_inv gm g : inv gm -> inv (on_touch_down gm g).1.2.
Proof.
  intros Hinv. unfold on_touch_down. state_unfold.
  destruct (game_over gm) eqn:Hover.
  { pose proof (reset_game_inv gm g Hinv). by destruct (reset_game gm g). }
  destruct (paused gm); [by apply toggle_pause_inv |].
  destruct (truthy (chicken gm)); [by apply jump_inv | done].
Qed.

Lemma step_inv w e : inv w.1 -> inv (step w e).1.
Proof.
  destruct w as [gm g]. intros Hinv. destruct e as [| size | key | | dt]; cbn [step fst] in *.
  - by apply initialize_game_inv.
  - by apply on_size_change_inv, set_size_inv.
  - pose proof (on_key_down_inv gm key g Hinv). by destruct (on_key_down gm key g) as [[? ?] ?].
  - pose proof (on_touch_down_inv gm g Hinv). by destruct (on_touch_down gm g) as [[? ?] ?].
  - by apply update_inv.
Qed.

(** The widget in its environment as a machine: the events preserve
    [inv]. *)
#[global] Instance world_machine : Machine world (event R) :=
  {| step_of := step; inv_of := fun w => inv w.1; step_of_inv := step_inv |}.

Lemma run_inv es w : inv w.1 -> inv (run es w).1.
Proof. exact (run_of_inv es w). Qed.

(** C1. The invariant of the widget holds in every state it can reach:
    after [__init__] and any sequence of size changes, key presses,
    touches, calls of [initialize_game] and ticks, whatever the numbers the
    random generator returns, the score manager and the spike generator
    satisfy their invariants, the chicken and the spike generator exist
    together, the game is over exactly when the chicken is dead and is
    never both over and paused, the label shows the current score, and the
    game-over overlay is present only while the game is over and shows the
    scores of the score manager. *)
Theorem reachable_invariant es (width height : R) g :
  inv (run es (init width height, g)).1.
Proof. apply run_inv, init_inv. Qed.

(** ** What the handlers leave unchanged *)

Lemma jump_eq gm :
  set_chicken gm (Chicken.jump <$> chicken gm) =
    mk (width gm) (height gm) (Chicken.jump <$> chicken gm) (spike_generator gm)
       (score_manager gm) (game_over gm) (paused gm) (current_score gm) (best_score gm)
       (score_label_widget gm) (pause_layout gm) (game_over_layout gm).
Proof. by destruct gm. Qed.

Lemma toggle_pause_eq gm (b : bool) :
  update_pause_menu (set_paused gm b) =
    mk (width gm) (height gm) (chicken gm) (spike_generator gm)
       (score_manager gm) (game_over gm) b (current_score gm) (best_score gm)
       (score_label_widget gm) (if b then pause_layout gm else None) (game_over_layout gm).
Proof. rewrite update_pause_menu_spec. by destruct gm, b. Qed.

Lemma show_game_over_eq gm :
  show_game_over gm =
    mk (width gm) (height gm) (chicken gm) (spike_generator gm)
       (score_manager gm) (game_over gm) (paused gm) (current_score gm) (best_score gm)
       (score_label_widget gm) (pause_layout gm)
       (if truthy (game_over_layout gm) then game_over_layout gm
        else Some (game_over_overlay gm)).
Proof. by destruct gm as [? ? ? ? ? ? ? ? ? ? ? [l |]]. Qed.

(** The game is running: [update] moves the chicken. *)
Lemma running_cases gm :
  (exists c sg, game_over gm = false /\ paused gm = false /\
     chicken gm = Some c /\ spike_generator gm = Some sg) \/
  (game_over gm = true \/ paused gm = true \/ chicken gm = None \/ spike_generator gm = None).
Proof.
  destruct (game_over gm); [by right; left |].
  destruct (paused gm); [by right; right; left |].
  destruct (chicken gm) as [c |]; [| by right; right; right; left].
  destruct (spike_generator gm) as [sg |]; [| by right; right; right; right].
  left. by exists c, sg.
Qed.

(** C19. The pause overlay is never built: the guard of [show_pause_menu],
    [self.pause_layout or not hasattr(self.pause_layout, 'canvas')], holds
    whether the attribute is [None] or a layout, so the method returns
    before it creates anything, and in every state the widget can reach
    [pause_layout] is [None]. *)
Theorem pause_overlay_never_built es (width height : R) g :
  (forall gm, show_pause_menu gm = gm) /\
  pause_layout (run es (init width height, g)).1 = None.
Proof.
  split; [apply show_pause_menu_id |]. apply inv_pause_layout, run_inv, init_inv.
Qed.

(** ** The score manager along the game *)

(** The calls a handler makes on the score manager. *)
Lemma reset_game_score gm g :
  exists ks, score_manager (reset_game gm g).1 = ScoreManager.run ks (score_manager gm).
Proof.
  rewrite reset_game_spec. destruct (_ && _).
  - destruct (SpikeGenerator.init _ _ g). by exists [ScoreManager.ResetCurrentScore].
  - exists []. rewrite clear_overlays_spec. by destruct gm.
Qed.

Lemma update_score gm dt g :
  exists ks, score_manager (update gm dt g).1 = ScoreManager.run ks (score_manager gm).
Proof.
  destruct (running_cases gm) as [(c & sg & Hover & Hp & Hc & Hsg) | Hnot].
  - rewrite (update_running gm dt g c sg) by done.
    destruct (Chicken.update c dt _) as [[[] coords] c1]; cbv beta iota zeta.
    + destruct (SpikeGenerator.regenerate_spikes _ _ _ g). by exists [ScoreManager.AddPoint].
    + by exists [].
  - exists []. rewrite update_not_running by done.
    destruct (game_over gm); [by rewrite show_game_over_eq | done].
Qed.

Lemma on_key_down_score gm key g :
  exists ks, score_manager (on_key_down gm key g).1.2 = ScoreManager.run ks (score_manager gm).
Proof.
  unfold on_key_down. state_unfold.
  destruct (_ && _ && _ && _); [exists []; by rewrite jump_eq |].
  destruct (is_restart_key key && _).
  { destruct (reset_game_score gm g) as [ks Hks]. exists ks. by destruct (reset_game gm g). }
  destruct (is_pause_key key && _); exists []; [by rewrite toggle_pause_eq | done].
Qed.

Lemma on_touch_down_score gm g :
  exists ks, score_manager (on_touch_down gm g).1.2 = ScoreManager.run ks (score_manager gm).
Proof.
  unfold on_touch_down. state_unfold. destruct (game_over gm).
  { destruct (reset_game_score gm g) as [ks Hks]. exists ks. by destruct (reset_game gm g). }
  destruct (paused gm); [exists []; by rewrite toggle_pause_eq |].
  destruct (truthy (chicken gm)); exists []; [by rewrite jump_eq | done].
Qed.

Lemma step_score w e :
  exists ks, score_manager (step w e).1 = ScoreManager.run ks (score_manager w.1).
Proof.
  destruct w as [gm g]. destruct e as [| size | key | | dt]; cbn [step fst].
  - unfold initialize_game. destruct (_ && _); [apply reset_game_score | by exists []].
  - unfold on_size_change. destruct (_ && _); [| exists []; by destruct gm].
    destruct (reset_game_score (place_score_label (set_size gm size) size.1 size.2) g)
      as [ks ->].
    exists ks. by destruct gm.
  - destruct (on_key_down_score gm key g) as [ks Hks]. exists ks.
    by destruct (on_key_down gm key g) as [[? ?] ?].
  - destruct (on_touch_down_score gm g) as [ks Hks]. exists ks.
    by destruct (on_touch_down gm g) as [[? ?] ?].
  - apply update_score.
Qed.

Lemma run_score es w :
  exists ks, score_manager (run es w).1 = ScoreManager.run ks (score_manager w.1).
Proof.
  revert w. induction es as [| e es IH]; intros w; [by exists [] |].
  destruct (step_score w e) as [ks1 H1], (IH (step w e)) as [ks2 H2].
  exists (ks1 ++ ks2). cbn [run foldl]. fold (run es (step w e)).
  by rewrite H2, H1, ScoreManager.run_app.
Qed.

(** C31. The score manager of the widget is only ever used through
    [add_point] and [reset_current_score], so the best score shown at the
    end of a game never decreases: whatever the events and the state they
    start from, the high score after them is at least the high score
    before. *)
Theorem game_high_score_monotone es w :
  (ScoreManager.high_score (score_manager w.1) <=
   ScoreManager.high_score (score_manager (run es w).1))%Z /\
  exists ks, score_manager (run es w).1 = ScoreManager.run ks (score_manager w.1).
Proof.
  destruct (run_score es w) as [ks Hks]. split; [| by exists ks]. rewrite Hks.
  apply (foldl_monotone ScoreManager.exec ScoreManager.high_le), ScoreManager.exec_high_le.
Qed.

(** ** The tick *)

(** C8. A tick of a running game is the algorithm of the simulation loop:
    the chicken is advanced by [dt]; on a wall hit, and only then, the score
    manager gets one point and one column of spikes is regenerated at the
    new difficulty level from the next random numbers; the chicken is then
    killed if it collides with a spike of the new field; and the game is
    over after the tick exactly when the chicken left the vertical bounds
    or collided. *)
Theorem tick_running gm dt g c sg :
  game_over gm = false -> paused gm = false ->
  chicken gm = Some c -> spike_generator gm = Some sg ->
  let '((wall_hit, coords), c1) := Chicken.update c dt (width gm, height gm) in
  let '(gm', g') := update gm dt g in
  exists sg' c',
    chicken gm' = Some c' /\ spike_generator gm' = Some sg' /\
    score_manager gm' =
      (if wall_hit then ScoreManager.add_point (score_manager gm) else score_manager gm) /\
    (sg', g') =
      (if wall_hit
       then SpikeGenerator.regenerate_spikes sg coords
              (ScoreManager.difficulty_level (score_manager gm')) g
       else (sg, g)) /\
    c' = (if SpikeGenerator.check_collisions sg' c1 then Chicken.set_alive c1 false else c1) /\
    paused gm' = false /\
    (game_over gm' = true <->
     Chicken.alive c1 = false \/ SpikeGenerator.check_collisions sg' c1 = true).
Proof.
  intros Hover Hpaused Hc Hsg. rewrite (update_running gm dt g c sg) by done.
  destruct (Chicken.update c dt _) as [[[] coords] c1]; cbv beta iota zeta;
    [destruct (SpikeGenerator.regenerate_spikes _ _ _ g) as [sg1 g1] eqn:Hregen |];
    eexists _, _; gm_proj; repeat split; try done;
    destruct (SpikeGenerator.check_collisions _ c1), (Chicken.alive c1) eqn:Ha;
    cbn [Chicken.alive Chicken.set_alive negb]; rewrite ?Ha; intuition congruence.
Qed.

(** C26. While the game is paused or over there is no physics: a tick
    leaves the chicken, the spikes, the score, the flags, the label and
    the random generator as they are; a paused game is not changed at
    all, and a finished game only gets its game-over overlay. *)
Theorem tick_frozen gm dt g :
  game_over gm = true \/ paused gm = true ->
  let '(gm', g') := update gm dt g in
  g' = g /\ chicken gm' = chicken gm /\ spike_generator gm' = spike_generator gm /\
  score_manager gm' = score_manager gm /\
  game_over gm' = game_over gm /\ paused gm' = paused gm /\
  score_label_widget gm' = score_label_widget gm /\
  (game_over gm = false -> gm' = gm) /\
  (game_over gm = true -> truthy (game_over_layout gm') = true).
Proof.
  intros Hfrozen. rewrite update_not_running by tauto.
  destruct (game_over gm) eqn:Hover; [| done]. rewrite show_game_over_eq. gm_proj.
  rewrite Hover. repeat split; try done. by destruct (game_over_layout gm).
Qed.

(** ** The inputs *)

(** A jump key is neither the restart key nor a pause key. *)
Lemma jump_key_only key :
  is_jump_key key = true -> is_restart_key key = false /\ is_pause_key key = false.
Proof.
  unfold is_jump_key, is_restart_key, is_pause_key.
  intros [->%Z.eqb_eq | ->%Z.eqb_eq]%orb_true_iff; done.
Qed.

(** C28. The jump keys (space and the up arrow) make the chicken jump
    exactly when there is a chicken and the game is neither over nor
    paused; otherwise the key is ignored: it neither restarts a finished
    game nor resumes a paused one, and draws no random number. *)
Theorem jump_key_spec gm key g :
  is_jump_key key = true ->
  on_key_down gm key g =
    ((true,
      if truthy (chicken gm) && negb (game_over gm) && negb (paused gm)
      then set_chicken gm (Chicken.jump <$> chicken gm) else gm),
     g).
Proof.
  intros Hkey. destruct (jump_key_only key Hkey) as [Hrestart Hpause].
  unfold on_key_down. state_unfold. rewrite Hkey, Hrestart, Hpause. cbn [andb].
  by destruct (_ && _ && _).
Qed.

(** C27. Restart: on a finished game in a widget of positive size, the key
    [r] and a touch do the same: they start a new game, with a new chicken
    at the centre, new spikes from the next random numbers, the current
    score and the difficulty reset and the high score kept, the label
    showing [0], and no overlay. *)
Theorem restart_spec gm g e :
  e = KeyDown 114 \/ e = TouchDown ->
  game_over gm = true ->
  (width gm >? of_Z 0) && (height gm >? of_Z 0) = true ->
  let '(sg, g1) := SpikeGenerator.init (width gm) (height gm) g in
  let '(gm', g') := step (gm, g) e in
  g' = g1 /\ spike_generator gm' = Some sg /\
  chicken gm' =
    Some (Chicken.init (width gm / of_Z 2) (height gm / of_Z 2) Chicken.default_size) /\
  score_manager gm' = ScoreManager.reset_current_score (score_manager gm) /\
  game_over gm' = false /\ paused gm' = false /\
  Label.text (score_label_widget gm') = str 0 /\
  pause_layout gm' = None /\ game_over_layout gm' = None.
Proof.
  intros He Hover Hsize.
  assert (Hstep : step (gm, g) e = reset_game gm g).
  { destruct He as [-> | ->]; cbn [step]; unfold on_key_down, on_touch_down; state_unfold;
      rewrite Hover, ?andb_false_r; cbn; by destruct (reset_game gm g). }
  rewrite Hstep, reset_game_spec, Hsize.
  by destruct (SpikeGenerator.init _ _ g) as [sg g'].
Qed.

(** C30. Until the widget has a positive size there is no game: without a
    chicken and a spike generator, no event creates them unless the size is
    positive on both axes, the size being the new one for a change of size
    and the current one for every other event. *)
Theorem not_ready_without_size gm g e :
  chicken gm = None -> spike_generator gm = None ->
  (let size := match e with SizeChange size => size | _ => (width gm, height gm) end in
   (size.1 >? of_Z 0) && (size.2 >? of_Z 0) = false) ->
  chicken (step (gm, g) e).1 = None /\ spike_generator (step (gm, g) e).1 = None /\
  (step (gm, g) e).2 = g.
Proof.
  intros Hc Hsg Hsize.
  assert (Hclear : chicken (clear_overlays gm) = None /\
                   spike_generator (clear_overlays gm) = None)
    by (rewrite clear_overlays_spec; by destruct gm).
  destruct e as [| size | key | | dt]; cbn [step fst snd] in *.
  - unfold initialize_game. by rewrite Hsize.
  - unfold on_size_change. rewrite Hsize. by destruct gm.
  - unfold on_key_down. state_unfold. rewrite Hc.
    cbn [truthy andb]. rewrite andb_false_r. cbn [andb].
    destruct (is_restart_key key && _);
      [rewrite reset_game_spec, Hsize; by destruct Hclear |].
    destruct (is_pause_key key && _); [by rewrite toggle_pause_eq | done].
  - unfold on_touch_down. state_unfold. rewrite Hc. cbn [truthy].
    destruct (game_over gm); [rewrite reset_game_spec, Hsize; by destruct Hclear |].
    destruct (paused gm); [by rewrite toggle_pause_eq | done].
  - rewrite update_not_running by auto.
    destruct (game_over gm); [by rewrite show_game_over_eq | done].
Qed.

(** ** Ticks without input *)

(** [reset_game] in a widget of positive size leaves a running game with
    a new chicken at the centre. *)
Lemma reset_game_ready gm g :
  (width gm >? of_Z 0) && (height gm >? of_Z 0) = true ->
  let gm' := (reset_game gm g).1 in
  chicken gm' =
    Some (Chicken.init (width gm / of_Z 2) (height gm / of_Z 2) Chicken.default_size) /\
  truthy (spike_generator gm') = true /\
  game_over gm' = false /\ paused gm' = false /\
  width gm' = width gm /\ height gm' = height gm.
Proof.
  intros Hsize. rewrite reset_game_spec, Hsize.
  by destruct (SpikeGenerator.init _ _ g) as [sg g'].
Qed.

(** A finished game stays finished until it is restarted. *)
Lemma update_game_over gm dt g :
  game_over gm = true -> game_over (update gm dt g).1 = true.
Proof.
  intros Hover. rewrite update_not_running, Hover by auto. by rewrite show_game_over_eq.
Qed.

Lemma ticks_game_over n dt w :
  game_over w.1 = true -> game_over (run (replicate n (Tick dt)) w).1 = true.
Proof.
  revert w. induction n as [| n IH]; intros [gm g] Hover; [done |].
  apply (IH (update gm dt g)), update_game_over, Hover.
Qed.

(** A tick of a running game that does not end it is a tick of the
    chicken: the game is still running, in the same field. *)
Lemma update_survives gm dt g c :
  game_over gm = false -> paused gm = false ->
  chicken gm = Some c -> truthy (spike_generator gm) = true ->
  game_over (update gm dt g).1 = false ->
  let gm' := (update gm dt g).1 in
  chicken gm' = Some (Chicken.update c dt (width gm, height gm)).2 /\
  truthy (spike_generator gm') = true /\ paused gm' = false /\
  width gm' = width gm /\ height gm' = height gm.
Proof.
  intros Hover Hpaused Hc Hsg.
  destruct (spike_generator gm) as [sg |] eqn:Hsg'; [clear Hsg | done].
  rewrite (update_running gm dt g c sg) by done.
  destruct (Chicken.update c dt _) as [[wall_hit coords] c1]. cbv beta iota zeta.
  destruct (if wall_hit then _ else _) as [sg1 g1].
  destruct (SpikeGenerator.check_collisions sg1 c1); cbn; [done |].
  by intros _.
Qed.

(** As long as the game runs, the chicken of the widget is the chicken the
    ticks alone have moved. *)
Lemma ticks_survive n dt gm g c :
  game_over gm = false -> paused gm = false ->
  chicken gm = Some c -> truthy (spike_generator gm) = true ->
  game_over (run (replicate n (Tick dt)) (gm, g)).1 = false ->
  chicken (run (replicate n (Tick dt)) (gm, g)).1 =
    Some (Chicken.run (replicate n (Chicken.Update dt (width gm, height gm))) c).
Proof.
  revert gm g c. induction n as [| n IH]; intros gm g c Hover Hpaused Hc Hsg Hend; [done |].
  change (run (replicate (S n) (Tick dt)) (gm, g))
    with (run (replicate n (Tick dt)) (update gm dt g)) in *.
  destruct (game_over (update gm dt g).1) eqn:Hnext.
  { pose proof (ticks_game_over n dt (update gm dt g) Hnext). congruence. }
  destruct (update_survives gm dt g c Hover Hpaused Hc Hsg Hnext) as (Hc' & ? & ? & Hw & Hh).
  destruct (update gm dt g) as [gm1 g1]. cbn [fst] in *.
  rewrite (IH gm1 g1 _ Hnext) by done. by rewrite Hw, Hh.
Qed.

End Generic.

(** ** The theorems at sample states, over the exact numbers *)

From Stdlib Require Import QArith.

Section Exact.

#[local] Open Scope Q_scope.

(** Assigning [center_x] and [top] moves the label where they say. *)
Lemma set_center_x_top (l : Label.t Q) (cx t : Q) :
  let l' := Label.set_top (Label.set_center_x l cx) t in
  Label.center_x l' == cx /\ Label.top l' == t /\
  Label.size l' = Label.size l /\ Label.text l' = Label.text l.
Proof.
  unfold Label.center_x, Label.top, Label.set_top, Label.set_center_x, Label.set_pos.
  cbn. split_and!; [field | ring | done..].
Qed.

(** The score label after a reset in a widget of positive size: centred
    on the width, its top 20 below the top of the widget, showing 0. *)
Lemma reset_places_score_label (gm : t Q) g :
  (width gm >? of_Z 0)%num && (height gm >? of_Z 0)%num = true ->
  let l := score_label_widget (reset_game gm g).1 in
  Label.center_x l == width gm / 2 /\ Label.top l == height gm - 20 /\
  Label.text l = str 0.
Proof.
  intros Hsize. rewrite reset_game_spec, Hsize.
  destruct (SpikeGenerator.init _ _ g) as [sg g']. cbn [fst score_label_widget].
  destruct (set_center_x_top (Label.set_text (score_label_widget gm) (str 0))
              (width gm / 2) (height gm - 20)) as (? & ? & _ & ?).
  by split_and!.
Qed.

Lemma tick_running_witness :
  let gm := sample_running.1 in
  let g := sample_running.2 in
  let c := default (Chicken.init 0 0 0) (chicken gm) in
  let sg := default (SpikeGenerator.mk 0 0 [] 0 0) (spike_generator gm) in
  let '((wall_hit, coords), c1) := Chicken.update c (1 # 60) (width gm, height gm) in
  let '(gm', g') := update gm (1 # 60) g in
  exists sg' c',
    chicken gm' = Some c' /\ spike_generator gm' = Some sg' /\
    score_manager gm' =
      (if wall_hit then ScoreManager.add_point (score_manager gm) else score_manager gm) /\
    (sg', g') =
      (if wall_hit
       then SpikeGenerator.regenerate_spikes sg coords
              (ScoreManager.difficulty_level (score_manager gm')) g
       else (sg, g)) /\
    c' = (if SpikeGenerator.check_collisions sg' c1 then Chicken.set_alive c1 false else c1) /\
    paused gm' = false /\
    (game_over gm' = true <->
     Chicken.alive c1 = false \/ SpikeGenerator.check_collisions sg' c1 = true).
Proof.
  intros gm g c sg. apply (tick_running gm (1 # 60) g c sg); by vm_compute.
Defined.

Lemma tick_frozen_witness :
  let gm := sample_paused.1 in
  let '(gm', g') := update gm (1 # 60) sample_paused.2 in
  g' = sample_paused.2 /\ chicken gm' = chicken gm /\
  spike_generator gm' = spike_generator gm /\
  score_manager gm' = score_manager gm /\
  game_over gm' = game_over gm /\ paused gm' = paused gm /\
  score_label_widget gm' = score_label_widget gm /\
  (game_over gm = false -> gm' = gm) /\
  (game_over gm = true -> truthy (game_over_layout gm') = true).
Proof.
  intros gm. apply (tick_frozen gm (1 # 60) sample_paused.2). right. by vm_compute.
Defined.

Lemma jump_key_spec_witness :
  let gm := sample_paused.1 in
  on_key_down gm 32 sample_paused.2 =
    ((true,
      if truthy (chicken gm) && negb (game_over gm) && negb (paused gm)
      then set_chicken gm (Chicken.jump <$> chicken gm) else gm),
     sample_paused.2).
Proof. apply (jump_key_spec sample_paused.1 32 sample_paused.2). reflexivity. Defined.

Lemma restart_spec_witness :
  let gm := sample_over.1 in
  let '(sg, g1) := SpikeGenerator.init (width gm) (height gm) sample_over.2 in
  let '(gm', g') := step (gm, sample_over.2) (KeyDown 114) in
  g' = g1 /\ spike_generator gm' = Some sg /\
  chicken gm' =
    Some (Chicken.init (width gm / of_Z 2)%num (height gm / of_Z 2)%num
            Chicken.default_size) /\
  score_manager gm' = ScoreManager.reset_current_score (score_manager gm) /\
  game_over gm' = false /\ paused gm' = false /\
  Label.text (score_label_widget gm') = str 0 /\
  pause_layout gm' = None /\ game_over_layout gm' = None.
Proof.
  intros gm. apply (restart_spec gm sample_over.2 (KeyDown 114)); [by left | by vm_compute..].
Defined.

Lemma not_ready_without_size_witness :
  let gm := init (R := Q) 0 700 in
  chicken (step (gm, Random.sample) InitializeGame).1 = None /\
  spike_generator (step (gm, Random.sample) InitializeGame).1 = None /\
  (step (gm, Random.sample) InitializeGame).2 = Random.sample.
Proof.
  intros gm. apply (not_ready_without_size gm Random.sample InitializeGame); by vm_compute.
Defined.

End Exact.
