(* ===== verification/GameSpec.v ===== *)
(** * GameSpec: the simulation loop of the specification, and its refinement

    The specification describes the game without the widget: a character,
    an obstacle field and a score manager owned by a simulation loop that
    is [Running], [Paused] or [GameOver], driven by ticks and by the three
    intents [jump], [togglePause] and [restart] (sections 4.4 and 6), and
    not created before the playfield has a positive size (section 7).
    [SimulationLoop] is that machine, written from the specification over
    the components the other files model from the code.

    [abs] reads a state of the simulation loop off the attributes of the
    widget, and [input_of] reads an input of the loop off an event of
    Kivy.  The theorems show that [GameManager], with its flags, optional
    attributes, overlays and label, implements the machine: every event
    takes the widget to a state whose abstraction is the one the machine
    reaches, with the same use of the random generator, and the states of
    a game follow the transitions of section 4.4. *)

From stdpp Require Import base tactics option list strings.
From Stdlib Require Import ZArith QArith Lia.
From S2P Require Import Prelude ScoreManager Character Obstacles ObstaclesManager.
From S2P Require Import GameManager GameInvariant.

Module SimulationLoop.

#[local] Open Scope num_scope.

(** ** The machine of the specification *)

Inductive game_state : Type := Running | Paused | GameOver.

#[global] Instance game_state_eq_dec : EqDecision game_state.
Proof. solve_decision. Defined.

Record t (R : Type) : Type := mk {
  character : Chicken.t R;
  field : SpikeGenerator.t R;
  score : ScoreManager.t;
  state : game_state;
  bounds : R * R
}.

Arguments mk {R}.
Arguments character {R}.
Arguments field {R}.
Arguments score {R}.
Arguments state {R}.
Arguments bounds {R}.

(** The three intents of the input layer. *)
Inductive intent : Type := Jump | TogglePause | Restart.

#[global] Instance intent_eq_dec : EqDecision intent.
Proof. solve_decision. Defined.

(** What the loop is given: an intent, a tick, or the size of the
    playfield. *)
Inductive input (R : Type) : Type :=
| Intent (i : intent)
| Tick (dt : R)
| Resize (size : R * R).

Arguments Intent {R}.
Arguments Tick {R}.
Arguments Resize {R}.

(** The transitions of section 4.4: pause and resume, the death of the
    character on a tick, restart; a change of size resets the game; every
    state may stay as it is. *)
Inductive transition {R : Type} : game_state -> input R -> game_state -> Prop :=
| transition_pause : transition Running (Intent TogglePause) Paused
| transition_resume : transition Paused (Intent TogglePause) Running
| transition_die dt : transition Running (Tick dt) GameOver
| transition_restart : transition GameOver (Intent Restart) Running
| transition_resize p size : transition p (Resize size) Running
| transition_stay p i : transition p i p.

Section Machine.

Context {R : Type} `{Num R}.

(** Both dimensions are strictly positive. *)
Definition sized (size : R * R) : bool :=
  (size.1 >? of_Z 0) && (size.2 >? of_Z 0).

(** A new game in a playfield of the given size: a character at the
    centre, a new field, the current score reset and the high score
    kept. *)
Definition reset (score : ScoreManager.t) (size : R * R) : State (Random.t R) (t R) :=
  field ← SpikeGenerator.init size.1 size.2;
  mret (mk (Chicken.init (size.1 / of_Z 2) (size.2 / of_Z 2) Chicken.default_size)
           field (ScoreManager.reset_current_score score) Running size).

(** The per-tick algorithm while [Running]; no physics otherwise. *)
Definition tick (s : t R) (dt : R) : State (Random.t R) (t R) :=
  match state s with
  | Running =>
      let '((bounce, position), c) := Chicken.update (character s) dt (bounds s) in
      p ← (if bounce then
             let score := ScoreManager.add_point (score s) in
             field ← SpikeGenerator.regenerate_spikes (field s) position
                       (ScoreManager.difficulty_level score);
             mret (score, field)
           else mret (score s, field s));
      let c := if SpikeGenerator.check_collisions p.2 c then Chicken.set_alive c false else c in
      mret (mk c p.2 p.1 (if Chicken.alive c then Running else GameOver) (bounds s))
  | _ => mret s
  end.

(** [jump]: ignored unless [Running]. *)
Definition jump (s : t R) : t R :=
  match state s with
  | Running => mk (Chicken.jump (character s)) (field s) (score s) Running (bounds s)
  | _ => s
  end.

(** [togglePause]: ignored when the game is over. *)
Definition toggle_pause (s : t R) : t R :=
  match state s with
  | Running => mk (character s) (field s) (score s) Paused (bounds s)
  | Paused => mk (character s) (field s) (score s) Running (bounds s)
  | GameOver => s
  end.

(** [restart]: a new game after a game over, in a playfield of positive
    size. *)
Definition restart (s : t R) : State (Random.t R) (t R) :=
  match state s with
  | GameOver => if sized (bounds s) then reset (score s) (bounds s) else mret s
  | _ => mret s
  end.

(** A change of size: a full reset when the size is positive; otherwise
    only the bounds change. *)
Definition resize (s : t R) (size : R * R) : State (Random.t R) (t R) :=
  if sized size then reset (score s) size
  else mret (mk (character s) (field s) (score s) (state s) size).

Definition step (s : t R) (i : option (input R)) : State (Random.t R) (t R) :=
  match i with
  | Some (Intent Jump) => mret (jump s)
  | Some (Intent TogglePause) => mret (toggle_pause s)
  | Some (Intent Restart) => restart s
  | Some (Tick dt) => tick s dt
  | Some (Resize size) => resize s size
  | None => mret s
  end.

(** ** The widget as a simulation loop *)

(** The state of the loop the flags of the widget stand for. *)
Definition phase (gm : GameManager.t R) : game_state :=
  if GameManager.game_over gm then GameOver
  else if GameManager.paused gm then Paused
  else Running.

(** The simulation loop a widget holds, once it has its chicken and its
    spikes. *)
Definition abs (gm : GameManager.t R) : option (t R) :=
  match GameManager.chicken gm, GameManager.spike_generator gm with
  | Some c, Some sg =>
      Some (mk c sg (GameManager.score_manager gm) (phase gm)
              (GameManager.width gm, GameManager.height gm))
  | _, _ => None
  end.

(** The intent a key stands for. *)
Definition intent_of_key (key : Z) : option intent :=
  if GameManager.is_jump_key key then Some Jump
  else if GameManager.is_restart_key key then Some Restart
  else if GameManager.is_pause_key key then Some TogglePause
  else None.

(** The intent a touch stands for: restart a finished game, resume a
    paused one, jump otherwise. *)
Definition intent_of_touch (p : game_state) : intent :=
  match p with
  | GameOver => Restart
  | Paused => TogglePause
  | Running => Jump
  end.

(** The input of the loop an event of the widget stands for, in a given
    state of the loop: Kivy's first call of [initialize_game] announces
    the size the playfield already has. *)
Definition input_of (s : t R) (e : GameManager.event R) : option (input R) :=
  match e with
  | GameManager.InitializeGame => Some (Resize (bounds s))
  | GameManager.SizeChange size => Some (Resize size)
  | GameManager.KeyDown key => Intent <$> intent_of_key key
  | GameManager.TouchDown => Some (Intent (intent_of_touch (state s)))
  | GameManager.Tick dt => Some (Tick dt)
  end.

(** The loop on a sequence of events of the widget. *)
Definition run (es : list (GameManager.event R)) (a : t R * Random.t R) :
    t R * Random.t R :=
  foldl (fun a e => step a.1 (input_of a.1 e) a.2) a es.

(** The size an event may start the game with. *)
Definition start_size (gm : GameManager.t R) (e : GameManager.event R) : option (R * R) :=
  match e with
  | GameManager.InitializeGame => Some (GameManager.width gm, GameManager.height gm)
  | GameManager.SizeChange size => Some size
  | _ => None
  end.

(** A widget with its random generator implements a state of the loop
    with its own. *)
Definition refines (w : GameManager.t R * Random.t R) (a : t R * Random.t R) : Prop :=
  abs w.1 = Some a.1 /\ w.2 = a.2.

(** The invariant of the loop: the game is over exactly when the
    character is dead, and the score manager and the field satisfy their
    invariants. *)
Definition wf (s : t R) : Prop :=
  (state s = GameOver <-> Chicken.alive (character s) = false) /\
  ScoreManager.wf (score s) /\ SpikeGenerator.wf (field s).

End Machine.

(** ** Unfolding *)

Ltac spec_unfold :=
  unfold refines, abs, phase, tick, jump, toggle_pause, restart, resize, reset in *;
  cbn [character field score state bounds fst snd] in *;
  state_unfold; gm_proj.

(** ** Refinement *)

Section Refinement.

Context {R : Type} `{Num R}.
Implicit Types (gm : GameManager.t R) (g : Random.t R) (s : t R).
Implicit Types (e : GameManager.event R).

Lemma abs_Some gm s :
  abs gm = Some s ->
  exists c sg,
    GameManager.chicken gm = Some c /\ GameManager.spike_generator gm = Some sg /\
    s = mk c sg (GameManager.score_manager gm) (phase gm)
          (GameManager.width gm, GameManager.height gm).
Proof.
  unfold abs. destruct (GameManager.chicken gm) as [c |]; [| done].
  destruct (GameManager.spike_generator gm) as [sg |]; [| done].
  intros [= <-]. by exists c, sg.
Qed.

Lemma reset_game_refines gm g :
  sized (GameManager.width gm, GameManager.height gm) = true ->
  refines (GameManager.reset_game gm g)
    (reset (GameManager.score_manager gm) (GameManager.width gm, GameManager.height gm) g).
Proof.
  unfold sized. cbn [fst snd]. intros Hsize. rewrite reset_game_spec, Hsize.
  spec_unfold. by destruct (SpikeGenerator.init _ _ g).
Qed.

Lemma reset_game_unsized gm g s :
  sized (GameManager.width gm, GameManager.height gm) = false ->
  abs gm = Some s -> refines (GameManager.reset_game gm g) (s, g).
Proof.
  unfold sized. cbn [fst snd]. intros Hsize Habs.
  rewrite reset_game_spec, Hsize, clear_overlays_spec. by destruct gm.
Qed.

Lemma update_refines gm dt g s :
  abs gm = Some s -> refines (GameManager.update gm dt g) (tick s dt g).
Proof.
  intros (c & sg & Hc & Hsg & ->)%abs_Some.
  destruct (running_cases gm) as [(c' & sg' & Hover & Hpaused & Hc' & Hsg') | Hnot].
  - simplify_eq. rewrite (update_running gm dt g c sg) by done.
    spec_unfold. rewrite Hover, Hpaused.
    destruct (Chicken.update c dt _) as [[[] coords] c1]; cbv beta iota zeta;
      [destruct (SpikeGenerator.regenerate_spikes _ _ _ g) as [sg1 g1] |];
      gm_proj; cbn [fst snd];
      destruct (SpikeGenerator.check_collisions _ c1);
      cbn [Chicken.alive Chicken.set_alive negb]; try done; by destruct (Chicken.alive c1).
  - rewrite update_not_running by done.
    destruct (GameManager.game_over gm) eqn:Hover;
      [rewrite show_game_over_eq; spec_unfold; by rewrite Hc, Hsg, Hover |].
    destruct (GameManager.paused gm) eqn:Hpaused;
      [spec_unfold; by rewrite Hc, Hsg, Hover, Hpaused |].
    destruct Hnot as [? | [? | [? | ?]]]; congruence.
Qed.

Lemma jump_refines gm g s :
  abs gm = Some s ->
  refines
    (if negb (GameManager.game_over gm) && negb (GameManager.paused gm)
     then GameManager.set_chicken gm (Chicken.jump <$> GameManager.chicken gm) else gm, g)
    (jump s, g).
Proof.
  intros (c & sg & Hc & Hsg & ->)%abs_Some.
  destruct (GameManager.game_over gm) eqn:Hover, (GameManager.paused gm) eqn:Hpaused;
    cbn [negb andb]; rewrite ?jump_eq; spec_unfold;
    by rewrite ?Hc, ?Hsg, ?Hover, ?Hpaused.
Qed.

Lemma toggle_pause_refines gm g s :
  abs gm = Some s ->
  refines
    (if negb (GameManager.game_over gm)
     then GameManager.update_pause_menu
            (GameManager.set_paused gm (negb (GameManager.paused gm)))
     else gm, g)
    (toggle_pause s, g).
Proof.
  intros (c & sg & Hc & Hsg & ->)%abs_Some.
  destruct (GameManager.game_over gm) eqn:Hover, (GameManager.paused gm) eqn:Hpaused;
    cbn [negb andb]; rewrite ?toggle_pause_eq; spec_unfold;
    by rewrite ?Hc, ?Hsg, ?Hover, ?Hpaused.
Qed.

Lemma restart_refines gm g s :
  abs gm = Some s ->
  refines (if GameManager.game_over gm then GameManager.reset_game gm g else (gm, g))
    (restart s g).
Proof.
  intros Habs. pose proof Habs as (c & sg & Hc & Hsg & ->)%abs_Some.
  unfold restart, phase in *. cbn [state score bounds].
  destruct (GameManager.game_over gm) eqn:Hover.
  - destruct (sized _) eqn:Hsize;
      [by apply reset_game_refines | by apply reset_game_unsized].
  - by destruct (GameManager.paused gm); split.
Qed.

(** The restart key is not a pause key. *)
Lemma restart_key_only key :
  GameManager.is_restart_key key = true -> GameManager.is_pause_key key = false.
Proof.
  unfold GameManager.is_restart_key, GameManager.is_pause_key. by intros ->%Z.eqb_eq.
Qed.

Lemma on_key_down_refines gm key g s :
  abs gm = Some s ->
  refines ((GameManager.on_key_down gm key g).1.2, (GameManager.on_key_down gm key g).2)
    (step s (Intent <$> intent_of_key key) g).
Proof.
  intros Habs. pose proof Habs as (c & sg & Hc & Hsg & _)%abs_Some.
  pose proof (jump_refines gm g s Habs) as Hjump.
  pose proof (toggle_pause_refines gm g s Habs) as Htoggle.
  pose proof (restart_refines gm g s Habs) as Hrestart.
  assert (Hchicken : GameManager.truthy (GameManager.chicken gm) = true) by by rewrite Hc.
  unfold GameManager.on_key_down, intent_of_key. state_unfold.
  rewrite Hchicken, andb_true_r.
  destruct (GameManager.is_jump_key key) eqn:Hj.
  { destruct (jump_key_only key Hj) as [-> ->]. cbn [andb fmap option_fmap option_map step].
    by destruct (_ && _). }
  destruct (GameManager.is_restart_key key) eqn:Hr.
  { rewrite (restart_key_only key Hr). cbn [andb fmap option_fmap option_map step].
    destruct (GameManager.game_over gm); [| done].
    by destruct (GameManager.reset_game gm g). }
  destruct (GameManager.is_pause_key key); cbn [andb fmap option_fmap option_map step];
    [by destruct (GameManager.game_over gm) | done].
Qed.

Lemma on_touch_down_refines gm g s :
  abs gm = Some s ->
  refines ((GameManager.on_touch_down gm g).1.2, (GameManager.on_touch_down gm g).2)
    (step s (Some (Intent (intent_of_touch (phase gm)))) g).
Proof.
  intros Habs. pose proof Habs as (c & sg & Hc & Hsg & _)%abs_Some.
  pose proof (jump_refines gm g s Habs) as Hjump.
  pose proof (toggle_pause_refines gm g s Habs) as Htoggle.
  pose proof (restart_refines gm g s Habs) as Hrestart.
  assert (Hchicken : GameManager.truthy (GameManager.chicken gm) = true) by by rewrite Hc.
  unfold GameManager.on_touch_down, phase. state_unfold. rewrite Hchicken.
  destruct (GameManager.game_over gm); cbn [intent_of_touch step negb andb] in *;
    [by destruct (GameManager.reset_game gm g) |].
  by destruct (GameManager.paused gm).
Qed.

Lemma on_size_change_refines gm size g s :
  abs gm = Some s ->
  refines (GameManager.on_size_change (GameManager.set_size gm size) size g)
    (resize s size g).
Proof.
  intros (c & sg & Hc & Hsg & ->)%abs_Some.
  unfold GameManager.on_size_change, resize, sized. cbn [score character field state].
  destruct (_ && _) eqn:Hsize.
  - pose proof (reset_game_refines
      (GameManager.place_score_label (GameManager.set_size gm size) size.1 size.2) g) as Hreset.
    destruct gm, size. apply Hreset, Hsize.
  - spec_unfold. destruct gm, size. gm_proj. by simplify_eq/=.
Qed.

Lemma initialize_game_refines gm g s :
  abs gm = Some s ->
  refines (GameManager.initialize_game gm g)
    (resize s (GameManager.width gm, GameManager.height gm) g).
Proof.
  intros Habs. pose proof Habs as (c & sg & Hc & Hsg & ->)%abs_Some.
  unfold GameManager.initialize_game, resize. cbn [score character field state].
  destruct (sized _) eqn:Hsize; unfold sized in Hsize; cbn [fst snd] in Hsize;
    rewrite Hsize; [by apply reset_game_refines | done].
Qed.

(** One event of the widget is one step of the loop. *)
Lemma step_simulation gm g e s :
  abs gm = Some s ->
  refines (GameManager.step (gm, g) e) (step s (input_of s e) g).
Proof.
  intros Habs. pose proof Habs as (c & sg & _ & _ & Hs)%abs_Some.
  destruct e as [| size | key | | dt]; cbn [GameManager.step input_of];
    rewrite ?Hs; cbn [state bounds]; rewrite <- ?Hs.
  - by apply initialize_game_refines.
  - by apply on_size_change_refines.
  - pose proof (on_key_down_refines gm key g s Habs) as Hkey.
    by destruct (GameManager.on_key_down gm key g) as [[? ?] ?].
  - pose proof (on_touch_down_refines gm g s Habs) as Htouch.
    by destruct (GameManager.on_touch_down gm g) as [[? ?] ?].
  - by apply update_refines.
Qed.

(** The invariant of the widget is the invariant of the loop. *)
Lemma abs_wf gm s : GameManager.inv gm -> abs gm = Some s -> wf s.
Proof.
  intros [Hscore _ _ Halive _ Hspikes _ _ _ _] (c & sg & Hc & Hsg & ->)%abs_Some.
  unfold wf, phase. cbn [state character score field].
  rewrite (Halive c Hc). split; [| by auto].
  by destruct (GameManager.game_over gm), (GameManager.paused gm).
Qed.

(** C2. The widget implements the simulation loop of the specification.
    Once the widget has its chicken and its spikes, any sequence of events
    of Kivy takes it to a state whose simulation loop is the one the
    machine of the specification reaches on the inputs the events stand
    for, drawing the same random numbers: a tick is the per-tick algorithm
    while running and nothing otherwise, the keys and the touch are the
    intents [jump], [togglePause] and [restart], and a change of size is a
    reset.  From a state that satisfies the invariant of the widget, the
    machine stays within the invariant of the loop. *)
Theorem run_refines es gm g s :
  abs gm = Some s ->
  refines (GameManager.run es (gm, g)) (run es (s, g)) /\
  (GameManager.inv gm -> wf (run es (s, g)).1).
Proof.
  intros Habs.
  assert (Hrun : refines (GameManager.run es (gm, g)) (run es (s, g))).
  { revert gm g s Habs. induction es as [| e es IH]; intros gm g s Habs; [done |].
    destruct (step_simulation gm g e s Habs) as [Hstep Hrng].
    cbn [GameManager.run run foldl fst snd].
    destruct (GameManager.step (gm, g) e) as [gm' g'], (step s (input_of s e) g) as [s' g''].
    cbn [fst snd] in *. subst g''. by apply IH. }
  split; [done |]. intros Hinv. destruct Hrun as [Hrun _].
  eapply abs_wf; [| done]. by apply (run_inv es (gm, g)).
Qed.

(** ** The transitions of the state machine *)

Lemma step_transition s (i : input R) g :
  transition (state s) i (state (step s (Some i) g).1).
Proof.
  destruct i as [[] | dt | size]; cbn [step]; unfold jump, toggle_pause, restart, resize, tick, reset;
    state_unfold; destruct (state s) eqn:Hstate;
    repeat (cbn [state fst snd]; rewrite ?Hstate;
            match goal with
            | |- context [let '(_, _) := ?x in _] => destruct x as [? ?]
            | |- context [if ?b then _ else _] => destruct b
            end);
    cbn [state fst snd]; rewrite ?Hstate; constructor.
Qed.

Lemma abs_phase gm s : abs gm = Some s -> state s = phase gm.
Proof. by intros (c & sg & _ & _ & ->)%abs_Some. Qed.

(** C20. The phases of a game follow the state machine of the
    specification: an event changes the phase of the widget (running,
    paused or over, as its flags say) only along a transition of section
    4.4 for the input the event stands for, and an event that stands for
    no input leaves the phase as it is.  In particular a paused game never
    ends and a finished game is never paused. *)
Theorem phases_follow_transitions gm g e s :
  abs gm = Some s ->
  match input_of s e with
  | Some i => transition (phase gm) i (phase (GameManager.step (gm, g) e).1)
  | None => phase (GameManager.step (gm, g) e).1 = phase gm
  end.
Proof.
  intros Habs. destruct (step_simulation gm g e s Habs) as [Hstep _].
  apply abs_phase in Hstep, Habs. rewrite <- Hstep, <- Habs.
  destruct (input_of s e) as [i |]; [apply step_transition | done].
Qed.

(** ** Before the first game *)

(** A widget without a simulation loop has neither chicken nor spikes,
    and its game is not over. *)
Lemma abs_None gm :
  GameManager.inv gm -> abs gm = None ->
  GameManager.chicken gm = None /\ GameManager.spike_generator gm = None /\
  GameManager.game_over gm = false.
Proof.
  intros [_ Htogether _ _ Hover _ _ _ _ _]. unfold abs.
  destruct (GameManager.chicken gm), (GameManager.spike_generator gm),
    (GameManager.game_over gm); cbn in *; try done.
  by specialize (Hover eq_refl).
Qed.

(** C29. The first game.  A widget that has no chicken and no spikes yet
    gets them from [initialize_game] or from a change of size, and only
    when the size is positive on both axes; the game it then holds is the
    reset state of the simulation loop, running, with a character at the
    centre and the high score kept.  No key, touch or tick starts a game,
    and none of them draws a random number. *)
Theorem start_refines gm g e :
  GameManager.inv gm -> abs gm = None ->
  match start_size gm e with
  | Some size =>
      if sized size
      then refines (GameManager.step (gm, g) e) (reset (GameManager.score_manager gm) size g)
      else abs (GameManager.step (gm, g) e).1 = None /\ (GameManager.step (gm, g) e).2 = g
  | None => abs (GameManager.step (gm, g) e).1 = None /\ (GameManager.step (gm, g) e).2 = g
  end.
Proof.
  intros Hinv Habs. destruct (abs_None gm Hinv Habs) as (Hc & Hsg & Hover).
  destruct e as [| size | key | | dt]; cbn [GameManager.step start_size].
  - unfold GameManager.initialize_game. destruct (sized _) eqn:Hsize;
      unfold sized in Hsize; cbn [fst snd] in Hsize; rewrite Hsize;
      [by apply reset_game_refines | done].
  - unfold GameManager.on_size_change. fold (sized size).
    destruct (sized size) eqn:Hsize; [| unfold abs; destruct gm; by simplify_eq/=].
    pose proof (reset_game_refines
      (GameManager.place_score_label (GameManager.set_size gm size) size.1 size.2) g) as Hreset.
    destruct gm, size. by apply Hreset.
  - unfold GameManager.on_key_down. state_unfold. rewrite Hc, Hover.
    cbn [GameManager.truthy andb negb]. rewrite !andb_false_r. cbn [andb].
    destruct (GameManager.is_pause_key key); cbn [andb]; [| done].
    rewrite toggle_pause_eq. unfold abs. gm_proj. by rewrite Hc.
  - unfold GameManager.on_touch_down. state_unfold. rewrite Hc, Hover.
    cbn [GameManager.truthy].
    destruct (GameManager.paused gm); [| done].
    rewrite toggle_pause_eq. unfold abs. gm_proj. by rewrite Hc.
  - rewrite update_not_running, Hover by auto. done.
Qed.

End Refinement.

(** ** The theorems at sample states, over the exact numbers *)

Section Exact.

#[local] Open Scope Q_scope.

Lemma run_refines_witness :
  let gm := GameManager.sample_running.1 in
  let g := GameManager.sample_running.2 in
  let s := default (mk (Chicken.init 0 0 0) (SpikeGenerator.mk 0 0 [] 0 0)
                      ScoreManager.init Running (0, 0)) (abs gm) in
  let es := [GameManager.KeyDown 32; GameManager.Tick (1 # 60)%Q; GameManager.KeyDown 112;
             GameManager.TouchDown; GameManager.Tick 1%Q; GameManager.KeyDown 114] in
  refines (GameManager.run es (gm, g)) (run es (s, g)) /\
  (GameManager.inv gm -> wf (run es (s, g)).1).
Proof. intros gm g s es. apply (run_refines es gm g s). by vm_compute. Defined.

Lemma phases_follow_transitions_witness :
  let gm := GameManager.sample_running.1 in
  let g := GameManager.sample_running.2 in
  let s := default (mk (Chicken.init 0 0 0) (SpikeGenerator.mk 0 0 [] 0 0)
                      ScoreManager.init Running (0, 0)) (abs gm) in
  match input_of s (GameManager.Tick 1%Q) with
  | Some i => transition (phase gm) i (phase (GameManager.step (gm, g) (GameManager.Tick 1%Q)).1)
  | None => phase (GameManager.step (gm, g) (GameManager.Tick 1%Q)).1 = phase gm
  end.
Proof.
  intros gm g s. apply (phases_follow_transitions gm g (GameManager.Tick 1%Q) s).
  by vm_compute.
Defined.

Lemma start_refines_witness :
  let gm := GameManager.sample_world.1 in
  let g := GameManager.sample_world.2 in
  match start_size gm GameManager.InitializeGame with
  | Some size =>
      if sized size
      then refines (GameManager.step (gm, g) GameManager.InitializeGame)
             (reset (GameManager.score_manager gm) size g)
      else abs (GameManager.step (gm, g) GameManager.InitializeGame).1 = None /\
           (GameManager.step (gm, g) GameManager.InitializeGame).2 = g
  | None => abs (GameManager.step (gm, g) GameManager.InitializeGame).1 = None /\
            (GameManager.step (gm, g) GameManager.InitializeGame).2 = g
  end.
Proof.
  intros gm g. apply (start_refines gm g GameManager.InitializeGame); [| by vm_compute].
  apply init_inv.
Defined.

End Exact.

End SimulationLoop.
