(* ===== verification/Rendering.v ===== *)
(** * Rendering: what the widget draws and which child widgets it holds

    Models the rendering of [src/widgets/game_manager.py]: the methods
    [draw_game], [draw_walls], [draw_chicken], [draw_center_orb] and
    [draw_spikes], and the calls of [add_widget] and [remove_widget] the
    other methods make.

    The canvas is the list of the graphics instructions added to it, in
    order; [Canvas.instruction] has one constructor per Kivy class the code
    instantiates, with the arguments the code gives.  A drawing method is
    the list of instructions it adds.  The list [children] of the widget
    holds its child widgets, the most recently added first, as Kivy keeps
    it.  Both are the [Screen.t] of the widget.

    No method reads the screen to decide what the game does, so the game
    logic of [GameManager] does not mention it; here each method that
    touches the screen has a companion that maps the screen before the call
    to the screen after it, following the same branches on the same state.
    [math.sin(Clock.get_time() * 2)], which only the orb reads, is an input
    of the tick.

    The theorems: the children of the widget in every reachable state, the
    triangles of the frame [draw_game] draws, the frame of the tick on
    which the chicken dies, the range of the colours of a frame, and a
    pause followed by a resume as the identity on the widget, the random
    generator and the screen. *)

From stdpp Require Import base tactics option list strings.
From Stdlib Require Import ZArith QArith Qabs Lqa Lia.
From S2P Require Import Prelude ScoreManager Character Obstacles ObstaclesManager.
From S2P Require Import GameManager GameInvariant.

(** ** The screen of the widget *)

Module Screen.

(** The child widgets [GameManager] adds to itself. *)
Inductive child : Type := ScoreLabel | PauseLayout | GameOverLayout.

#[global] Instance child_eq_dec : EqDecision child.
Proof. solve_decision. Defined.

Record t (R : Type) : Type := mk {
  canvas : list (Canvas.instruction R);
  children : list child
}.

Arguments mk {R}.
Arguments canvas {R}.
Arguments children {R}.

(** [Widget.add_widget(w)]: the new child is first in [children].  Kivy
    raises an exception for a widget that already has a parent; the
    children of the reachable states show that the widget never adds a
    child it already holds. *)
Definition add_widget {R} (d : t R) (w : child) : t R :=
  mk (canvas d) (w :: children d).

(** [Widget.remove_widget(w)]: nothing happens when [w] is not a child. *)
Definition remove_widget {R} (d : t R) (w : child) : t R :=
  mk (canvas d) (filter (fun c => c <> w) (children d)).

End Screen.

Module Render.

Import Canvas.
Import GameManager.

#[local] Open Scope num_scope.

Section Operations.

Context {R : Type} `{Num R}.

(** [GameManager.draw_walls] *)
Definition draw_walls (gm : t R) : list (instruction R) :=
  [ Color [dec 15 100; dec 15 100; dec 25 100; dec 8 10];
    Rectangle (of_Z 0, of_Z 0) (of_Z 5, height gm);
    Rectangle (width gm - of_Z 5, of_Z 0) (of_Z 5, height gm) ].

(** [direction = 1 if self.chicken.velocity.x > 0 else -1] *)
Definition direction (c : Chicken.t R) : Z :=
  if Vector.x (Chicken.velocity c) >? of_Z 0 then 1 else (-1).

(** The points of the beak of [draw_chicken]. *)
Definition beak_points (c : Chicken.t R) : list R :=
  let beak_size := 8%Z in
  let beak_x :=
    Vector.x (Chicken.pos c) + of_Z (Chicken.radius c * direction c) * dec 7 10 in
  let beak_y := Vector.y (Chicken.pos c) in
  if (direction c >? 0)%Z then
    [ beak_x; beak_y - of_Z 3;
      beak_x; beak_y + of_Z 3;
      beak_x + of_Z beak_size; beak_y ]
  else
    [ beak_x; beak_y - of_Z 3;
      beak_x; beak_y + of_Z 3;
      beak_x - of_Z beak_size; beak_y ].

(** [GameManager.draw_chicken] *)
Definition draw_chicken (gm : t R) : list (instruction R) :=
  match chicken gm with
  | None => []
  | Some c =>
      let eye_size := 3%Z in
      let eye_offset := 4%Z in
      [ Color [of_Z 1; dec 9 10; dec 2 10];
        Ellipse (Vector.x (Chicken.pos c) - of_Z (Chicken.radius c),
                 Vector.y (Chicken.pos c) - of_Z (Chicken.radius c))
                (of_Z (Chicken.size c), of_Z (Chicken.size c));
        Color [of_Z 1; dec 5 10; of_Z 0];
        Triangle (beak_points c);
        Color [of_Z 0; of_Z 0; of_Z 0];
        Ellipse (Vector.x (Chicken.pos c) - of_Z eye_offset,
                 Vector.y (Chicken.pos c) + of_Z 2)
                (of_Z eye_size, of_Z eye_size) ]
  end.

(** [pulse = abs(math.sin(Clock.get_time() * 2)) * 0.3 + 0.7], from the
    value of the sine. *)
Definition pulse (sin_t : R) : R := nabs sin_t * dec 3 10 + dec 7 10.

(** [orb_size = 500 + (self.score_manager.current_score * 2)] *)
Definition orb_size (gm : t R) : Z :=
  (500 + ScoreManager.current_score (score_manager gm) * 2)%Z.

(** One disc of the orb, centred on the widget. *)
Definition centred (gm : t R) (size : R) : instruction R :=
  Ellipse (width gm / of_Z 2 - size / of_Z 2, height gm / of_Z 2 - size / of_Z 2)
          (size, size).

(** [GameManager.draw_center_orb] *)
Definition draw_center_orb (gm : t R) (sin_t : R) : list (instruction R) :=
  let pulse := pulse sin_t in
  let orb_size := orb_size gm in
  let inner_size := of_Z orb_size * dec 6 10 in
  let core_size := of_Z orb_size * dec 3 10 in
  [ Color [dec 2 10; dec 3 10; dec 5 10; dec 4 10 * pulse];
    centred gm (of_Z orb_size);
    Color [dec 3 10; dec 4 10; dec 7 10; dec 6 10 * pulse];
    centred gm inner_size;
    Color [dec 5 10; dec 6 10; dec 9 10; dec 8 10 * pulse];
    centred gm core_size ].

(** The body of the inner loop of [draw_spikes]: the triangle, and its
    outline closed by the first point. *)
Definition draw_spike (spike : Spike.t R) : list (instruction R) :=
  let points := Spike.get_triangle_points spike in
  [ Triangle points;
    Color [dec 15 100; dec 15 100; dec 2 10];
    Line (points ++ take 2 points) (dec 12 10);
    Color [dec 2 10; dec 2 10; dec 3 10] ].

(** [GameManager.draw_spikes] *)
Definition draw_spikes (gm : t R) : list (instruction R) :=
  match spike_generator gm with
  | None => []
  | Some sg =>
      Color [dec 2 10; dec 2 10; dec 3 10] ::
      concat (map (fun spikes => concat (map draw_spike spikes)) (SpikeGenerator.spikes sg))
  end.

(** The test [if self.chicken and self.chicken.alive] of [draw_game]. *)
Definition chicken_visible (gm : t R) : bool :=
  match chicken gm with
  | Some c => Chicken.alive c
  | None => false
  end.

(** The instructions of [GameManager.draw_game], on the cleared canvas. *)
Definition draw_frame (gm : t R) (sin_t : R) : list (instruction R) :=
  [ Color [dec 5 100; dec 5 100; dec 15 100];
    Rectangle (of_Z 0, of_Z 0) (width gm, height gm) ] ++
  draw_center_orb gm sin_t ++
  draw_walls gm ++
  draw_spikes gm ++
  (if chicken_visible gm then draw_chicken gm else []).

(** [GameManager.draw_game]: the canvas of a widget is never false, so the
    canvas is cleared and drawn; the score label is then removed if it is a
    child, and added again. *)
Definition draw_game (gm : t R) (sin_t : R) (d : Screen.t R) : Screen.t R :=
  let d := Screen.mk (draw_frame gm sin_t) (Screen.children d) in
  let d := if bool_decide (Screen.ScoreLabel ∈ Screen.children d)
           then Screen.remove_widget d Screen.ScoreLabel else d in
  Screen.add_widget d Screen.ScoreLabel.

(** ** The screen along the methods of the game logic *)

(** [GameManager.__init__]: an empty canvas and the score label. *)
Definition init_screen : Screen.t R := Screen.mk [] [Screen.ScoreLabel].

(** [GameManager.clear_overlays] *)
Definition clear_overlays_screen (gm : t R) (d : Screen.t R) : Screen.t R :=
  let d := if truthy (pause_layout gm)
           then Screen.remove_widget d Screen.PauseLayout else d in
  if truthy (game_over_layout gm)
  then Screen.remove_widget d Screen.GameOverLayout else d.

(** [GameManager.show_pause_menu] *)
Definition show_pause_menu_screen (gm : t R) (d : Screen.t R) : Screen.t R :=
  if truthy (pause_layout gm) || negb (truthy (pause_layout gm)) then d
  else Screen.add_widget d Screen.PauseLayout.

(** [GameManager.update_pause_menu] *)
Definition update_pause_menu_screen (gm : t R) (d : Screen.t R) : Screen.t R :=
  if paused gm then show_pause_menu_screen gm d
  else if truthy (pause_layout gm) then Screen.remove_widget d Screen.PauseLayout
  else d.

(** [GameManager.show_game_over] *)
Definition show_game_over_screen (gm : t R) (d : Screen.t R) : Screen.t R :=
  if truthy (game_over_layout gm) then d
  else Screen.add_widget d Screen.GameOverLayout.

(** [GameManager.reset_game]: only [clear_overlays] touches the screen. *)
Definition reset_game_screen (gm : t R) (d : Screen.t R) : Screen.t R :=
  clear_overlays_screen gm d.

(** [GameManager.initialize_game] *)
Definition initialize_game_screen (gm : t R) (d : Screen.t R) : Screen.t R :=
  if (width gm >? of_Z 0) && (height gm >? of_Z 0) then reset_game_screen gm d else d.

(** [GameManager.on_size_change(_, size)] *)
Definition on_size_change_screen (gm : t R) (size : R * R) (d : Screen.t R) : Screen.t R :=
  if (size.1 >? of_Z 0) && (size.2 >? of_Z 0) then
    reset_game_screen (place_score_label gm size.1 size.2) d
  else d.

(** [GameManager.on_key_down(_, key, ...)] *)
Definition on_key_down_screen (gm : t R) (key : Z) (d : Screen.t R) : Screen.t R :=
  if is_jump_key key && truthy (chicken gm) && negb (game_over gm) && negb (paused gm) then d
  else if is_restart_key key && game_over gm then reset_game_screen gm d
  else if is_pause_key key && negb (game_over gm) then
    update_pause_menu_screen (set_paused gm (negb (paused gm))) d
  else d.

(** [GameManager.on_touch_down(touch)] *)
Definition on_touch_down_screen (gm : t R) (d : Screen.t R) : Screen.t R :=
  if game_over gm then reset_game_screen gm d
  else if paused gm then update_pause_menu_screen (set_paused gm false) d
  else d.

(** [GameManager.update(dt)]: the overlay of a finished game, nothing while
    the game is paused or not ready, and otherwise the frame of the state
    the tick leaves. *)
Definition update_screen (gm : t R) (dt : R) (g : Random.t R) (sin_t : R)
    (d : Screen.t R) : Screen.t R :=
  if game_over gm then
    if negb (truthy (game_over_layout gm)) then show_game_over_screen gm d else d
  else if paused gm || negb (truthy (chicken gm)) || negb (truthy (spike_generator gm)) then d
  else draw_game (update gm dt g).1 sin_t d.

(** ** The widget with its screen *)

(** An event, with the value of [math.sin(Clock.get_time() * 2)] when it
    is delivered. *)
Definition timed_event : Type := (event R * R)%type.

(** The widget, the random generator and the screen. *)
Definition display : Type := (world (R := R) * Screen.t R)%type.

Definition step_screen (w : world) (te : timed_event) (d : Screen.t R) : Screen.t R :=
  let '(gm, g) := w in
  match te.1 with
  | InitializeGame => initialize_game_screen gm d
  | SizeChange size => on_size_change_screen (set_size gm size) size d
  | KeyDown key => on_key_down_screen gm key d
  | TouchDown => on_touch_down_screen gm d
  | Tick dt => update_screen gm dt g te.2 d
  end.

Definition step_display (wd : display) (te : timed_event) : display :=
  (step wd.1 te.1, step_screen wd.1 te wd.2).

Definition run_display (tes : list timed_event) (wd : display) : display :=
  foldl step_display wd tes.

Definition init_display (width height : R) (g : Random.t R) : display :=
  ((init width height, g), init_screen).

(** The widget with [paused] set to [b], in the same environment. *)
Definition with_paused (wd : display) (b : bool) : display :=
  ((set_paused wd.1.1 b, wd.1.2), wd.2).

(** The ticks of the game loop, from the elapsed time and the value of
    the sine at each. *)
Definition tick_events (ticks : list (R * R)) : list timed_event :=
  (fun p => (Tick p.1, p.2)) <$> ticks.

(** ** The invariant of the screen *)

(** The children of the widget in a state [gm] of the game: the score
    label, under the game-over overlay when the widget holds one. *)
Definition expected_children (gm : t R) : list Screen.child :=
  if truthy (game_over_layout gm) then [Screen.GameOverLayout; Screen.ScoreLabel]
  else [Screen.ScoreLabel].

Definition screen_inv (gm : t R) (d : Screen.t R) : Prop :=
  Screen.children d = expected_children gm.

(** The invariant of the widget with its screen. *)
Definition display_inv (wd : display) : Prop := inv wd.1.1 /\ screen_inv wd.1.1 wd.2.

(** The triangle [draw_spikes] draws for a spike. *)
Definition triangle_of (s : Spike.t R) : instruction R :=
  Triangle (Spike.get_triangle_points s).

(** The frame without the chicken: the background, the orb, the walls and
    the spikes. *)
Definition scene (gm : t R) (sin_t : R) : list (instruction R) :=
  [ Color [dec 5 100; dec 5 100; dec 15 100];
    Rectangle (of_Z 0, of_Z 0) (width gm, height gm) ] ++
  draw_center_orb gm sin_t ++ draw_walls gm ++ draw_spikes gm.

End Operations.

(** ** Colours, over the exact numbers *)

(** A colour component Kivy accepts. *)
Definition unit_interval (x : Q) : Prop := (0 <= x <= 1)%Q.

(** Every component of a colour instruction is in the unit interval. *)
Definition colour_ok (i : instruction Q) : Prop :=
  match i with
  | Color rgba => Forall unit_interval rgba
  | _ => True
  end.

(** Closes the goals on the colours of an explicit list of instructions. *)
Ltac colours :=
  repeat first [apply Forall_nil_2 | apply Forall_cons_2];
  try exact I; try (unfold unit_interval; q_unfold; lra).

Section Generic.

Context {R : Type} `{Num R}.
Implicit Types (gm : t R) (g : Random.t R) (d : Screen.t R) (w : world (R := R)).
Implicit Types (wd : display (R := R)).

(** ** The children of the widget *)

Lemma screen_inv_ext gm gm' d :
  game_over_layout gm' = game_over_layout gm -> screen_inv gm d -> screen_inv gm' d.
Proof. unfold screen_inv, expected_children. by intros ->. Qed.

Lemma screen_inv_no_overlay gm d :
  game_over_layout gm = None -> screen_inv gm d -> Screen.children d = [Screen.ScoreLabel].
Proof. unfold screen_inv, expected_children. by intros ->. Qed.

Lemma clear_overlays_screen_children gm d :
  screen_inv gm d ->
  Screen.children (clear_overlays_screen gm d) = [Screen.ScoreLabel].
Proof.
  unfold screen_inv, expected_children, clear_overlays_screen. destruct d as [cv ch].
  destruct (truthy (pause_layout gm)), (truthy (game_over_layout gm)); cbn; by intros ->.
Qed.

Lemma update_pause_menu_screen_id gm d :
  screen_inv gm d -> update_pause_menu_screen gm d = d.
Proof.
  unfold screen_inv, expected_children, update_pause_menu_screen, show_pause_menu_screen.
  destruct d as [cv ch]. unfold Screen.remove_widget.
  destruct (paused gm), (truthy (pause_layout gm)), (truthy (game_over_layout gm));
    cbn; by intros ->.
Qed.

Lemma draw_game_children gm d sin_t :
  Screen.children d = [Screen.ScoreLabel] ->
  Screen.children (draw_game gm sin_t d) = [Screen.ScoreLabel].
Proof. unfold draw_game. destruct d as [cv ch]. cbn. by intros ->. Qed.

(** The canvas after [draw_game] is the frame it draws. *)
Lemma draw_game_canvas gm d sin_t :
  Screen.canvas (draw_game gm sin_t d) = draw_frame gm sin_t.
Proof. unfold draw_game. by case_bool_decide. Qed.

(** ** The game-over overlay along the methods *)

Lemma reset_game_layout gm g : game_over_layout (reset_game gm g).1 = None.
Proof.
  rewrite reset_game_spec. destruct (_ && _).
  - by destruct (SpikeGenerator.init _ _ g).
  - rewrite clear_overlays_spec. by destruct gm.
Qed.

Lemma running_no_overlay gm : inv gm -> game_over gm = false -> game_over_layout gm = None.
Proof.
  intros Hinv Hover. destruct (game_over_layout gm) as [l |] eqn:Hl; [| done].
  destruct (inv_over_layout gm Hinv l Hl). congruence.
Qed.

(** After a tick the widget holds a game-over overlay exactly when the
    game was over before the tick. *)
Lemma update_layout gm dt g :
  inv gm -> truthy (game_over_layout (update gm dt g).1) = game_over gm.
Proof.
  intros Hinv. destruct (running_cases gm) as [(c & sg & Hover & Hpaused & Hc & Hsg) | Hnot].
  - rewrite (update_running gm dt g c sg), Hover by done.
    pose proof (running_no_overlay gm Hinv Hover) as Hno.
    destruct (Chicken.update c dt _) as [[[] coords] c1]; cbv beta iota zeta;
      [destruct (SpikeGenerator.regenerate_spikes _ _ _ g) |]; cbn; by rewrite Hno.
  - rewrite update_not_running by done. destruct (game_over gm) eqn:Hover.
    + rewrite show_game_over_eq. cbn. by destruct (game_over_layout gm).
    + cbn [fst]. by rewrite (running_no_overlay gm Hinv Hover).
Qed.

(** ** The invariant along the methods *)

Lemma reset_game_screen_inv gm g d :
  screen_inv gm d -> screen_inv (reset_game gm g).1 (reset_game_screen gm d).
Proof.
  intros Hd. unfold screen_inv, expected_children. rewrite reset_game_layout.
  by apply clear_overlays_screen_children.
Qed.

Lemma toggle_pause_screen_inv gm (b : bool) d :
  screen_inv gm d ->
  screen_inv (update_pause_menu (set_paused gm b)) (update_pause_menu_screen (set_paused gm b) d).
Proof.
  intros Hd. assert (Hb : screen_inv (set_paused gm b) d) by by destruct gm.
  unfold screen_inv. rewrite update_pause_menu_screen_id by done.
  rewrite toggle_pause_eq. by destruct gm.
Qed.

Lemma update_screen_inv gm dt g sin_t d :
  inv gm -> screen_inv gm d ->
  screen_inv (update gm dt g).1 (update_screen gm dt g sin_t d).
Proof.
  intros Hinv Hd. unfold screen_inv, expected_children, update_screen, show_game_over_screen.
  rewrite update_layout by done. destruct (game_over gm) eqn:Hover.
  - revert Hd. unfold screen_inv, expected_children. destruct d as [cv ch].
    by destruct (truthy (game_over_layout gm)); cbn; intros ->.
  - pose proof (screen_inv_no_overlay gm d (running_no_overlay gm Hinv Hover) Hd).
    destruct (_ || _ || _); [done | by apply draw_game_children].
Qed.

Lemma on_key_down_screen_inv gm key g d :
  screen_inv gm d -> screen_inv (on_key_down gm key g).1.2 (on_key_down_screen gm key d).
Proof.
  intros Hd. unfold on_key_down, on_key_down_screen. state_unfold.
  destruct (_ && _ && _ && _); [by apply (screen_inv_ext gm); [destruct gm |] |].
  destruct (is_restart_key key && _).
  { pose proof (reset_game_screen_inv gm g d Hd). by destruct (reset_game gm g). }
  destruct (is_pause_key key && _); [by apply toggle_pause_screen_inv | done].
Qed.

Lemma on_touch_down_screen_inv gm g d :
  screen_inv gm d -> screen_inv (on_touch_down gm g).1.2 (on_touch_down_screen gm d).
Proof.
  intros Hd. unfold on_touch_down, on_touch_down_screen. state_unfold.
  destruct (game_over gm).
  { pose proof (reset_game_screen_inv gm g d Hd). by destruct (reset_game gm g). }
  destruct (paused gm); [by apply toggle_pause_screen_inv |].
  destruct (truthy (chicken gm)); [by apply (screen_inv_ext gm); [destruct gm |] | done].
Qed.

Lemma initialize_game_screen_inv gm g d :
  screen_inv gm d -> screen_inv (initialize_game gm g).1 (initialize_game_screen gm d).
Proof.
  intros Hd. unfold initialize_game, initialize_game_screen.
  destruct (_ && _); [by apply reset_game_screen_inv | done].
Qed.

Lemma on_size_change_screen_inv gm size g d :
  screen_inv gm d -> screen_inv (on_size_change gm size g).1 (on_size_change_screen gm size d).
Proof.
  intros Hd. unfold on_size_change, on_size_change_screen.
  destruct (_ && _); [| done].
  by apply reset_game_screen_inv, (screen_inv_ext gm); [destruct gm |].
Qed.

Lemma step_display_inv wd te : display_inv wd -> display_inv (step_display wd te).
Proof.
  destruct wd as [[gm g] d], te as [e sin_t]. intros [Hinv Hd].
  split; [by apply (step_inv (gm, g)) |].
  destruct e as [| size | key | | dt]; cbn [step_display step_screen step fst snd] in *.
  - by apply initialize_game_screen_inv.
  - by apply on_size_change_screen_inv, (screen_inv_ext gm); [destruct gm |].
  - pose proof (on_key_down_screen_inv gm key g d Hd).
    by destruct (on_key_down gm key g) as [[? ?] ?].
  - pose proof (on_touch_down_screen_inv gm g d Hd).
    by destruct (on_touch_down gm g) as [[? ?] ?].
  - by apply update_screen_inv.
Qed.

Lemma init_display_inv (width height : R) g : display_inv (init_display width height g).
Proof. split; [apply init_inv | done]. Qed.

(** The widget with its screen as a machine: the events preserve
    [display_inv]. *)
#[global] Instance display_machine : Machine display timed_event :=
  {| step_of := step_display; inv_of := display_inv; step_of_inv := step_display_inv |}.

Lemma run_display_inv tes wd : display_inv wd -> display_inv (run_display tes wd).
Proof. exact (run_of_inv tes wd). Qed.

(** The game logic does not depend on the screen: the widget of a run with
    its screen is the widget of the run of the events alone. *)
Lemma run_display_world tes wd : (run_display tes wd).1 = run tes.*1 wd.1.
Proof.
  revert wd. induction tes as [| te tes IH]; intros wd; [done |].
  exact (IH (step_display wd te)).
Qed.

(** C12. The children of the widget, in every state it can reach: the
    score label alone while the widget holds no game-over overlay, and the
    game-over overlay above the score label otherwise.  The score label is a
    child exactly once, however often [draw_game] removes it and adds it
    again, and the pause overlay is never a child. *)
Theorem reachable_children tes (width height : R) g :
  let wd := run_display tes (init_display width height g) in
  Screen.children wd.2 =
    if truthy (game_over_layout wd.1.1)
    then [Screen.GameOverLayout; Screen.ScoreLabel] else [Screen.ScoreLabel].
Proof. apply (run_display_inv tes), init_display_inv. Qed.

(** ** The frame *)

Lemma draw_column_triangles (col : list (Spike.t R)) :
  filter is_triangle (concat (map draw_spike col)) = triangle_of <$> col.
Proof. induction col as [| s col IH]; [done |]. cbn. by rewrite <- IH. Qed.

Lemma draw_columns_triangles (cols : list (list (Spike.t R))) :
  filter is_triangle (concat (map (fun spikes => concat (map draw_spike spikes)) cols)) =
    triangle_of <$> concat cols.
Proof.
  induction cols as [| col cols IH]; [done |].
  cbn [map concat]. by rewrite filter_app, fmap_app, draw_column_triangles, IH.
Qed.

Lemma draw_spikes_triangles gm :
  filter is_triangle (draw_spikes gm) =
    triangle_of <$> concat (from_option SpikeGenerator.spikes [] (spike_generator gm)).
Proof.
  unfold draw_spikes. destruct (spike_generator gm) as [sg |]; [| done].
  apply draw_columns_triangles.
Qed.

Lemma draw_frame_scene gm sin_t :
  draw_frame gm sin_t = scene gm sin_t ++ (if chicken_visible gm then draw_chicken gm else []).
Proof. unfold draw_frame, scene. by rewrite <- !app_assoc. Qed.

Lemma scene_triangles gm sin_t :
  filter is_triangle (scene gm sin_t) =
    triangle_of <$> concat (from_option SpikeGenerator.spikes [] (spike_generator gm)).
Proof. unfold scene. rewrite !filter_app, draw_spikes_triangles. done. Qed.

(** C16. The triangles of a frame are the triangles of the spikes, one for
    each spike, column by column and in the order of the columns, with the
    points [get_triangle_points] returns, followed by the beak of the
    chicken when there is a chicken and it is alive: no spike is left out or
    drawn twice, and a dead chicken has no beak on the screen. *)
Theorem draw_frame_triangles gm sin_t :
  filter is_triangle (draw_frame gm sin_t) =
    (triangle_of <$> concat (from_option SpikeGenerator.spikes [] (spike_generator gm))) ++
    match chicken gm with
    | Some c => if Chicken.alive c then [Triangle (beak_points c)] else []
    | None => []
    end.
Proof.
  rewrite draw_frame_scene, filter_app, scene_triangles. f_equal.
  unfold chicken_visible, draw_chicken.
  destruct (chicken gm) as [c |]; [by destruct (Chicken.alive c) | done].
Qed.

(** The frame a tick draws when it ends the game has no chicken. *)
Lemma dead_frame gm sin_t :
  inv gm -> game_over gm = true -> draw_frame gm sin_t = scene gm sin_t.
Proof.
  intros Hinv Hover. rewrite draw_frame_scene. unfold chicken_visible.
  destruct (chicken gm) as [c |] eqn:Hc; [| by rewrite app_nil_r].
  by rewrite (inv_alive gm Hinv c Hc), Hover, app_nil_r.
Qed.

(** A tick that changes [game_over] is a tick of a running game. *)
Lemma update_ends_game gm dt g :
  game_over gm = false -> game_over (update gm dt g).1 = true ->
  paused gm || negb (truthy (chicken gm)) || negb (truthy (spike_generator gm)) = false.
Proof.
  intros Hover Hend.
  destruct (running_cases gm) as [(c & sg & _ & -> & -> & ->) | Hnot]; [done |].
  rewrite update_not_running, Hover in Hend by done. cbn in Hend. congruence.
Qed.

(** C17. The frame of the tick on which the chicken dies shows no chicken:
    when a tick ends the game, the canvas holds the background, the orb, the
    walls and the spikes of the state the tick leaves, and nothing of the
    chicken, which [draw_game] only draws while it is alive. *)
Theorem death_frame_without_chicken gm dt g sin_t d :
  inv gm -> game_over gm = false -> game_over (update gm dt g).1 = true ->
  Screen.canvas (update_screen gm dt g sin_t d) = scene (update gm dt g).1 sin_t.
Proof.
  intros Hinv Hover Hend. unfold update_screen.
  rewrite Hover, (update_ends_game gm dt g Hover Hend), draw_game_canvas.
  by apply dead_frame; [apply update_inv |].
Qed.

(** ** Pause and resume *)

Lemma pause_key_only key :
  is_pause_key key = true -> is_jump_key key = false /\ is_restart_key key = false.
Proof.
  unfold is_jump_key, is_restart_key, is_pause_key.
  intros [->%Z.eqb_eq | ->%Z.eqb_eq]%orb_true_iff; done.
Qed.

Lemma toggle_pause_set gm (b : bool) :
  pause_layout gm = None -> update_pause_menu (set_paused gm b) = set_paused gm b.
Proof. intros Hl. rewrite toggle_pause_eq. destruct gm, b; by simplify_eq/=. Qed.

(** A pause key on a game that is not over toggles [paused], and nothing
    else. *)
Lemma pause_key_step wd key sin_t :
  display_inv wd -> game_over wd.1.1 = false -> is_pause_key key = true ->
  step_display wd (KeyDown key, sin_t) = with_paused wd (negb (paused wd.1.1)).
Proof.
  destruct wd as [[gm g] d]. unfold with_paused. cbn [fst snd].
  intros [Hinv Hd] Hover Hkey. destruct (pause_key_only key Hkey) as [Hjump Hrestart].
  unfold step_display. cbn [step step_screen fst snd] in *.
  unfold on_key_down, on_key_down_screen. state_unfold.
  rewrite Hjump, Hrestart, Hkey, Hover. cbn [andb negb].
  rewrite toggle_pause_set by apply Hinv.
  rewrite update_pause_menu_screen_id; [done | by destruct gm].
Qed.

(** A touch on a paused game resumes it, and nothing else. *)
Lemma touch_resumes wd sin_t :
  display_inv wd -> game_over wd.1.1 = false -> paused wd.1.1 = true ->
  step_display wd (TouchDown, sin_t) = with_paused wd false.
Proof.
  destruct wd as [[gm g] d]. unfold with_paused. cbn [fst snd].
  intros [Hinv Hd] Hover Hpaused. unfold step_display. cbn [step step_screen fst snd] in *.
  unfold on_touch_down, on_touch_down_screen. state_unfold. rewrite Hover, Hpaused.
  rewrite toggle_pause_set by apply Hinv.
  rewrite update_pause_menu_screen_id; [done | by destruct gm].
Qed.

(** Ticks of a paused game change neither the widget, nor the random
    generator, nor the screen. *)
Lemma paused_ticks wd (ticks : list (R * R)) :
  game_over wd.1.1 = false -> paused wd.1.1 = true ->
  run_display (tick_events ticks) wd = wd.
Proof.
  intros Hover Hpaused. induction ticks as [| [dt sin_t] ticks IH]; [done |].
  rewrite <- IH at 2. unfold tick_events, run_display. cbn [fmap list_fmap foldl]. f_equal.
  destruct wd as [[gm g] d]. unfold step_display. cbn [step step_screen fst snd] in *.
  unfold update_screen. by rewrite update_not_running, Hover, Hpaused by auto.
Qed.

Lemma with_paused_back wd :
  paused wd.1.1 = false -> with_paused (with_paused wd true) false = wd.
Proof. destruct wd as [[[] g] d]. unfold with_paused. cbn. by intros ->. Qed.

(** C15. Pause and resume give back the game as it was: on a running
    game, a pause key, any number of ticks and then a pause key or a touch
    leave the widget, the random generator, the canvas and the children
    exactly as they were before the pause; no time passes for the chicken
    and no frame is drawn while the game is paused. *)
Theorem pause_resume_roundtrip wd key (ticks : list (R * R)) (e : event R) s s' :
  display_inv wd -> game_over wd.1.1 = false -> paused wd.1.1 = false ->
  is_pause_key key = true ->
  (e = TouchDown \/ exists key', e = KeyDown key' /\ is_pause_key key' = true) ->
  run_display ((KeyDown key, s) :: tick_events ticks ++ [(e, s')]) wd = wd.
Proof.
  intros Hwd Hover Hpaused Hkey He.
  pose proof (step_display_inv _ (KeyDown key, s) Hwd) as Hwd'.
  unfold run_display. cbn [foldl]. rewrite foldl_app.
  rewrite (pause_key_step wd key s Hwd Hover Hkey), Hpaused in *. cbn [negb foldl] in *.
  fold (run_display (tick_events ticks) (with_paused wd true)).
  assert (Hover' : game_over (with_paused wd true).1.1 = false) by by destruct wd as [[[] ?] ?].
  assert (Hpaused' : paused (with_paused wd true).1.1 = true) by by destruct wd as [[[] ?] ?].
  rewrite paused_ticks by done.
  destruct He as [-> | (key' & -> & Hkey')].
  - rewrite touch_resumes by done. by apply with_paused_back.
  - rewrite pause_key_step, Hpaused' by done. by apply with_paused_back.
Qed.

End Generic.

(** ** The frame over the exact numbers *)

Section Exact.

#[local] Open Scope Q_scope.

Implicit Types (gm : t Q) (sin_t : Q).

Lemma pulse_bounds sin_t : -1 <= sin_t <= 1 -> 7 # 10 <= pulse sin_t <= 1.
Proof.
  intros Hs. unfold pulse. q_unfold.
  destruct (Qabs_cases sin_t) as [[? Heq] | [? Heq]]; lra.
Qed.

Lemma draw_center_orb_colours gm sin_t :
  -1 <= sin_t <= 1 -> Forall colour_ok (draw_center_orb gm sin_t).
Proof.
  intros Hs%pulse_bounds. unfold draw_center_orb. generalize dependent (pulse sin_t).
  intros p Hp. cbn [colour_ok]. colours.
Qed.

Lemma draw_column_colours (col : list (Spike.t Q)) :
  Forall colour_ok (concat (map draw_spike col)).
Proof.
  induction col as [| s col IH]; [done |].
  cbn [map concat]. apply Forall_app. split; [unfold draw_spike; colours | done].
Qed.

Lemma draw_spikes_colours gm : Forall colour_ok (draw_spikes gm).
Proof.
  unfold draw_spikes. destruct (spike_generator gm) as [sg |]; [| done].
  apply Forall_cons_2; [colours |].
  induction (SpikeGenerator.spikes sg) as [| col cols IH]; [done |].
  cbn [map concat]. apply Forall_app. split; [apply draw_column_colours | done].
Qed.

(** Every colour of a frame is a colour: each component of each
    [Color] instruction [draw_game] issues, the alpha of the pulsing orb
    included, is between 0 and 1, for every value the sine can take. *)
Theorem frame_colours_in_range gm sin_t :
  -1 <= sin_t <= 1 -> Forall colour_ok (draw_frame gm sin_t).
Proof.
  intros Hs. unfold draw_frame. rewrite !Forall_app. split_and!.
  - colours.
  - by apply draw_center_orb_colours.
  - unfold draw_walls. colours.
  - apply draw_spikes_colours.
  - unfold draw_chicken. destruct (chicken_visible gm), (chicken gm); colours.
Qed.

Lemma frame_colours_in_range_witness :
  Forall colour_ok (draw_frame sample_running.1 (1 # 2)).
Proof. apply frame_colours_in_range. lra. Defined.

Lemma death_frame_without_chicken_witness :
  Screen.canvas (update_screen sample_running.1 1 sample_running.2 0 init_screen) =
    scene (update sample_running.1 1 sample_running.2).1 0.
Proof.
  apply death_frame_without_chicken;
    [apply (run_inv [InitializeGame] sample_world), init_inv | by vm_compute..].
Defined.

Lemma pause_resume_roundtrip_witness :
  let wd := (sample_running, init_screen) in
  run_display
    ((KeyDown 112, 0) :: tick_events [(1 # 60, 0); (1 # 60, 1 # 2)] ++ [(TouchDown, 0)]) wd = wd.
Proof.
  apply pause_resume_roundtrip; [| by vm_compute.. | by left].
  split; [apply (run_inv [InitializeGame] sample_world), init_inv | by vm_compute].
Defined.

End Exact.

End Render.
