(* ===== verification/GameApp.v ===== *)
(** * GameApp: the application

    Models [src/main.py]: [GameApp.build] sets the colour and the size of
    the window and returns a new [GameManager] as the root widget.

    What Kivy does with the root widget is not code of the repository; the
    definitions [launch] and [idle] state it as the sequence of events the
    widget receives: the window gives the root widget its size, which
    calls [on_size_change]; the call scheduled once, [initialize_game],
    follows; then the game loop calls [update] once per frame, with the
    period given to [Clock.schedule_interval] as the elapsed time.

    The theorems are about the application as a whole: the state the
    launch leaves, and that a game the player leaves alone is over within
    fifty frames, whatever spikes the random generator places. *)

From stdpp Require Import base tactics option list strings.
From Stdlib Require Import ZArith QArith Lqa Lia.
From S2P Require Import Prelude ScoreManager Character Obstacles ObstaclesManager.
From S2P Require Import GameManager GameInvariant.

(** ** [kivy.core.window.Window], as far as [build] sets it *)

Module Window.

Record t (R : Type) : Type := mk {
  clearcolor : list R;
  size : R * R
}.

Arguments mk {R}.
Arguments clearcolor {R}.
Arguments size {R}.

End Window.

Module GameApp.

Import GameManager.

#[local] Open Scope num_scope.

Section Operations.

Context {R : Type} `{Num R}.

(** The size of a Kivy widget that no parent has laid out yet. *)
Definition default_widget_size : R * R := (of_Z 100, of_Z 100).

(** [GameApp.build]: the window as it is set, and the widget returned. *)
Definition build : Window.t R * GameManager.t R :=
  (Window.mk [dec 5 100; dec 5 100; dec 15 100; of_Z 1] (of_Z 1000, of_Z 700),
   init default_widget_size.1 default_widget_size.2).

(** The period of the game loop,
    [Clock.schedule_interval(self.update, 1.0 / 60.0)]. *)
Definition frame_interval : R := of_Z 1 / of_Z 60.

(** [GameApp().run()] up to the first frame. *)
Definition launch (g : Random.t R) : world :=
  let '(window, game) := build in
  run [SizeChange (Window.size window); InitializeGame] (game, g).

(** [n] frames without input. *)
Definition idle (n : nat) : list (event R) := replicate n (Tick frame_interval).

End Operations.

Section Exact.

#[local] Open Scope Q_scope.

Implicit Types (gm : GameManager.t Q) (g : Random.t Q).

(** ** The launch *)

Lemma launch_inv g : inv (launch g).1.
Proof. apply run_inv, init_inv. Qed.

(** After the launch a game is running in a field of 1000 by 700, with a
    new chicken at its centre. *)
Lemma launch_ready g :
  let gm := (launch g).1 in
  chicken gm = Some (Chicken.init (1000 / 2) (700 / 2) Chicken.default_size) /\
  truthy (spike_generator gm) = true /\
  game_over gm = false /\ paused gm = false /\
  width gm = 1000 /\ height gm = 700.
Proof.
  unfold launch, build, run. cbn [foldl step Window.size]. unfold on_size_change.
  change ((_ >? _) && (_ >? _))%num with true. cbv iota.
  set (gm0 := place_score_label _ _ _).
  assert (Hsize : (width gm0 >? of_Z 0) && (height gm0 >? of_Z 0) = true) by by vm_compute.
  destruct (reset_game_ready gm0 g Hsize) as (_ & _ & _ & _ & Hw & Hh).
  destruct (reset_game gm0 g) as [gm1 g1]. cbn [fst] in Hw, Hh.
  cbn [step]. unfold initialize_game. pose proof (reset_game_ready gm1 g1) as Hready.
  rewrite Hw, Hh in *. rewrite Hsize in *.
  destruct (Hready eq_refl) as (? & ? & ? & ? & ? & ?). by split_and!.
Qed.

(** ** A game left alone *)

(** A running game without input is over once the closed form of the fall
    of its chicken is at or below the radius. *)
Lemma idle_ticks_end_game n dt gm g c :
  inv gm -> game_over gm = false -> paused gm = false ->
  chicken gm = Some c -> truthy (spike_generator gm) = true ->
  (0 < n)%nat -> Chicken.fall_y c dt n <= of_Z (Chicken.radius c) ->
  game_over (run (replicate n (Tick dt)) (gm, g)).1 = true.
Proof.
  intros Hinv Hover Hpaused Hc Hsg Hpos Hfloor.
  destruct (game_over (run (replicate n (Tick dt)) (gm, g)).1) eqn:Hend; [done |].
  pose proof (ticks_survive n dt gm g c Hover Hpaused Hc Hsg Hend) as Hc'.
  pose proof (inv_alive _ (run_inv (replicate n (Tick dt)) (gm, g) Hinv) _ Hc') as Ha.
  rewrite Hend in Ha.
  pose proof (Chicken.fall_alive_above n dt (width gm, height gm) c Hpos Ha). lra.
Qed.

(** C11. A game the player leaves alone ends: whatever numbers the random
    generator returns, fifty frames after the launch, and at every later
    frame, the game is over; the chicken has hit a spike or fallen to the
    floor, less than a second after the game began. *)
Theorem idle_game_ends n g :
  (50 <= n)%nat -> game_over (run (idle n) (launch g)).1 = true.
Proof.
  intros Hn. replace n with (50 + (n - 50))%nat by lia.
  unfold idle, run. rewrite replicate_add, foldl_app.
  apply ticks_game_over. destruct (launch_ready g) as (Hc & Hsg & Hover & Hpaused & _).
  pose proof (launch_inv g) as Hinv. destruct (launch g) as [gm g0].
  apply (idle_ticks_end_game 50 _ gm g0 _ Hinv Hover Hpaused Hc Hsg); [lia | by vm_compute].
Qed.

Lemma idle_game_ends_witness :
  game_over (run (idle 60) (launch Random.sample)).1 = true.
Proof. apply idle_game_ends. lia. Defined.

End Exact.

End GameApp.
